(** * extract_vba_source: the directory-stream parser and the extraction driver

    A shallow embedding of [src/extract_vba_source/extract_vba_source.py].

    - [Stream]  : [io.BytesIO] and [struct.unpack] as the parser uses them.
    - [Olevba]  : [vba_project_init], the function that replaces
                  [VBA_Project.__init__], as a state-and-exception monad over
                  the project object, the stream cursor and the log, with one
                  definition per record block of the source, in source order;
                  and [extract_macros] over the parsers of a file.
    - [Driver]  : [get_source_paths], [get_outputpath], the body of the
                  loop of [main] and [main] itself over a finite-map file
                  system.
    - [OlevbaFacts], [DriverFacts] : what is proved about them.
    - [OlevbaMore], [DriverMore]   : invariants of the parse, the records
                  one by one, [extract_macros], and what a pass and a run
                  leave in the file system.

    The function is oletools' constructor, copied into this module with
    local changes.  Of the module-level names it uses, the module binds
    [log], [struct], [BytesIO] and [codepages] (lines 56-87); it imports
    only [VBA_Parser], [VBA_Project] and [filter_vba] from [oletools.olevba]
    (line 6) and so binds none of [decompress_stream] (line 110), [id_tmp]
    (line 144), [unicode2str] (lines 287-404) and [UnexpectedDataError]
    (line 417): each is modelled as the unbound name it is, raising
    [NameError] where it is looked up.  [check_value] and [decode_bytes] are
    methods of the object, defined by oletools' class and absent from the
    source file.  [parse_dir_stream] is lines 116-417 on a stream of
    decompressed bytes, the part the specification describes;
    [vba_project_init] is the constructor from its first line. *)

From Stdlib Require Import ZArith List String Ascii Bool Lia.
From Stdlib Require Import Init.Byte.
From stdpp Require Import base gmap list strings.
Import ListNotations.

(* ===================================================================== *)
(** ** Byte streams *)
(* ===================================================================== *)

Module Stream.

(** Python [bytes]. *)
Definition bytes := list byte.

Definition byte_to_Z (b : byte) : Z := Z.of_N (Byte.to_N b).

(** [io.BytesIO]: the buffer and the current position. *)
Record BytesIO := mkBytesIO { getvalue : bytes; tell : nat }.

(** Bytes between the position and the end of the buffer. *)
Definition remaining (s : BytesIO) : nat := length (getvalue s) - tell s.

(** [BytesIO.read(n)] for [n >= 0]: the next [n] bytes, or all that are left
    when fewer remain; the position moves past the bytes returned.  It never
    raises. *)
Definition read (n : nat) (s : BytesIO) : bytes * BytesIO :=
  let data := take n (drop (tell s) (getvalue s)) in
  (data, mkBytesIO (getvalue s) (tell s + length data)).

(** [struct.unpack("<H", data)[0]]: exactly two bytes, little endian;
    [None] stands for [struct.error]. *)
Definition unpack_H (data : bytes) : option Z :=
  match data with
  | [b0; b1] => Some (Z.lor (byte_to_Z b0) (Z.shiftl (byte_to_Z b1) 8))
  | _ => None
  end.

(** [struct.unpack("<L", data)[0]]: exactly four bytes, little endian. *)
Definition unpack_L (data : bytes) : option Z :=
  match data with
  | [b0; b1; b2; b3] =>
      Some (Z.lor (byte_to_Z b0)
           (Z.lor (Z.shiftl (byte_to_Z b1) 8)
           (Z.lor (Z.shiftl (byte_to_Z b2) 16)
                  (Z.shiftl (byte_to_Z b3) 24))))
  | _ => None
  end.

(** [a == b] on [bytes]. *)
Fixpoint bytes_eqb (a b : bytes) : bool :=
  match a, b with
  | [], [] => true
  | x :: a', y :: b' => Byte.eqb x y && bytes_eqb a' b'
  | _, _ => false
  end.

(** [struct.pack], used to write test streams down. *)
Definition byte_of_Z (z : Z) : byte :=
  match Byte.of_N (Z.to_N (Z.land z 255)) with
  | Some b => b
  | None => x00
  end.

Definition pack_H (z : Z) : bytes :=
  [byte_of_Z z; byte_of_Z (Z.shiftr z 8)].

Definition pack_L (z : Z) : bytes :=
  [byte_of_Z z; byte_of_Z (Z.shiftr z 8);
   byte_of_Z (Z.shiftr z 16); byte_of_Z (Z.shiftr z 24)].

End Stream.

(* ===================================================================== *)
(** ** The directory-stream parser *)
(* ===================================================================== *)

Module Olevba.
Import Stream.

(** Values that end up in attributes and log records.  [VDecoded codec raw]
    is [raw.decode(codec, errors='replace')]: the text is determined by the
    codec name and the bytes, and the parser never inspects it. *)
Inductive pyval :=
| VNone
| VBool (b : bool)
| VInt (z : Z)
| VStr (s : string)
| VBytes (raw : bytes)
| VDecoded (codec : string) (raw : bytes)
| VEmptyList
| VEmptyDict.

Inductive level := DEBUG | ERROR.

(** One call of [log.debug] / [log.error]: the format string of the source
    and the values formatted into it. *)
Record record := mkRecord { lvl : level; fmt : string; args : list pyval }.

(** Exceptions the function can raise.  [StructError need got] is
    [struct.error]: "unpack requires a buffer of [need] bytes". *)
Inductive exn :=
| StructError (need : nat) (got : nat)
| NameError (name : string)
| AttributeError (name : string)
| TypeError
| UnexpectedDataError (stream_path : string) (variable : string)
                      (expected : list Z) (value : Z).

(** The mutable world of one call: the project object ([self.relaxed],
    [self.dir_path], and the rest of [self.__dict__], latest binding first),
    the stream [dir_stream] and the records emitted on the module logger. *)
Record state := mkState {
  relaxed : bool;
  dir_path : string;
  attrs : list (string * pyval);
  dir_stream : BytesIO;
  log : list record
}.

Inductive result (A : Type) :=
| Ok (a : A) (s : state)
| Raise (e : exn) (s : state)
| OutOfFuel.
Arguments Ok {A} a s.
Arguments Raise {A} e s.
Arguments OutOfFuel {A}.

Definition M (A : Type) : Type := state -> result A.

Definition ret {A} (a : A) : M A := fun s => Ok a s.

Definition bind {A B} (m : M A) (k : A -> M B) : M B :=
  fun s => match m s with
           | Ok a s' => k a s'
           | Raise e s' => Raise e s'
           | OutOfFuel => OutOfFuel
           end.

Definition raise {A} (e : exn) : M A := fun s => Raise e s.

Declare Scope py_scope.
Delimit Scope py_scope with py.
Notation "'let*' x ':=' m 'in' k" := (bind m (fun x => k))
  (at level 10, x name, m at level 100, k at level 200) : py_scope.
Notation "m ';;' k" := (bind m (fun _ => k))
  (at level 100, k at level 200, right associativity) : py_scope.
Local Open Scope py_scope.
Local Open Scope string_scope.
Local Open Scope Z_scope.

(** *** Attribute access *)

Fixpoint assoc (name : string) (d : list (string * pyval)) : option pyval :=
  match d with
  | [] => None
  | (k, v) :: d' => if String.eqb k name then Some v else assoc name d'
  end.

(** [self.name = v]. *)
Definition setattr (name : string) (v : pyval) : M unit :=
  fun s => Ok tt (mkState (relaxed s) (dir_path s) ((name, v) :: attrs s)
                          (dir_stream s) (log s)).

(** [self.name]. *)
Definition getattr (name : string) : M pyval :=
  fun s => match assoc name (attrs s) with
           | Some v => Ok v s
           | None => Raise (AttributeError name) s
           end.

(** *** Logging *)

Definition emit (r : record) : M unit :=
  fun s => Ok tt (mkState (relaxed s) (dir_path s) (attrs s) (dir_stream s)
                          (log s ++ [r])).

Definition log_debug (f : string) (a : list pyval) : M unit :=
  emit (mkRecord DEBUG f a).

Definition log_error (f : string) (a : list pyval) : M unit :=
  emit (mkRecord ERROR f a).

Definition is_error (r : record) : bool :=
  match lvl r with ERROR => true | DEBUG => false end.

(** The diagnostics of a run: the records logged at error level. *)
Definition diagnostics (s : state) : list record :=
  List.filter is_error (log s).

(** *** Reading *)

(** [dir_stream.read(n)] with [n] an unpacked (non-negative) size. *)
Definition stream_read (n : Z) : M bytes :=
  fun s => let '(data, io) := read (Z.to_nat n) (dir_stream s) in
           Ok data (mkState (relaxed s) (dir_path s) (attrs s) io (log s)).

(** [struct.unpack("<H", data)[0]] and [struct.unpack("<L", data)[0]]. *)
Definition struct_H (data : bytes) : M Z :=
  match unpack_H data with
  | Some v => ret v
  | None => raise (StructError 2 (length data))
  end.

Definition struct_L (data : bytes) : M Z :=
  match unpack_L data with
  | Some v => ret v
  | None => raise (StructError 4 (length data))
  end.

(** [struct.unpack("<H", dir_stream.read(2))[0]] *)
Definition read_H : M Z := let* data := stream_read 2 in struct_H data.

(** [struct.unpack("<L", dir_stream.read(4))[0]] *)
Definition read_L : M Z := let* data := stream_read 4 in struct_L data.

(** *** Collaborators from oletools *)

(** [oletools.common.codepages]: the code-page tables. *)
Class Codepages := {
  get_codepage_name : Z -> string;
  codepage2codec : Z -> string
}.

(** Modelled from the spec: [VBA_Project.check_value] is oletools' and not in
    the source file.  Section 4.2: if the observed value equals the expected
    one, no effect; else in strict mode fail with the field name, the
    expected and the observed value, and in relaxed mode record a diagnostic
    with these three and continue. *)
Definition check_value (name : string) (expected value : Z) : M unit :=
  fun s =>
    if expected =? value then Ok tt s
    else if relaxed s
         then log_error "invalid value for {0} expected {1:04X} got {2:04X}"
                        [VStr name; VInt expected; VInt value] s
         else Raise (UnexpectedDataError (dir_path s) name [expected] value) s.

(** Modelled from the spec: [VBA_Project.decode_bytes] is oletools' and not
    in the source file.  Section 4.5: decode the bytes under the codec,
    replacing what is invalid instead of failing; the codec is the
    [codec] attribute of the object, which line 171 binds. *)
Definition decode_bytes (raw : bytes) : M pyval :=
  let* c := getattr "codec" in
  match c with
  | VStr codec => ret (VDecoded codec raw)
  | _ => raise TypeError
  end.

(** *** What the driver sees of a parser *)

(** What [extract_macros] reads of a [VBA_Parser]: when [ole_file] is set,
    the entries of [vba_projects] that [find_vba_projects] lists, each with
    its three paths and the bytes that [ole.openstream(dir_path).read()]
    returns; when it is [None], the parsers in [ole_subfiles]. *)
#[warnings="-register-all"]
Inductive VBA_Parser :=
| OleFile (vba_projects : list (string * string * string * bytes))
| SubFiles (ole_subfiles : list VBA_Parser).

(** How a run of a generator ends: its body returns, it raises, or (for a
    loop out of fuel) neither. *)
Inductive ending := Exhausted | Raised (e : exn) | Unfinished.

(** *** The header records, in source order *)

Section HeaderRecords.
Context {cp : Codepages}.

(** [SYSKIND_NAME.get(syskind)] *)
Definition SYSKIND_NAME (syskind : Z) : option string :=
  if syskind =? 0x00 then Some "16-bit Windows"
  else if syskind =? 0x01 then Some "32-bit Windows"
  else if syskind =? 0x02 then Some "Macintosh"
  else if syskind =? 0x03 then Some "64-bit Windows"
  else None.

(** PROJECTSYSKIND Record (source lines 116-132). *)
Definition projectsyskind_record : M unit :=
  let* projectsyskind_id := read_H in
  check_value "PROJECTSYSKIND_Id" 0x0001 projectsyskind_id ;;
  let* projectsyskind_size := read_L in
  check_value "PROJECTSYSKIND_Size" 0x0004 projectsyskind_size ;;
  let* syskind := read_L in
  setattr "syskind" (VInt syskind) ;;
  let syskind_name := default "Unknown" (SYSKIND_NAME syskind) in
  setattr "syskind_name" (VStr syskind_name) ;;
  log_debug "PROJECTSYSKIND_SysKind: %d - %s" [VInt syskind; VStr syskind_name] ;;
  match SYSKIND_NAME syskind with
  | Some _ => ret tt
  | None => log_error "invalid PROJECTSYSKIND_SysKind {0:04X}" [VInt syskind]
  end.

(** The "Temp Fix" (source lines 136-140): the tag after the platform record
    and, when it is 0x004A, the extra field; yields the local [id_temp]. *)
Definition compat_version_fix : M Z :=
  let* id_temp := read_H in
  if id_temp =? 0x004A then
    let* size_temp := read_L in
    let* data := stream_read size_temp in
    let* value_temp := struct_L data in
    let* id_temp := read_H in
    ret id_temp
  else ret id_temp.

(** PROJECTLCID Record, lines 145-150: the block once [projectlcid_id] is
    bound. *)
Definition projectlcid_fields (projectlcid_id : Z) : M unit :=
  check_value "PROJECTLCID_Id" 0x0002 projectlcid_id ;;
  let* projectlcid_size := read_L in
  check_value "PROJECTLCID_Size" 0x0004 projectlcid_size ;;
  let* lcid := read_L in
  setattr "lcid" (VInt lcid) ;;
  check_value "PROJECTLCID_Lcid" 0x409 lcid.

(** PROJECTLCID Record (source lines 144-150).  Line 144 reads the name
    [id_tmp]; the local bound by the lines above is [id_temp], and nothing
    in the function or the module binds [id_tmp]. *)
Definition projectlcid_record (id_temp : Z) : M unit :=
  let* projectlcid_id := raise (NameError "id_tmp") in
  projectlcid_fields projectlcid_id.

(** PROJECTLCIDINVOKE Record (source lines 154-160). *)
Definition projectlcidinvoke_record : M unit :=
  let* projectlcidinvoke_id := read_H in
  check_value "PROJECTLCIDINVOKE_Id" 0x0014 projectlcidinvoke_id ;;
  let* projectlcidinvoke_size := read_L in
  check_value "PROJECTLCIDINVOKE_Size" 0x0004 projectlcidinvoke_size ;;
  let* lcidinvoke := read_L in
  setattr "lcidinvoke" (VInt lcidinvoke) ;;
  check_value "PROJECTLCIDINVOKE_LcidInvoke" 0x409 lcidinvoke.

(** PROJECTCODEPAGE Record (source lines 164-172). *)
Definition projectcodepage_record : M unit :=
  let* projectcodepage_id := read_H in
  check_value "PROJECTCODEPAGE_Id" 0x0003 projectcodepage_id ;;
  let* projectcodepage_size := read_L in
  check_value "PROJECTCODEPAGE_Size" 0x0002 projectcodepage_size ;;
  let* codepage := read_H in
  setattr "codepage" (VInt codepage) ;;
  setattr "codepage_name" (VStr (get_codepage_name codepage)) ;;
  log_debug "Project Code Page: %r - %s"
            [VInt codepage; VStr (get_codepage_name codepage)] ;;
  setattr "codec" (VStr (codepage2codec codepage)) ;;
  log_debug "Python codec corresponding to code page %d: %s"
            [VInt codepage; VStr (codepage2codec codepage)].

(** PROJECTNAME Record (source lines 177-185).  The read and the decoding of
    the name are inside the [if], as in the source. *)
Definition projectname_record : M unit :=
  let* projectname_id := read_H in
  check_value "PROJECTNAME_Id" 0x0004 projectname_id ;;
  let* sizeof_projectname := read_L in
  log_debug "Project name size: %d bytes" [VInt sizeof_projectname] ;;
  if (sizeof_projectname <? 1) || (128 <? sizeof_projectname) then
    log_error "PROJECTNAME_SizeOfProjectName value not in range [1-128]: {0}"
              [VInt sizeof_projectname] ;;
    let* projectname_bytes := stream_read sizeof_projectname in
    let* projectname := decode_bytes projectname_bytes in
    setattr "projectname" projectname
  else ret tt.

(** PROJECTDOCSTRING Record (source lines 190-210). *)
Definition projectdocstring_record : M unit :=
  let* projectdocstring_id := read_H in
  check_value "PROJECTDOCSTRING_Id" 0x0005 projectdocstring_id ;;
  let* projectdocstring_sizeof_docstring := read_L in
  (if 2000 <? projectdocstring_sizeof_docstring then
     log_error "PROJECTDOCSTRING_SizeOfDocString value not in range: {0}"
               [VInt projectdocstring_sizeof_docstring]
   else ret tt) ;;
  let* docstring_bytes := stream_read projectdocstring_sizeof_docstring in
  let* docstring := decode_bytes docstring_bytes in
  setattr "docstring" docstring ;;
  let* projectdocstring_reserved := read_H in
  check_value "PROJECTDOCSTRING_Reserved" 0x0040 projectdocstring_reserved ;;
  let* projectdocstring_sizeof_docstring_unicode := read_L in
  (if negb (projectdocstring_sizeof_docstring_unicode mod 2 =? 0) then
     log_error "PROJECTDOCSTRING_SizeOfDocStringUnicode is not even" []
   else ret tt) ;;
  let* docstring_unicode_bytes :=
    stream_read projectdocstring_sizeof_docstring_unicode in
  setattr "docstring_unicode" (VDecoded "utf16" docstring_unicode_bytes).

(** PROJECTHELPFILEPATH Record (source lines 213-227). *)
Definition projecthelpfilepath_record : M unit :=
  let* projecthelpfilepath_id := read_H in
  check_value "PROJECTHELPFILEPATH_Id" 0x0006 projecthelpfilepath_id ;;
  let* projecthelpfilepath_sizeof_helpfile1 := read_L in
  (if 260 <? projecthelpfilepath_sizeof_helpfile1 then
     log_error "PROJECTHELPFILEPATH_SizeOfHelpFile1 value not in range: {0}"
               [VInt projecthelpfilepath_sizeof_helpfile1]
   else ret tt) ;;
  let* projecthelpfilepath_helpfile1 :=
    stream_read projecthelpfilepath_sizeof_helpfile1 in
  let* projecthelpfilepath_reserved := read_H in
  check_value "PROJECTHELPFILEPATH_Reserved" 0x003D projecthelpfilepath_reserved ;;
  let* projecthelpfilepath_sizeof_helpfile2 := read_L in
  (if negb (projecthelpfilepath_sizeof_helpfile2
            =? projecthelpfilepath_sizeof_helpfile1) then
     log_error "PROJECTHELPFILEPATH_SizeOfHelpFile1 does not equal PROJECTHELPFILEPATH_SizeOfHelpFile2" []
   else ret tt) ;;
  let* projecthelpfilepath_helpfile2 :=
    stream_read projecthelpfilepath_sizeof_helpfile2 in
  if negb (bytes_eqb projecthelpfilepath_helpfile2 projecthelpfilepath_helpfile1)
  then log_error "PROJECTHELPFILEPATH_HelpFile1 does not equal PROJECTHELPFILEPATH_HelpFile2" []
  else ret tt.

(** PROJECTHELPCONTEXT Record (source lines 230-235). *)
Definition projecthelpcontext_record : M unit :=
  let* projecthelpcontext_id := read_H in
  check_value "PROJECTHELPCONTEXT_Id" 0x0007 projecthelpcontext_id ;;
  let* projecthelpcontext_size := read_L in
  check_value "PROJECTHELPCONTEXT_Size" 0x0004 projecthelpcontext_size ;;
  let* projecthelpcontext_helpcontext := read_L in
  ret tt.

(** PROJECTLIBFLAGS Record (source lines 238-243). *)
Definition projectlibflags_record : M unit :=
  let* projectlibflags_id := read_H in
  check_value "PROJECTLIBFLAGS_Id" 0x0008 projectlibflags_id ;;
  let* projectlibflags_size := read_L in
  check_value "PROJECTLIBFLAGS_Size" 0x0004 projectlibflags_size ;;
  let* projectlibflags_projectlibflags := read_L in
  check_value "PROJECTLIBFLAGS_ProjectLibFlags" 0x0000
              projectlibflags_projectlibflags.

(** PROJECTVERSION Record (source lines 246-253). *)
Definition projectversion_record : M unit :=
  let* projectversion_id := read_H in
  check_value "PROJECTVERSION_Id" 0x0009 projectversion_id ;;
  let* projectversion_reserved := read_L in
  check_value "PROJECTVERSION_Reserved" 0x0004 projectversion_reserved ;;
  let* projectversion_versionmajor := read_L in
  let* projectversion_versionminor := read_H in
  ret tt.

(** PROJECTCONSTANTS Record (source lines 256-270). *)
Definition projectconstants_record : M unit :=
  let* projectconstants_id := read_H in
  check_value "PROJECTCONSTANTS_Id" 0x000C projectconstants_id ;;
  let* projectconstants_sizeof_constants := read_L in
  (if 1015 <? projectconstants_sizeof_constants then
     log_error "PROJECTCONSTANTS_SizeOfConstants value not in range: {0}"
               [VInt projectconstants_sizeof_constants]
   else ret tt) ;;
  let* projectconstants_constants :=
    stream_read projectconstants_sizeof_constants in
  let* projectconstants_reserved := read_H in
  check_value "PROJECTCONSTANTS_Reserved" 0x003C projectconstants_reserved ;;
  let* projectconstants_sizeof_constants_unicode := read_L in
  (if negb (projectconstants_sizeof_constants_unicode mod 2 =? 0) then
     log_error "PROJECTCONSTANTS_SizeOfConstantsUnicode is not even" []
   else ret tt) ;;
  let* projectconstants_constants_unicode :=
    stream_read projectconstants_sizeof_constants_unicode in
  ret tt.

(** *** The array of REFERENCE records (source lines 274-417) *)

(** [log.debug(fmt % unicode2str(self.decode_bytes(raw)))] (lines 287, 318,
    330, 345, 384, 401 and 404).  The module binds no [unicode2str], and the
    name is looked up before its argument is evaluated: the statement
    raises [NameError], decodes nothing and logs nothing. *)
Definition debug_decoded (f : string) (raw : bytes) : M unit :=
  raise (NameError "unicode2str").

(** How one pass through the body of [while True] ends. *)
Inductive ctl := Break | Continue.

(** REFERENCENAME (lines 281-309).  [None]: the unicode name was read and
    the pass ends with [continue]; [Some check]: [check] was rebound to the
    trailing field and control falls through to the tests below. *)
Definition referencename_record : M (option Z) :=
  let* reference_sizeof_name := read_L in
  let* reference_name := stream_read reference_sizeof_name in
  debug_decoded "REFERENCE name: %s" reference_name ;;
  let* reference_reserved := read_H in
  if reference_reserved =? 0x003E then
    let* reference_sizeof_name_unicode := read_L in
    let* reference_name_unicode := stream_read reference_sizeof_name_unicode in
    ret None
  else
    log_debug "reference type = {0:04X}" [VInt reference_reserved] ;;
    ret (Some reference_reserved).

(** REFERENCEORIGINAL (lines 311-321). *)
Definition referenceoriginal_record : M unit :=
  let* referenceoriginal_sizeof_libidoriginal := read_L in
  let* referenceoriginal_libidoriginal :=
    stream_read referenceoriginal_sizeof_libidoriginal in
  debug_decoded "REFERENCE original lib id: %s" referenceoriginal_libidoriginal.

(** REFERENCECONTROL (lines 323-375). *)
Definition referencecontrol_record : M unit :=
  let* referencecontrol_sizetwiddled := read_L in
  let* referencecontrol_sizeof_libidtwiddled := read_L in
  let* referencecontrol_libidtwiddled :=
    stream_read referencecontrol_sizeof_libidtwiddled in
  debug_decoded "REFERENCE control twiddled lib id: %s"
                referencecontrol_libidtwiddled ;;
  let* referencecontrol_reserved1 := read_L in
  check_value "REFERENCECONTROL_Reserved1" 0x0000 referencecontrol_reserved1 ;;
  let* referencecontrol_reserved2 := read_H in
  check_value "REFERENCECONTROL_Reserved2" 0x0000 referencecontrol_reserved2 ;;
  let* check2 := read_H in
  let* referencecontrol_reserved3 :=
    (if check2 =? 0x0016 then
       let* referencecontrol_namerecordextended_sizeof_name := read_L in
       let* referencecontrol_namerecordextended_name :=
         stream_read referencecontrol_namerecordextended_sizeof_name in
       debug_decoded "REFERENCE control name record extended: %s"
                     referencecontrol_namerecordextended_name ;;
       let* referencecontrol_namerecordextended_reserved := read_H in
       if referencecontrol_namerecordextended_reserved =? 0x003E then
         let* referencecontrol_namerecordextended_sizeof_name_unicode := read_L in
         let* referencecontrol_namerecordextended_name_unicode :=
           stream_read referencecontrol_namerecordextended_sizeof_name_unicode in
         read_H
       else ret referencecontrol_namerecordextended_reserved
     else ret check2) in
  check_value "REFERENCECONTROL_Reserved3" 0x0030 referencecontrol_reserved3 ;;
  let* referencecontrol_sizeextended := read_L in
  let* referencecontrol_sizeof_libidextended := read_L in
  let* referencecontrol_libidextended :=
    stream_read referencecontrol_sizeof_libidextended in
  let* referencecontrol_reserved4 := read_L in
  let* referencecontrol_reserved5 := read_H in
  let* referencecontrol_originaltypelib := stream_read 16 in
  let* referencecontrol_cookie := read_L in
  ret tt.

(** REFERENCEREGISTERED (lines 377-392). *)
Definition referenceregistered_record : M unit :=
  let* referenceregistered_size := read_L in
  let* referenceregistered_sizeof_libid := read_L in
  let* referenceregistered_libid := stream_read referenceregistered_sizeof_libid in
  debug_decoded "REFERENCE registered lib id: %s" referenceregistered_libid ;;
  let* referenceregistered_reserved1 := read_L in
  check_value "REFERENCEREGISTERED_Reserved1" 0x0000 referenceregistered_reserved1 ;;
  let* referenceregistered_reserved2 := read_H in
  check_value "REFERENCEREGISTERED_Reserved2" 0x0000 referenceregistered_reserved2.

(** REFERENCEPROJECT (lines 394-413). *)
Definition referenceproject_record : M unit :=
  let* referenceproject_size := read_L in
  let* referenceproject_sizeof_libidabsolute := read_L in
  let* referenceproject_libidabsolute :=
    stream_read referenceproject_sizeof_libidabsolute in
  debug_decoded "REFERENCE project lib id absolute: %s"
                referenceproject_libidabsolute ;;
  let* referenceproject_sizeof_libidrelative := read_L in
  let* referenceproject_libidrelative :=
    stream_read referenceproject_sizeof_libidrelative in
  debug_decoded "REFERENCE project lib id relative: %s"
                referenceproject_libidrelative ;;
  let* referenceproject_majorversion := read_L in
  let* referenceproject_minorversion := read_H in
  ret tt.

(** The tuple of expected tags written in line 417. *)
Definition reference_types : list Z := [0x0F; 0x16; 0x33; 0x2F; 0x0D; 0x0E].

(** Lines 311-417: the tests that follow the REFERENCENAME block, entered
    with the current value of [check].  Line 417 is
    [raise UnexpectedDataError(dir_path, 'reference type', (...), check)]:
    the module binds no [UnexpectedDataError], so what is raised is
    [NameError], which carries neither the tag nor the path. *)
Definition reference_dispatch (check : Z) : M ctl :=
  if check =? 0x0033 then referenceoriginal_record ;; ret Continue
  else if check =? 0x002F then referencecontrol_record ;; ret Continue
  else if check =? 0x000D then referenceregistered_record ;; ret Continue
  else if check =? 0x000E then referenceproject_record ;; ret Continue
  else
    log_error "invalid or unknown check Id {0:04X}" [VInt check] ;;
    raise (NameError "UnexpectedDataError").

(** One pass through the body of the loop (lines 276-417). *)
Definition reference_pass : M ctl :=
  let* check := read_H in
  log_debug "reference type = {0:04X}" [VInt check] ;;
  if check =? 0x000F then ret Break
  else if check =? 0x0016 then
    let* next := referencename_record in
    match next with
    | None => ret Continue
    | Some check => reference_dispatch check
    end
  else reference_dispatch check.

(** [while True]: every pass that does not leave the loop has read a tag, so
    the number of passes is bounded by the bytes that remain. *)
Fixpoint reference_loop (fuel : nat) : M unit :=
  match fuel with
  | O => fun _ => OutOfFuel
  | S fuel' =>
      let* c := reference_pass in
      match c with
      | Break => ret tt
      | Continue => reference_loop fuel'
      end
  end.

Definition reference_array : M unit :=
  fun s => reference_loop (S (remaining (dir_stream s))) s.

(** *** [vba_project_init] *)

(** Lines 152-417. *)
Definition records_after_lcid : M unit :=
  projectlcidinvoke_record ;;
  projectcodepage_record ;;
  projectname_record ;;
  projectdocstring_record ;;
  projecthelpfilepath_record ;;
  projecthelpcontext_record ;;
  projectlibflags_record ;;
  projectversion_record ;;
  projectconstants_record ;;
  reference_array.

(** Lines 116-417, on a stream of decompressed bytes. *)
Definition parse_dir_stream : M unit :=
  projectsyskind_record ;;
  let* id_temp := compat_version_fix in
  projectlcid_record id_temp ;;
  records_after_lcid.

(** The project object and the stream at line 114 for decompressed bytes
    [data]: the attributes of lines 97-105 are bound ([self.ole], the
    container the bytes came from, is left out), [dir_stream] holds [data]
    at position 0, and line 106 has logged. *)
Definition entry (vba_root project_path dirpath : string) (is_relaxed : bool)
    (data : bytes) (log0 : list record) : state :=
  mkState is_relaxed dirpath
          [("module_ext", VEmptyDict); ("modules", VEmptyList);
           ("project_path", VStr project_path); ("vba_root", VStr vba_root)]
          (mkBytesIO data 0)
          (log0 ++ [mkRecord DEBUG "Parsing the dir stream from %r" [VStr dirpath]])%list.

(** The object after lines 97-105, before a stream is bound: the stream
    field holds no bytes until line 112. *)
Definition fresh_object (vba_root project_path dirpath : string)
    (is_relaxed : bool) (log0 : list record) : state :=
  mkState is_relaxed dirpath
          [("module_ext", VEmptyDict); ("modules", VEmptyList);
           ("project_path", VStr project_path); ("vba_root", VStr vba_root)]
          (mkBytesIO [] 0) log0.

(** Line 110, [decompress_stream(bytearray(dir_compressed))]: the module
    binds no [decompress_stream]. *)
Definition decompress (dir_compressed : bytes) : M bytes :=
  raise (NameError "decompress_stream").

(** Lines 110-112: [dir_stream = BytesIO(...)], [self.dir_stream = dir_stream]. *)
Definition bind_dir_stream (data : bytes) : M unit :=
  fun s => Ok tt (mkState (relaxed s) (dir_path s) (attrs s)
                          (mkBytesIO data 0) (log s)).

(** [VBA_Project(ole, vba_root, project_path, dir_path, relaxed)] with
    [VBA_Project.__init__ = vba_project_init] (lines 89-417), for an [ole]
    whose stream [dir_path] holds [dir_compressed] (line 108). *)
Definition vba_project_init (vba_root project_path dirpath : string)
    (is_relaxed : bool) (dir_compressed : bytes) (log0 : list record)
  : result unit :=
  (log_debug "Parsing the dir stream from %r" [VStr dirpath] ;;
   let* data := decompress dir_compressed in
   bind_dir_stream data ;;
   parse_dir_stream)
    (fresh_object vba_root project_path dirpath is_relaxed log0).

(** Line 431 of [extract_macros]: [project.codec = vba_encoding], executed
    on the object the constructor returned, before [parse_project_stream]
    and [parse_modules] (oletools') decode through [decode_bytes]. *)
Definition set_project_codec (vba_encoding : string) : M unit :=
  setattr "codec" (VStr vba_encoding).

(** Lines 430-431 of [extract_macros] for one entry of
    [parser.vba_projects]; the loop always passes [relaxed=True]. *)
Definition extract_macros_project (vba_root project_path dirpath : string)
    (dir_compressed : bytes) (vba_encoding : string) (log0 : list record)
  : result unit :=
  match vba_project_init vba_root project_path dirpath true dir_compressed log0
  with
  | Ok _ s => set_project_codec vba_encoding s
  | Raise e s => Raise e s
  | OutOfFuel => OutOfFuel
  end.

(** *** [extract_macros] *)

(** [project.parse_project_stream()] and [project.parse_modules()] are
    oletools': given the project object they either raise or produce the
    [(vba_filename, code_data)] pairs that line 435 yields. *)
Variable parse_modules : state -> exn + list (string * string).

(** Lines 430-435 for one entry of [parser.vba_projects]: what is yielded,
    how the step ends and the log after it. *)
Definition extract_project (vba_encoding : string)
    (project : string * string * string * bytes) (log0 : list record)
  : list (string * string) * ending * list record :=
  let '(vba_root, project_path, dirpath, dir_compressed) := project in
  match extract_macros_project vba_root project_path dirpath dir_compressed
                               vba_encoding log0 with
  | Ok _ s =>
      match parse_modules s with
      | inr modules => (modules, Exhausted, log s)
      | inl e => ([], Raised e, log s)
      end
  | Raise e s => ([], Raised e, log s)
  | OutOfFuel => ([], Unfinished, log0)
  end.

(** The loop of line 429. *)
Fixpoint extract_projects (vba_encoding : string)
    (vba_projects : list (string * string * string * bytes))
    (log0 : list record) : list (string * string) * ending * list record :=
  match vba_projects with
  | [] => ([], Exhausted, log0)
  | project :: rest =>
      match extract_project vba_encoding project log0 with
      | (modules, Exhausted, log1) =>
          let '(modules', e, log2) := extract_projects vba_encoding rest log1 in
          ((modules ++ modules')%list, e, log2)
      | stopped => stopped
      end
  end.

(** [extract_macros] (lines 420-435) as the sequence it yields and the way
    the generator ends. *)
Fixpoint extract_macros (parser : VBA_Parser) (vba_encoding : string)
    (log0 : list record) : list (string * string) * ending * list record :=
  match parser with
  | OleFile vba_projects => extract_projects vba_encoding vba_projects log0
  | SubFiles ole_subfiles =>
      (fix subfiles (l : list VBA_Parser) (log0 : list record) :=
         match l with
         | [] => ([], Exhausted, log0)
         | subfile :: rest =>
             match extract_macros subfile vba_encoding log0 with
             | (results, Exhausted, log1) =>
                 let '(results', e, log2) := subfiles rest log1 in
                 ((results ++ results')%list, e, log2)
             | stopped => stopped
             end
         end) ole_subfiles log0
  end.

End HeaderRecords.

(** The number of VBA projects below a parser. *)
Fixpoint count_projects (parser : VBA_Parser) : nat :=
  match parser with
  | OleFile vba_projects => length vba_projects
  | SubFiles ole_subfiles =>
      (fix total (l : list VBA_Parser) : nat :=
         match l with
         | [] => O
         | subfile :: rest => (count_projects subfile + total rest)%nat
         end) ole_subfiles
  end.

(** *** Reading the stream without moving the cursor *)

Definition pos (s : state) : nat := tell (dir_stream s).
Definition buf (s : state) : bytes := getvalue (dir_stream s).

(** The bytes from [off] bytes past the cursor on. *)
Definition ahead (off : nat) (s : state) : bytes := drop (pos s + off) (buf s).

(** The 2-byte / 4-byte little-endian field [off] bytes past the cursor. *)
Definition peek_H (off : nat) (s : state) : option Z :=
  unpack_H (take 2 (ahead off s)).
Definition peek_L (off : nat) (s : state) : option Z :=
  unpack_L (take 4 (ahead off s)).

(** The state with the cursor moved [n] bytes on. *)
Definition advance (n : nat) (s : state) : state :=
  mkState (relaxed s) (dir_path s) (attrs s)
          (mkBytesIO (buf s) (pos s + n)) (log s).

(** The state with more records on the log. *)
Definition logged (rs : list record) (s : state) : state :=
  mkState (relaxed s) (dir_path s) (attrs s) (dir_stream s) (log s ++ rs).

(** The state after [self.name = v]. *)
Definition bound (name : string) (v : pyval) (s : state) : state :=
  mkState (relaxed s) (dir_path s) ((name, v) :: attrs s) (dir_stream s) (log s).

(** The state of a project object created with [relaxed=b]. *)
Definition with_relaxed (b : bool) (s : state) : state :=
  mkState b (dir_path s) (attrs s) (dir_stream s) (log s).

(** A computation is [forward] when it terminates, leaves the buffer as it
    is and never moves the cursor back. *)
Definition forward {A} (m : M A) : Prop :=
  forall s, match m s with
            | Ok _ s' => buf s' = buf s /\ (pos s <= pos s')%nat
            | Raise _ _ => True
            | OutOfFuel => False
            end.

(** *** Invariants of a computation *)

(** [m] ends; the state it ends in, normally or not, is related by [R] to
    the one it started in, and an exception it raises satisfies [P]. *)
Definition respects {A} (R : state -> state -> Prop) (P : state -> exn -> Prop)
    (m : M A) : Prop :=
  forall s, match m s with
            | Ok _ s' => R s s'
            | Raise e s' => R s s' /\ P s e
            | OutOfFuel => False
            end.

(** The stream is the same buffer with the cursor no further back and, if
    it was inside the buffer, still inside; the mode and the path of the
    object are unchanged. *)
Definition cursor_step (s s' : state) : Prop :=
  buf s' = buf s /\ relaxed s' = relaxed s /\ dir_path s' = dir_path s /\
  (pos s <= pos s')%nat /\
  (pos s <= length (buf s) -> pos s' <= length (buf s))%nat.

Definition any_exn (s : state) (e : exn) : Prop := True.

(** When [m] returns, it has moved the cursor [n] bytes on in the same
    buffer. *)
Definition consumes {A} (n : nat) (m : M A) : Prop :=
  forall s a s', m s = Ok a s' -> buf s' = buf s /\ pos s' = (pos s + n)%nat.

(** In relaxed mode [m] returns whenever [n] bytes are ahead of the cursor,
    and has then moved the cursor by [n]. *)
Definition reads_through {A} (n : nat) (m : M A) : Prop :=
  forall s, relaxed s = true -> (pos s + n <= length (buf s))%nat ->
    exists a s', m s = Ok a s' /\ relaxed s' = true /\
                 buf s' = buf s /\ pos s' = (pos s + n)%nat.

(** Whether a stream of decompressed bytes is long enough for the reads of
    lines 118-140: the ten bytes of the platform record and the 2-byte tag
    after them and, when that tag is 0x004A, a declared size of 4 (the
    payload is unpacked as one 4-byte integer), the four bytes and the tag
    that follows, 22 bytes in all. *)
Definition reaches_line_144 (data : bytes) : bool :=
  match unpack_H (take 2 (drop 10 data)) with
  | Some id_temp =>
      if id_temp =? 0x004A then
        match unpack_L (take 4 (drop 12 data)) with
        | Some size_temp => (size_temp =? 4) && (22 <=? length data)%nat
        | None => false
        end
      else true
  | None => false
  end.

(** The code page and the codec of the object are as they were. *)
Definition same_codec (s s' : state) : Prop :=
  assoc "codec" (attrs s') = assoc "codec" (attrs s) /\
  assoc "codepage" (attrs s') = assoc "codepage" (attrs s).

(** The mode of the object is unchanged. *)
Definition same_mode (s s' : state) : Prop := relaxed s' = relaxed s.

(** In relaxed mode: [struct.error]. *)
Definition truncated (s : state) (e : exn) : Prop :=
  relaxed s = true -> exists need got, e = StructError need got.

(** *** Streams and tables for the worked examples *)

(** A directory stream that follows the grammar record by record: platform
    32-bit Windows, both locale ids 0x409, the given code page and library
    flags, empty name, doc strings, help paths and constants, and then
    [references]. *)
Definition dir_stream_bytes (codepage libflags : Z) (references : bytes) : bytes :=
  (pack_H 0x0001 ++ pack_L 4 ++ pack_L 1 ++
  pack_H 0x0002 ++ pack_L 4 ++ pack_L 0x409 ++
  pack_H 0x0014 ++ pack_L 4 ++ pack_L 0x409 ++
  pack_H 0x0003 ++ pack_L 2 ++ pack_H codepage ++
  pack_H 0x0004 ++ pack_L 0 ++
  pack_H 0x0005 ++ pack_L 0 ++ pack_H 0x0040 ++ pack_L 0 ++
  pack_H 0x0006 ++ pack_L 0 ++ pack_H 0x003D ++ pack_L 0 ++
  pack_H 0x0007 ++ pack_L 4 ++ pack_L 0 ++
  pack_H 0x0008 ++ pack_L 4 ++ pack_L libflags ++
  pack_H 0x0009 ++ pack_L 4 ++ pack_L 1 ++ pack_H 0 ++
  pack_H 0x000C ++ pack_L 0 ++ pack_H 0x003C ++ pack_L 0 ++
  references)%list.

(** A few rows of the code-page tables, enough to run the examples. *)
Definition sample_codepages : Codepages := {|
  get_codepage_name cp :=
    if cp =? 1252 then "ANSI Latin 1; Western European (Windows)"
    else if cp =? 932 then "ANSI/OEM Japanese; Japanese (Shift-JIS)"
    else "Unknown code page";
  codepage2codec cp :=
    if cp =? 1252 then "cp1252"
    else if cp =? 932 then "cp932"
    else "utf8"
|}.

(** A project object in the middle of a parse: codec bound, cursor at [at_]
    in [data]. *)
Definition mid_parse (is_relaxed : bool) (codec : string) (data : bytes)
    (at_ : nat) : state :=
  mkState is_relaxed "VBA/dir" [("codec", VStr codec)] (mkBytesIO data at_) [].

(** REFERENCENAME "VBA" without the unicode part, then the terminator. *)
Definition name_then_terminator : bytes :=
  (pack_H 0x0016 ++ pack_L 3 ++ [x56; x42; x41] ++ pack_H 0x000F)%list.

(** REFERENCEORIGINAL declaring 5 bytes of library id, 2 of them present. *)
Definition original_cut_short : bytes :=
  (pack_H 0x0033 ++ pack_L 5 ++ [x41; x42])%list.

(** The extra field 0x004A with a 4-byte payload, then the PROJECTLCID tag. *)
Definition compat_field_of_4 : bytes :=
  (pack_H 0x004A ++ pack_L 4 ++ pack_L 2 ++ pack_H 0x0002)%list.

(** The extra field 0x004A declaring a 2-byte payload, then PROJECTLCID. *)
Definition compat_field_of_2 : bytes :=
  (pack_H 0x004A ++ pack_L 2 ++ [x41; x42] ++
   pack_H 0x0002 ++ pack_L 4 ++ pack_L 0x409)%list.

(** PROJECTNAME "A", then an empty PROJECTDOCSTRING. *)
Definition name_A_then_docstring : bytes :=
  (pack_H 0x0004 ++ pack_L 1 ++ [x41] ++
   pack_H 0x0005 ++ pack_L 0 ++ pack_H 0x0040 ++ pack_L 0)%list.

(** A reference array with one record of each kind: REFERENCENAME "VBA" with
    its unicode form (offset 0), REFERENCEORIGINAL "AB" (21),
    REFERENCECONTROL with one-byte library ids and no name of its own (29),
    REFERENCEREGISTERED "R" (83), REFERENCEPROJECT "P", "Q" (100), and the
    terminator (122). *)
Definition sample_references : bytes :=
  (pack_H 0x0016 ++ pack_L 3 ++ [x56; x42; x41] ++
     pack_H 0x003E ++ pack_L 6 ++ [x56; x00; x42; x00; x41; x00] ++
   pack_H 0x0033 ++ pack_L 2 ++ [x41; x42] ++
   pack_H 0x002F ++ pack_L 0 ++ pack_L 1 ++ [x54] ++ pack_L 0 ++ pack_H 0 ++
     pack_H 0x0030 ++ pack_L 0 ++ pack_L 1 ++ [x45] ++ pack_L 0 ++ pack_H 0 ++
     [x00; x00; x00; x00; x00; x00; x00; x00;
      x00; x00; x00; x00; x00; x00; x00; x00] ++ pack_L 7 ++
   pack_H 0x000D ++ pack_L 0 ++ pack_L 1 ++ [x52] ++ pack_L 0 ++ pack_H 0 ++
   pack_H 0x000E ++ pack_L 0 ++ pack_L 1 ++ [x50] ++ pack_L 1 ++ [x51] ++
     pack_L 1 ++ pack_H 0 ++
   pack_H 0x000F)%list.

(** PROJECTDOCSTRING "Hi" with a 3-byte unicode part, PROJECTHELPFILEPATH
    "h" / "H" (offset 17), PROJECTCONSTANTS "c" with an empty unicode part
    (31), and PROJECTLCIDINVOKE declaring 8 bytes (44). *)
Definition sample_header_records : bytes :=
  (pack_H 0x0005 ++ pack_L 2 ++ [x48; x69] ++ pack_H 0x0040 ++
     pack_L 3 ++ [x48; x00; x69] ++
   pack_H 0x0006 ++ pack_L 1 ++ [x68] ++ pack_H 0x003D ++ pack_L 1 ++ [x48] ++
   pack_H 0x000C ++ pack_L 1 ++ [x63] ++ pack_H 0x003C ++ pack_L 0 ++
   pack_H 0x0014 ++ pack_L 8 ++ pack_L 0x409)%list.

End Olevba.

(* ===================================================================== *)
(** ** The driver: source paths, output paths and the file system *)
(* ===================================================================== *)

Module Driver.
Local Open Scope string_scope.
Local Open Scope list_scope.

(** *** Strings *)

(** [c.lower()] on one character. *)
Definition lower_ascii (c : ascii) : ascii :=
  let n := nat_of_ascii c in
  if (65 <=? n)%nat && (n <=? 90)%nat then ascii_of_nat (n + 32) else c.

(** [s.lower()] *)
Fixpoint lower (s : string) : string :=
  match s with
  | EmptyString => EmptyString
  | String c s' => String (lower_ascii c) (lower s')
  end.

(** [s.rfind('.')], [None] for -1; [i] is the index of the head of [s]. *)
Fixpoint rfind_dot_from (i : nat) (s : string) : option nat :=
  match s with
  | EmptyString => None
  | String c s' =>
      match rfind_dot_from (S i) s' with
      | Some j => Some j
      | None => if Ascii.eqb c "." then Some i else None
      end
  end.

Definition rfind_dot (s : string) : option nat := rfind_dot_from 0 s.

(** [PurePath.suffix] of a path whose final component is [name], as
    pathlib computes it: [name[i:]] if [0 < i < len(name) - 1] for
    [i = name.rfind('.')], else the empty string. *)
Definition suffix (name : string) : string :=
  match rfind_dot name with
  | Some i =>
      if (0 <? i)%nat && (i + 1 <? String.length name)%nat
      then substring i (String.length name - i) name
      else ""
  | None => ""
  end.

(** [PurePath.stem]: [name[:i]] under the same test, else [name]. *)
Definition stem (name : string) : string :=
  match rfind_dot name with
  | Some i =>
      if (0 <? i)%nat && (i + 1 <? String.length name)%nat
      then substring 0 i name
      else name
  | None => name
  end.

(** [filename.split('.')[-1]] *)
Definition last_dot_part (filename : string) : string :=
  match rfind_dot filename with
  | Some i => substring (S i) (String.length filename - S i) filename
  | None => filename
  end.

(** *** Paths and the file system *)

(** An absolute path: the names of its components below the root
    directory, each the name of one directory entry. *)
Abbreviation Path := (list string).

(** [Path(src)] for a command-line argument: relative to the working
    directory or not. *)
Record PurePath := mkPath { is_absolute : bool; parts : list string }.

(** [p.absolute()] *)
Definition absolute (cwd : Path) (p : PurePath) : Path :=
  if is_absolute p then parts p else cwd ++ parts p.

(** [p.name]: the final component. *)
Definition name (p : Path) : string := List.last p "".

Inductive node := Dir | File (text : string).

(** The root directory is always there. *)
Definition stat (fs : gmap (list string) node) (p : Path) : option node :=
  match p with
  | [] => Some Dir
  | _ => fs !! p
  end.

Definition is_dir (fs : gmap (list string) node) (p : Path) : bool :=
  match stat fs p with Some Dir => true | _ => false end.

Definition exists_ (fs : gmap (list string) node) (p : Path) : bool :=
  match stat fs p with Some _ => true | None => false end.

(** [p.glob("**/*")] when [recursive], else [p.glob("*")]: everything below
    [p], resp. the entries of [p]. *)
Definition glob (fs : gmap (list string) node) (p : Path) (recursive : bool)
  : list Path :=
  List.filter
    (fun q => bool_decide (p `prefix_of` q) &&
              (if recursive then (length p <? length q)%nat
               else (length q =? S (length p))%nat))
    (map fst (map_to_list fs)).

(** [OSError]: the subclasses the file operations of the driver raise, and
    [OtherOSError] for an [OSError] that is none of them. *)
Inductive OSError :=
| FileExistsError
| FileNotFoundError
| NotADirectoryError
| IsADirectoryError
| OtherOSError.

(** *** [get_source_paths] *)

Definition OFFICE_FILE_EXTENSIONS : list string :=
  [".xlsb"; ".xls"; ".xlsm"; ".xla"; ".xlt"; ".xlam"; ".pptm"].

(** The test of line 37. *)
Definition accepted (f : Path) : bool :=
  negb (String.prefix "~$" (name f)) &&
  existsb (String.eqb (lower (suffix (name f)))) OFFICE_FILE_EXTENSIONS.

(** The paths the generator yields, in order (lines 31-40). *)
Definition get_source_paths (fs : gmap (list string) node) (cwd : Path)
    (sources : list PurePath) (recursive : bool) : list Path :=
  flat_map
    (fun src =>
       let p := absolute cwd src in
       if is_dir fs p
       then List.filter accepted (glob fs p recursive)
       else [p])
    sources.

(** *** Directories *)

(** The ancestors of [p] below the root, nearest to the root first, and [p]. *)
Fixpoint paths_down (from_ : Path) (p : Path) : list Path :=
  match p with
  | [] => []
  | x :: p' => (from_ ++ [x]) :: paths_down (from_ ++ [x]) p'
  end.

Definition ancestors_and_self (p : Path) : list Path := paths_down [] p.

(** [os.mkdir] along [ps], skipping directories that are there. *)
Fixpoint mkdirs (ps : list Path) (fs : gmap (list string) node)
  : OSError + gmap (list string) node :=
  match ps with
  | [] => inr fs
  | p :: ps' =>
      match fs !! p with
      | None => mkdirs ps' (<[p := Dir]> fs)
      | Some Dir => mkdirs ps' fs
      | Some (File _) =>
          inl (match ps' with [] => FileExistsError | _ => NotADirectoryError end)
      end
  end.

(** [p.mkdir(parents=True, exist_ok=True)] *)
Definition mkdir_parents_exist_ok (p : Path) (fs : gmap (list string) node)
  : OSError + gmap (list string) node :=
  mkdirs (ancestors_and_self p) fs.

(** [shutil.rmtree(p)]: [p] and everything below it.  The root directory
    itself cannot be removed: the call fails on it. *)
Definition rmtree (p : Path) (fs : gmap (list string) node)
  : OSError + gmap (list string) node :=
  match p with
  | [] => inl OtherOSError
  | _ =>
      match stat fs p with
      | Some Dir => inr (filter (fun kv => ~ p `prefix_of` kv.1) fs)
      | Some (File _) => inl NotADirectoryError
      | None => inl FileNotFoundError
      end
  end.

(** [p.write_text(text)] *)
Definition write_text (p : Path) (text : string) (fs : gmap (list string) node)
  : OSError + gmap (list string) node :=
  match stat fs (removelast p) with
  | Some Dir =>
      match stat fs p with
      | Some Dir => inl IsADirectoryError
      | _ => inr (<[p := File text]> fs)
      end
  | Some (File _) => inl NotADirectoryError
  | None => inl FileNotFoundError
  end.

(** *** [get_outputpath] and the body of the loop of [main] *)

(** The directory a module goes to (lines 44-50). *)
Definition kind_of (filename : string) : string :=
  let extension := last_dot_part filename in
  if String.eqb extension "cls" then "class"
  else if String.eqb extension "frm" then "form"
  else "module".

(** [get_outputpath] (lines 43-54): the path of the output file, and the
    file system after the sub directory was made.  The file name and its
    extension are appended as one component, which is what [joinpath] does
    for a name that is a [component] (below); the statements about the
    returned path assume that of the name. *)
Definition get_outputpath (parent_dir : Path) (filename : string)
    (use_orig_extension : bool) (fs : gmap (list string) node)
  : OSError + (Path * gmap (list string) node) :=
  let subdir := parent_dir ++ [kind_of filename] in
  let out :=
    subdir ++ [(filename ++ (if use_orig_extension then "" else ".vb"))%string] in
  if exists_ fs subdir then inr (out, fs)
  else match mkdir_parents_exist_ok subdir fs with
       | inl e => inl e
       | inr fs' => inr (out, fs')
       end.

(** [p.joinpath(s)] for [s] the stem of a file name (so without ["/"]):
    pathlib drops an empty and a ["."] component, and keeps [".."] as it
    is. *)
Definition joinpath (p : Path) (s : string) : Path :=
  if String.eqb s "" || String.eqb s "." then p else p ++ [s].

(** [dest] of lines 449-451, [root.joinpath(src.stem)]; [root] is the
    output root of lines 441-445.  For a workbook named ["..xls"] the stem
    is ["."] and [dest] is the root itself; for ["...xls"] the stem is
    [".."] and [dest] is [root/..], which names the parent of the root. *)
Definition dest_of (root source : Path) : Path :=
  joinpath root (stem (name source)).

(** Lines 452-453: [dest.mkdir(parents=True, exist_ok=True)], then
    [rmtree(dest.absolute())].

    When the stem is [".."], [dest] is [root/..].  [os.mkdir] of it fails:
    with [NotADirectoryError] if a regular file is where the root or one of
    its ancestors has to be, which [mkdir] raises again, the path not being
    a directory; with [FileNotFoundError] if the root is missing, upon
    which [mkdir] makes the root and its ancestors and tries again; and
    else with [FileExistsError], which [mkdir] passes over, the path being
    a directory.  [rmtree] then removes what the parent of the root holds,
    the root with it, and fails in the [os.rmdir] that ends it, whose path
    [root/..] is no longer there ([FileNotFoundError]), or is the root
    directory. *)
Definition prepare_dest (root source : Path) (fs : gmap (list string) node)
  : OSError + gmap (list string) node :=
  if String.eqb (stem (name source)) ".." then
    match mkdir_parents_exist_ok root fs with
    | inl _ => inl NotADirectoryError
    | inr _ => inl (match root with [] => OtherOSError | _ => FileNotFoundError end)
    end
  else
    match mkdir_parents_exist_ok (dest_of root source) fs with
    | inl e => inl e
    | inr fs' => rmtree (dest_of root source) fs'
    end.

(** Lines 458-460 for the [(vba_filename, vba_code)] pairs that
    [extract_macros] yields; [code] is the text after [filter_vba]. *)
Fixpoint write_modules (dest : Path) (use_orig_extension : bool)
    (modules : list (string * string)) (fs : gmap (list string) node)
  : OSError + gmap (list string) node :=
  match modules with
  | [] => inr fs
  | (vba_filename, code) :: rest =>
      match get_outputpath dest vba_filename use_orig_extension fs with
      | inl e => inl e
      | inr (vba_file, fs1) =>
          match write_text vba_file code fs1 with
          | inl e => inl e
          | inr fs2 => write_modules dest use_orig_extension rest fs2
          end
      end
  end.

(** One pass of the loop of [main] (lines 448-461). *)
Definition process_source (root source : Path) (use_orig_extension : bool)
    (modules : list (string * string)) (fs : gmap (list string) node)
  : OSError + gmap (list string) node :=
  match prepare_dest root source fs with
  | inl e => inl e
  | inr fs1 => write_modules (dest_of root source) use_orig_extension modules fs1
  end.

(** *** The loop of [main] *)

(** Lines 441-445: the output root is made if it is not there, and must be
    a directory if it is. *)
Definition ensure_root (root : Path) (fs : gmap (list string) node)
  : OSError + gmap (list string) node :=
  if exists_ fs root
  then (if is_dir fs root then inr fs else inl FileExistsError)
  else mkdir_parents_exist_ok root fs.

(** How the run over the sources ends: all of them done; stopped by an
    exception out of [extract_macros], with the file system as it is then;
    stopped by a failing file operation; or not ending. *)
Inductive run :=
| Finished (fs : gmap (list string) node)
| ExtractFailed (e : Olevba.exn) (fs : gmap (list string) node)
| OSFailed (e : OSError)
| Endless.

(** One pass of the loop (lines 448-461) for a source whose
    [extract_macros] yields [modules] and ends as [e]. *)
Definition run_source (root : Path) (use_orig_extension : bool)
    (source : Path) (modules : list (string * string)) (e : Olevba.ending)
    (fs : gmap (list string) node) : run :=
  match process_source root source use_orig_extension modules fs with
  | inl err => OSFailed err
  | inr fs' =>
      match e with
      | Olevba.Exhausted => Finished fs'
      | Olevba.Raised exc => ExtractFailed exc fs'
      | Olevba.Unfinished => Endless
      end
  end.

(** The loop of line 448 over the sources, each with what its
    [extract_macros] does; nothing catches an exception. *)
Fixpoint main_loop (root : Path) (use_orig_extension : bool)
    (sources : list (Path * list (string * string) * Olevba.ending))
    (fs : gmap (list string) node) : run :=
  match sources with
  | [] => Finished fs
  | (source, modules, e) :: rest =>
      match run_source root use_orig_extension source modules e fs with
      | Finished fs' => main_loop root use_orig_extension rest fs'
      | stopped => stopped
      end
  end.

(** *** [main] *)

Section Main.
Context {cp : Olevba.Codepages}.

(** oletools' [parse_modules] and [filter_vba]. *)
Variable parse_modules : Olevba.state -> Olevba.exn + list (string * string).
Variable filter_vba : string -> string.

(** What the generator of line 457 yields for each source in turn, passed
    through [filter_vba] (line 459), and how it ends; a source comes with
    the parser that [VBA_Parser(src)] built for it. *)
Fixpoint extract_all (src_encoding : string)
    (sources : list (Path * Olevba.VBA_Parser)) (log0 : list Olevba.record)
  : list (Path * list (string * string) * Olevba.ending) :=
  match sources with
  | [] => []
  | (source, vba_parser) :: rest =>
      let '(results, e, log1) :=
        Olevba.extract_macros parse_modules vba_parser src_encoding log0 in
      (source,
       map (fun '(vba_filename, vba_code) => (vba_filename, filter_vba vba_code))
           results,
       e) :: extract_all src_encoding rest log1
  end.

(** [main] (lines 437-461) over the paths that [get_source_paths] yields. *)
Definition main (root : Path) (use_orig_extension : bool)
    (src_encoding : string) (sources : list (Path * Olevba.VBA_Parser))
    (fs : gmap (list string) node) : run :=
  match ensure_root root fs with
  | inl e => OSFailed e
  | inr fs0 =>
      main_loop root use_orig_extension (extract_all src_encoding sources []) fs0
  end.

End Main.

(** *** What a pass leaves below its directory *)

(** The path that line 54 returns for a module file name. *)
Definition output_file (dest : Path) (filename : string)
    (use_orig_extension : bool) : Path :=
  dest ++ [kind_of filename;
           (filename ++ (if use_orig_extension then "" else ".vb"))%string].

(** [c in s] *)
Fixpoint has_char (c : ascii) (s : string) : bool :=
  match s with
  | EmptyString => false
  | String d s' => Ascii.eqb c d || has_char c s'
  end.

(** A string that [joinpath] appends as one component below the directory
    (POSIX): not empty, neither ["."] nor [".."], with no ["/"] and no NUL. *)
Definition component (s : string) : bool :=
  negb (String.eqb s "") && negb (String.eqb s ".") &&
  negb (String.eqb s "..") && negb (has_char "/" s) &&
  negb (has_char "000" s).

(** The file a module goes to is named by one component. *)
Definition plain_names (use_orig_extension : bool)
    (modules : list (string * string)) : Prop :=
  Forall (fun m =>
            component (fst m ++ (if use_orig_extension then "" else ".vb"))%string
            = true) modules.

(** Everything at or below [dest] comes from [modules]: the directory, a
    sub directory for the kind of one of them, or the file of one of them
    with its text. *)
Definition extracted_only (dest : Path) (use_orig_extension : bool)
    (modules : list (string * string)) (fs : gmap (list string) node) : Prop :=
  forall q, dest `prefix_of` q ->
    match fs !! q with
    | None => True
    | Some Dir =>
        q = dest \/
        exists filename,
          In filename (map fst modules) /\ q = dest ++ [kind_of filename]
    | Some (File text) =>
        exists filename,
          In (filename, text) modules /\
          q = output_file dest filename use_orig_extension
    end.

(** Nothing is at or below [dest]. *)
Definition nothing_below (dest : Path) (fs : gmap (list string) node) : Prop :=
  forall q, dest `prefix_of` q -> fs !! q = None.

(** No regular file appears or changes from [fs] to [fs']. *)
Definition no_file_written (fs fs' : gmap (list string) node) : Prop :=
  forall q text, fs' !! q = Some (File text) -> fs !! q = Some (File text).

(** *** A file system for the worked examples *)

(** A working directory [w] with a workbook, its lock file and a text file,
    and an output root [w/out] holding what an earlier run left for the
    workbook. *)
Definition sample_fs : gmap (list string) node :=
  list_to_map
    [(["w"], Dir);
     (["w"; "B.XLS"], File "");
     (["w"; "~$B.XLS"], File "");
     (["w"; "n.txt"], File "");
     (["w"; "out"], Dir);
     (["w"; "out"; "B"], Dir);
     (["w"; "out"; "B"; "m"], Dir);
     (["w"; "out"; "B"; "old"], File "Sub Old()")].

(** [sample_fs] once the output tree of [Book1] is gone. *)
Definition sample_fs_cleared : gmap (list string) node :=
  list_to_map
    [(["w"], Dir);
     (["w"; "B.XLS"], File "");
     (["w"; "~$B.XLS"], File "");
     (["w"; "n.txt"], File "");
     (["w"; "out"], Dir)].

(** Three modules, two of them of one name, and [sample_fs] after a pass
    over the workbook that writes them. *)
Definition sample_modules : list (string * string) :=
  [("a.bas", "1"); ("C.cls", "2"); ("a.bas", "3")].

Definition sample_fs_written : gmap (list string) node :=
  list_to_map
    [(["w"], Dir);
     (["w"; "B.XLS"], File "");
     (["w"; "~$B.XLS"], File "");
     (["w"; "n.txt"], File "");
     (["w"; "out"], Dir);
     (["w"; "out"; "B"], Dir);
     (["w"; "out"; "B"; "module"], Dir);
     (["w"; "out"; "B"; "class"], Dir);
     (["w"; "out"; "B"; "module"; "a.bas.vb"], File "3");
     (["w"; "out"; "B"; "class"; "C.cls.vb"], File "2")].

End Driver.

(* ===================================================================== *)
(** ** Properties of the parser *)
(* ===================================================================== *)

Module OlevbaFacts.
Import Stream Olevba.
Local Open Scope py_scope.
Local Open Scope string_scope.
Local Open Scope list_scope.

(** *** The cursor *)

Lemma advance_0 s : advance 0 s = s.
Proof.
  destruct s as [r d a [b p] l]. unfold advance, pos, buf. simpl.
  by rewrite Nat.add_0_r.
Qed.

Lemma advance_advance n m s : advance m (advance n s) = advance (n + m) s.
Proof. unfold advance, pos, buf. simpl. by rewrite Nat.add_assoc. Qed.

Lemma advance_logged n rs s : advance n (logged rs s) = logged rs (advance n s).
Proof. reflexivity. Qed.

Lemma logged_logged r1 r2 s : logged r2 (logged r1 s) = logged (r1 ++ r2) s.
Proof. unfold logged. simpl. by rewrite app_assoc. Qed.

Lemma advance_with_relaxed n b s :
  advance n (with_relaxed b s) = with_relaxed b (advance n s).
Proof. reflexivity. Qed.

Lemma ahead_advance off n s : ahead off (advance n s) = ahead (n + off) s.
Proof. unfold ahead, advance, pos, buf. simpl. by rewrite Nat.add_assoc. Qed.

Lemma peek_H_advance off n s : peek_H off (advance n s) = peek_H (n + off) s.
Proof. unfold peek_H. by rewrite ahead_advance. Qed.

Lemma peek_L_advance off n s : peek_L off (advance n s) = peek_L (n + off) s.
Proof. unfold peek_L. by rewrite ahead_advance. Qed.

Lemma unpack_H_length data v : unpack_H data = Some v -> length data = 2%nat.
Proof. destruct data as [|? [|? [|? ?]]]; simpl; congruence. Qed.

Lemma unpack_L_length data v : unpack_L data = Some v -> length data = 4%nat.
Proof. destruct data as [|? [|? [|? [|? [|? ?]]]]]; simpl; congruence. Qed.

(** [dir_stream.read(n)] returns the bytes that are there, up to [n], and
    moves the cursor past them. *)
Lemma stream_read_spec n s :
  stream_read n s =
  Ok (take (Z.to_nat n) (ahead 0 s))
     (advance (length (take (Z.to_nat n) (ahead 0 s))) s).
Proof.
  unfold stream_read, read, ahead, advance, pos, buf.
  by rewrite Nat.add_0_r.
Qed.

Lemma read_H_ok s v : peek_H 0 s = Some v -> read_H s = Ok v (advance 2 s).
Proof.
  intros H. unfold read_H, bind. rewrite stream_read_spec.
  unfold peek_H in H. change (Z.to_nat 2) with 2%nat.
  unfold struct_H. rewrite H. by rewrite (unpack_H_length _ _ H).
Qed.

Lemma read_L_ok s v : peek_L 0 s = Some v -> read_L s = Ok v (advance 4 s).
Proof.
  intros H. unfold read_L, bind. rewrite stream_read_spec.
  unfold peek_L in H. change (Z.to_nat 4) with 4%nat.
  unfold struct_L. rewrite H. by rewrite (unpack_L_length _ _ H).
Qed.

Lemma read_H_fail s :
  peek_H 0 s = None ->
  read_H s = Raise (StructError 2 (length (take 2 (ahead 0 s))))
                   (advance (length (take 2 (ahead 0 s))) s).
Proof.
  intros H. unfold read_H, bind. rewrite stream_read_spec.
  unfold peek_H in H. change (Z.to_nat 2) with 2%nat.
  unfold struct_H. by rewrite H.
Qed.

Lemma read_L_fail s :
  peek_L 0 s = None ->
  read_L s = Raise (StructError 4 (length (take 4 (ahead 0 s))))
                   (advance (length (take 4 (ahead 0 s))) s).
Proof.
  intros H. unfold read_L, bind. rewrite stream_read_spec.
  unfold peek_L in H. change (Z.to_nat 4) with 4%nat.
  unfold struct_L. by rewrite H.
Qed.

Lemma bind_read_H {A} (k : Z -> M A) s v :
  peek_H 0 s = Some v -> bind read_H k s = k v (advance 2 s).
Proof. intros H. unfold bind at 1. by rewrite (read_H_ok _ _ H). Qed.

Lemma bind_read_L {A} (k : Z -> M A) s v :
  peek_L 0 s = Some v -> bind read_L k s = k v (advance 4 s).
Proof. intros H. unfold bind at 1. by rewrite (read_L_ok _ _ H). Qed.

Lemma bind_log_debug {A} (k : unit -> M A) f a s :
  bind (log_debug f a) k s = k tt (logged [mkRecord DEBUG f a] s).
Proof. reflexivity. Qed.

Lemma bind_log_error {A} (k : unit -> M A) f a s :
  bind (log_error f a) k s = k tt (logged [mkRecord ERROR f a] s).
Proof. reflexivity. Qed.

Lemma reference_loop_S fuel s :
  reference_loop (S fuel) s =
  match reference_pass s with
  | Ok Break s' => Ok tt s'
  | Ok Continue s' => reference_loop fuel s'
  | Raise e s' => Raise e s'
  | OutOfFuel => OutOfFuel
  end.
Proof.
  simpl. unfold bind. destruct (reference_pass s) as [[|] s'|e s'|]; reflexivity.
Qed.

Lemma not_in_reference_types tag :
  ~ In tag reference_types ->
  (tag =? 0x000F)%Z = false /\ (tag =? 0x0016)%Z = false /\
  (tag =? 0x0033)%Z = false /\ (tag =? 0x002F)%Z = false /\
  (tag =? 0x000D)%Z = false /\ (tag =? 0x000E)%Z = false.
Proof.
  unfold reference_types. simpl. intros H.
  repeat split; apply Z.eqb_neq; intros ->; apply H; tauto.
Qed.

Lemma reference_dispatch_unknown check s :
  (check =? 0x0033)%Z = false -> (check =? 0x002F)%Z = false ->
  (check =? 0x000D)%Z = false -> (check =? 0x000E)%Z = false ->
  reference_dispatch check s =
  Raise (NameError "UnexpectedDataError")
        (logged [mkRecord ERROR "invalid or unknown check Id {0:04X}" [VInt check]] s).
Proof.
  intros H1 H2 H3 H4. unfold reference_dispatch. rewrite H1, H2, H3, H4.
  reflexivity.
Qed.


(** *** Termination of the reference loop *)

Lemma forward_ret {A} (a : A) : forward (ret a).
Proof. intros s. simpl. auto. Qed.

Lemma forward_raise {A} e : forward (@raise A e).
Proof. intros s. exact I. Qed.

Lemma forward_bind {A B} (m : M A) (k : A -> M B) :
  forward m -> (forall a, forward (k a)) -> forward (bind m k).
Proof.
  intros Hm Hk s. unfold bind. specialize (Hm s).
  destruct (m s) as [a s1|e s1|]; [|exact I|exact Hm].
  specialize (Hk a s1). destruct (k a s1) as [b s2|e s2|]; [|exact I|exact Hk].
  destruct Hm as [Hb Hp], Hk as [Hb' Hp']. split; [congruence|lia].
Qed.

Lemma forward_setattr n v : forward (setattr n v).
Proof. intros s. simpl. auto. Qed.

Lemma forward_getattr n : forward (getattr n).
Proof. intros s. unfold getattr. destruct (assoc n (attrs s)); simpl; auto. Qed.

Lemma forward_emit r : forward (emit r).
Proof. intros s. simpl. auto. Qed.

Lemma forward_stream_read n : forward (stream_read n).
Proof.
  intros s. rewrite stream_read_spec. unfold advance, pos, buf. simpl.
  split; [reflexivity|lia].
Qed.

Lemma forward_struct_H data : forward (struct_H data).
Proof. intros s. unfold struct_H. destruct (unpack_H data); simpl; auto. Qed.

Lemma forward_struct_L data : forward (struct_L data).
Proof. intros s. unfold struct_L. destruct (unpack_L data); simpl; auto. Qed.

Lemma forward_check_value n e v : forward (check_value n e v).
Proof.
  intros s. unfold check_value.
  destruct (e =? v)%Z; [simpl; auto|]. destruct (relaxed s); simpl; auto.
Qed.

Lemma forward_raise_at {A} (f : state -> exn) :
  forward (fun s => @Raise A (f s) s).
Proof. intros s. exact I. Qed.

Create HintDb forward discriminated.
#[local] Hint Resolve @forward_ret @forward_raise @forward_setattr @forward_getattr
  @forward_emit @forward_stream_read @forward_struct_H @forward_struct_L
  @forward_check_value @forward_raise_at : forward.

Ltac forward_step :=
  match goal with
  | |- forward (bind _ _) => apply forward_bind; [|intro]
  | |- forward (if ?b then _ else _) => destruct b
  | |- forward (match ?x with _ => _ end) => destruct x
  | |- forward (log_debug _ _) => apply forward_emit
  | |- forward (log_error _ _) => apply forward_emit
  | |- forward read_H => unfold read_H
  | |- forward read_L => unfold read_L
  | |- forward (decode_bytes _) => unfold decode_bytes
  | |- forward (debug_decoded _ _) => unfold debug_decoded
  | |- forward _ => solve [auto with forward]
  end.
Ltac forward_tac := repeat forward_step.

Lemma forward_reference_dispatch check : forward (reference_dispatch check).
Proof.
  unfold reference_dispatch, referenceoriginal_record, referencecontrol_record,
    referenceregistered_record, referenceproject_record.
  forward_tac.
Qed.

Lemma forward_referencename_record : forward referencename_record.
Proof. unfold referencename_record. forward_tac. Qed.


Lemma peek_H_room off s v : peek_H off s = Some v -> pos s + off + 2 <= length (buf s).
Proof.
  unfold peek_H, ahead. intros H. apply unpack_H_length in H.
  rewrite length_take, length_drop in H. lia.
Qed.

Lemma peek_L_room off s v : peek_L off s = Some v -> pos s + off + 4 <= length (buf s).
Proof.
  unfold peek_L, ahead. intros H. apply unpack_L_length in H.
  rewrite length_take, length_drop in H. lia.
Qed.

Lemma read_H_inv s v s' :
  read_H s = Ok v s' -> peek_H 0 s = Some v /\ s' = advance 2 s.
Proof.
  intros H. destruct (peek_H 0 s) as [w|] eqn:E.
  - rewrite (read_H_ok _ _ E) in H. by inversion H.
  - rewrite (read_H_fail _ E) in H. discriminate.
Qed.

(** A pass that does not end the loop has consumed its tag. *)
Lemma reference_pass_progress s :
  match reference_pass s with
  | Ok _ s' => buf s' = buf s /\ pos s + 2 <= pos s' /\ pos s + 2 <= length (buf s)
  | Raise _ _ => True
  | OutOfFuel => False
  end.
Proof.
  unfold reference_pass.
  destruct (peek_H 0 s) as [check|] eqn:E.
  - rewrite (bind_read_H _ _ _ E).
    pose proof (peek_H_room _ _ _ E) as Hroom.
    assert (F : forward
      (log_debug "reference type = {0:04X}" [VInt check] ;;
       if (check =? 15)%Z then ret Break
       else if (check =? 22)%Z
            then let* next := referencename_record in
                 match next with
                 | Some check0 => reference_dispatch check0
                 | None => ret Continue
                 end
            else reference_dispatch check)).
    { pose proof forward_reference_dispatch. pose proof forward_referencename_record.
      forward_tac. }
    specialize (F (advance 2 s)).
    match goal with |- match ?r with _ => _ end =>
      change (match r with
              | Ok _ s' => buf s' = buf (advance 2 s) /\ pos (advance 2 s) <= pos s'
              | Raise _ _ => True
              | OutOfFuel => False
              end) in F;
      destruct r as [c s'|e s'|]
    end; [|exact I|exact F].
    unfold advance, pos, buf in *. simpl in *. destruct F as [F1 F2].
    repeat split; [exact F1|lia|lia].
  - unfold bind at 1. rewrite (read_H_fail _ E). exact I.
Qed.

Lemma reference_loop_enough f : forall f' s,
  remaining (dir_stream s) < 2 * f -> f <= f' ->
  reference_loop f' s = reference_loop f s /\ reference_loop f s <> OutOfFuel.
Proof.
  induction f as [|f IH]; intros f' s Hrem Hle; [lia|].
  destruct f' as [|f']; [lia|].
  rewrite !reference_loop_S.
  pose proof (reference_pass_progress s) as P.
  destruct (reference_pass s) as [[|] s'|e s'|]; try done.
  apply IH; [|lia].
  destruct P as (Hb & Hp & Hl). unfold remaining in *. fold (buf s) (pos s) in *.
  fold (buf s') (pos s'). rewrite Hb. lia.
Qed.

(** [reference_array] is the loop of the source: one pass, then again. *)
Lemma reference_array_unfold s :
  reference_array s =
  match reference_pass s with
  | Ok Break s' => Ok tt s'
  | Ok Continue s' => reference_array s'
  | Raise e s' => Raise e s'
  | OutOfFuel => OutOfFuel
  end.
Proof.
  unfold reference_array. rewrite reference_loop_S.
  pose proof (reference_pass_progress s) as P.
  destruct (reference_pass s) as [[|] s'|e s'|]; try done.
  destruct P as (Hb & Hp & Hl).
  assert (remaining (dir_stream s') + 2 <= remaining (dir_stream s)).
  { unfold remaining. fold (buf s) (pos s) (buf s') (pos s'). rewrite Hb. lia. }
  destruct (reference_loop_enough (S (remaining (dir_stream s'))) (remaining (dir_stream s)) s')
    as [-> _]; [lia|lia|reflexivity].
Qed.

(** The loop terminates on every stream. *)
Lemma reference_array_terminates s : reference_array s <> OutOfFuel.
Proof.
  unfold reference_array.
  apply (reference_loop_enough _ (S (remaining (dir_stream s))) s); lia.
Qed.

Lemma bind_stream_read {A} (k : bytes -> M A) n s :
  bind (stream_read n) k s =
  k (take (Z.to_nat n) (ahead 0 s))
    (advance (length (take (Z.to_nat n) (ahead 0 s))) s).
Proof. unfold bind at 1. by rewrite stream_read_spec. Qed.

Lemma bind_debug_decoded {A} (k : unit -> M A) f raw s :
  bind (debug_decoded f raw) k s = Raise (NameError "unicode2str") s.
Proof. reflexivity. Qed.

Lemma ahead_logged off rs s : ahead off (logged rs s) = ahead off s.
Proof. reflexivity. Qed.

(** A payload wholly inside the buffer is read whole. *)
Lemma length_take_ahead n off s :
  pos s + off + n <= length (buf s) -> length (take n (ahead off s)) = n.
Proof. unfold ahead. rewrite length_take, length_drop. lia. Qed.

Lemma bind_check_value_eq {A} (k : unit -> M A) name v s :
  bind (check_value name v v) k s = k tt s.
Proof. unfold bind at 1, check_value. by rewrite Z.eqb_refl. Qed.

(** No stream gets an object out of the constructor. *)
Lemma parse_dir_stream_never_returns {cp : Codepages} s s' :
  parse_dir_stream s <> Ok tt s'.
Proof.
  unfold parse_dir_stream, bind.
  destruct (projectsyskind_record s) as [[] s1|e s1|]; [|done|done].
  destruct (compat_version_fix s1) as [id_temp s2|e s2|]; [|done|done].
  unfold projectlcid_record, bind, raise. done.
Qed.

(** The constructor stops at line 110, whatever the stream holds. *)
Lemma vba_project_init_stops_at_line_110 {cp : Codepages}
    vba_root project_path dirpath is_relaxed dir_compressed log0 :
  vba_project_init vba_root project_path dirpath is_relaxed dir_compressed log0 =
  Raise (NameError "decompress_stream")
        (logged [mkRecord DEBUG "Parsing the dir stream from %r" [VStr dirpath]]
                (fresh_object vba_root project_path dirpath is_relaxed log0)).
Proof. reflexivity. Qed.


(** X16.  A PROJECTNAME record whose declared size is outside [1, 128] is
    consumed in either mode: the size is logged as an error, then the
    payload is read, as much of it as the buffer holds, and bound to
    [projectname] under the project's codec. *)
Lemma projectname_out_of_range_consumed (s : state) (size : Z) (codec : string) :
  assoc "codec" (attrs s) = Some (VStr codec) ->
  peek_H 0 s = Some 0x0004%Z ->
  peek_L 2 s = Some size ->
  (size < 1 \/ 128 < size)%Z ->
  exists s',
    projectname_record s = Ok tt s' /\
    pos s' = pos s + 6 + length (take (Z.to_nat size) (ahead 6 s)) /\
    assoc "projectname" (attrs s') =
      Some (VDecoded codec (take (Z.to_nat size) (ahead 6 s))) /\
    log s' = log s ++
      [mkRecord DEBUG "Project name size: %d bytes" [VInt size];
       mkRecord ERROR "PROJECTNAME_SizeOfProjectName value not in range [1-128]: {0}"
                [VInt size]].
Proof.
  intros Hc Hid Hsize Hrange. unfold projectname_record.
  rewrite (bind_read_H _ _ _ Hid), bind_check_value_eq.
  rewrite (bind_read_L _ _ size) by (by rewrite peek_L_advance).
  rewrite advance_advance, bind_log_debug.
  replace ((size <? 1)%Z || (128 <? size)%Z) with true
    by (symmetry; apply orb_true_iff; rewrite !Z.ltb_lt; lia).
  rewrite bind_log_error, logged_logged, bind_stream_read.
  rewrite ahead_logged, ahead_advance, advance_logged, advance_advance.
  unfold bind, decode_bytes, bind, getattr. simpl attrs. rewrite Hc.
  eexists. split; [reflexivity|].
  repeat split. unfold pos, advance. simpl. unfold pos. lia.
Qed.

(** The stream loses step: the next record's tag is taken from the name. *)
Example projectname_desynchronizes :
  exists s',
    (projectname_record ;; projectdocstring_record)
      (mid_parse false "cp1252"
         (pack_H 0x0004 ++ pack_L 1 ++ [x41] ++
          pack_H 0x0005 ++ pack_L 0 ++ pack_H 0x0040 ++ pack_L 0) 0) =
    Raise (UnexpectedDataError "VBA/dir" "PROJECTDOCSTRING_Id" [0x0005%Z] 0x0541%Z) s'.
Proof. eexists. vm_compute. reflexivity. Qed.

Lemma length_ahead off s : length (ahead off s) = remaining (dir_stream s) - off.
Proof. unfold ahead, remaining, pos, buf. rewrite length_drop. lia. Qed.

Lemma unpack_H_short data : length data < 2 -> unpack_H data = None.
Proof. destruct data as [|? [|? ?]]; simpl; intros; try reflexivity; lia. Qed.

Lemma unpack_L_short data : length data < 4 -> unpack_L data = None.
Proof.
  destruct data as [|? [|? [|? [|? ?]]]]; simpl; intros; try reflexivity; lia.
Qed.

Lemma bind_ret_r {A} (m : M A) s : bind m (fun a => ret a) s = m s.
Proof. unfold bind, ret. by destruct (m s). Qed.

(** X17.  A PROJECTLIBFLAGS record with the expected tag and size whose
    flags are not 0: in relaxed mode the mismatch is logged and the record
    is left behind, 10 bytes further; in strict mode it raises, the cursor
    already past the record. *)
Lemma projectlibflags_record_spec (s : state) (flags : Z) :
  peek_H 0 s = Some 0x0008%Z ->
  peek_L 2 s = Some 0x0004%Z ->
  peek_L 6 s = Some flags ->
  flags <> 0%Z ->
  projectlibflags_record s =
  if relaxed s
  then Ok tt (logged [mkRecord ERROR
                        "invalid value for {0} expected {1:04X} got {2:04X}"
                        [VStr "PROJECTLIBFLAGS_ProjectLibFlags"; VInt 0; VInt flags]]
                     (advance 10 s))
  else Raise (UnexpectedDataError (dir_path s) "PROJECTLIBFLAGS_ProjectLibFlags"
                                  [0%Z] flags)
             (advance 10 s).
Proof.
  intros Hid Hsize Hflags Hne. unfold projectlibflags_record.
  rewrite (bind_read_H _ _ _ Hid), bind_check_value_eq.
  rewrite (bind_read_L _ _ 4%Z) by (by rewrite peek_L_advance).
  rewrite bind_check_value_eq, advance_advance.
  rewrite (bind_read_L _ _ flags) by (by rewrite peek_L_advance).
  rewrite advance_advance. unfold check_value.
  replace (0 =? flags)%Z with false by (symmetry; apply Z.eqb_neq; lia).
  simpl relaxed. destruct (relaxed s); reflexivity.
Qed.

Lemma check_value_inv name e v s s' :
  check_value name e v s = Ok tt s' -> exists rs, s' = logged rs s.
Proof.
  unfold check_value. destruct (e =? v)%Z.
  - intros [= <-]. exists []. unfold logged. destruct s; simpl. by rewrite app_nil_r.
  - destruct (relaxed s); [|discriminate]. intros [= <-]. eexists. reflexivity.
Qed.

Lemma read_L_inv s v s' :
  read_L s = Ok v s' -> peek_L 0 s = Some v /\ s' = advance 4 s.
Proof.
  intros H. destruct (peek_L 0 s) as [w|] eqn:E.
  - rewrite (read_L_ok _ _ E) in H. by inversion H.
  - rewrite (read_L_fail _ E) in H. discriminate.
Qed.

Lemma bind_inv {A B} (m : M A) (k : A -> M B) s b s' :
  bind m k s = Ok b s' -> exists a s1, m s = Ok a s1 /\ k a s1 = Ok b s'.
Proof.
  unfold bind. destruct (m s) as [a s1|e s1|]; [|discriminate|discriminate].
  intros H. by exists a, s1.
Qed.

Lemma bind_bind {A B C} (m : M A) (k : A -> M B) (k' : B -> M C) s :
  bind (bind m k) k' s = bind m (fun a => bind (k a) k') s.
Proof. unfold bind. by destruct (m s). Qed.

Lemma bind_ok {A B} (m : M A) (k : A -> M B) s a s1 :
  m s = Ok a s1 -> bind m k s = k a s1.
Proof. intros H. unfold bind. by rewrite H. Qed.

Lemma bind_ret_l {A B} (a : A) (k : A -> M B) s : bind (ret a) k s = k a s.
Proof. reflexivity. Qed.

Lemma bind_raises {A B} (m : M A) (k : A -> M B) s e s' :
  m s = Raise e s' -> bind m k s = Raise e s'.
Proof. intros H. unfold bind. by rewrite H. Qed.

Lemma bind_raise {A B} e (k : A -> M B) s : bind (raise e) k s = Raise e s.
Proof. reflexivity. Qed.

Lemma bind_setattr {A} (k : unit -> M A) n v s :
  bind (setattr n v) k s = k tt (bound n v s).
Proof. reflexivity. Qed.

(** The PROJECTSYSKIND record in order, for a known platform. *)
Lemma projectsyskind_record_ok (s : state) (syskind : Z) (syskind_name : string) :
  peek_H 0 s = Some 0x0001%Z ->
  peek_L 2 s = Some 0x0004%Z ->
  peek_L 6 s = Some syskind ->
  SYSKIND_NAME syskind = Some syskind_name ->
  projectsyskind_record s =
  Ok tt (logged [mkRecord DEBUG "PROJECTSYSKIND_SysKind: %d - %s"
                   [VInt syskind; VStr syskind_name]]
           (bound "syskind_name" (VStr syskind_name)
              (bound "syskind" (VInt syskind) (advance 10 s)))).
Proof.
  intros Hid Hsize Hkind Hname. unfold projectsyskind_record.
  rewrite (bind_read_H _ _ _ Hid), bind_check_value_eq.
  rewrite (bind_read_L _ _ 4%Z) by (by rewrite peek_L_advance).
  rewrite bind_check_value_eq, advance_advance.
  rewrite (bind_read_L _ _ syskind) by (by rewrite peek_L_advance).
  rewrite advance_advance, Hname.
  rewrite !bind_setattr, bind_log_debug. reflexivity.
Qed.

(** The parse up to line 144, on a stream whose platform record is in order
    and is not followed by the extra field. *)
Lemma parse_dir_stream_stops_at_lcid {cp : Codepages} (s : state)
    (syskind : Z) (syskind_name : string) (t : Z) :
  peek_H 0 s = Some 0x0001%Z ->
  peek_L 2 s = Some 0x0004%Z ->
  peek_L 6 s = Some syskind ->
  SYSKIND_NAME syskind = Some syskind_name ->
  peek_H 10 s = Some t ->
  t <> 0x004A%Z ->
  parse_dir_stream s =
  Raise (NameError "id_tmp")
        (logged [mkRecord DEBUG "PROJECTSYSKIND_SysKind: %d - %s"
                   [VInt syskind; VStr syskind_name]]
           (bound "syskind_name" (VStr syskind_name)
              (bound "syskind" (VInt syskind) (advance 12 s)))).
Proof.
  intros Hid Hsize Hkind Hname Ht Hne.
  unfold parse_dir_stream.
  rewrite (bind_ok _ _ _ _ _
             (projectsyskind_record_ok s syskind syskind_name Hid Hsize Hkind Hname)).
  unfold compat_version_fix. rewrite bind_bind.
  rewrite (bind_read_H _ _ t)
    by (change (peek_H 0 (advance 10 s) = Some t); by rewrite peek_H_advance).
  apply Z.eqb_neq in Hne. rewrite Hne, bind_ret_l.
  unfold projectlcid_record. rewrite !bind_bind, bind_raise.
  rewrite !advance_logged. unfold logged, bound, advance, pos, buf. simpl.
  do 3 f_equal. lia.
Qed.

(** *** Invariants of a computation *)

Section Respects.
Context (R : state -> state -> Prop) (P : state -> exn -> Prop).
Hypothesis R_refl : forall s, R s s.
Hypothesis R_trans : forall s1 s2 s3, R s1 s2 -> R s2 s3 -> R s1 s3.
Hypothesis P_back : forall s1 s2 e, R s1 s2 -> P s2 e -> P s1 e.

Lemma respects_ret {A} (a : A) : respects R P (ret a).
Proof. intros s. apply R_refl. Qed.

Lemma respects_bind {A B} (m : M A) (k : A -> M B) :
  respects R P m -> (forall a, respects R P (k a)) -> respects R P (bind m k).
Proof.
  intros Hm Hk s. unfold bind. specialize (Hm s).
  destruct (m s) as [a s1|e s1|]; [|exact Hm|exact Hm].
  specialize (Hk a s1). destruct (k a s1) as [b s2|e s2|]; [eauto| |exact Hk].
  destruct Hk as [H1 H2]. split; eauto.
Qed.

End Respects.

(** Up to line 144 neither [codec] nor [codepage] is bound or rebound. *)
Abbreviation keeps_codec := (respects same_codec any_exn).

Lemma same_codec_refl s : same_codec s s.
Proof. by split. Qed.

Lemma same_codec_trans s1 s2 s3 :
  same_codec s1 s2 -> same_codec s2 s3 -> same_codec s1 s3.
Proof. unfold same_codec. intros [A B] [C D]. split; congruence. Qed.

Lemma keeps_codec_bind {A B} (m : M A) (k : A -> M B) :
  keeps_codec m -> (forall a, keeps_codec (k a)) -> keeps_codec (bind m k).
Proof. apply respects_bind; [apply same_codec_trans|done]. Qed.

Lemma keeps_codec_ret {A} (a : A) : keeps_codec (ret a).
Proof. apply respects_ret, same_codec_refl. Qed.

Lemma keeps_codec_emit r : keeps_codec (emit r).
Proof. intros s. apply (same_codec_refl s). Qed.

Lemma keeps_codec_setattr n v :
  String.eqb n "codec" = false -> String.eqb n "codepage" = false ->
  keeps_codec (setattr n v).
Proof. intros H1 H2 s. unfold same_codec. simpl. by rewrite H1, H2. Qed.

Lemma keeps_codec_stream_read n : keeps_codec (stream_read n).
Proof. intros s. rewrite stream_read_spec. apply (same_codec_refl s). Qed.

Lemma keeps_codec_struct_H data : keeps_codec (struct_H data).
Proof.
  intros s. unfold struct_H. destruct (unpack_H data); simpl;
    [|split; [|exact I]]; apply same_codec_refl.
Qed.

Lemma keeps_codec_struct_L data : keeps_codec (struct_L data).
Proof.
  intros s. unfold struct_L. destruct (unpack_L data); simpl;
    [|split; [|exact I]]; apply same_codec_refl.
Qed.

Lemma keeps_codec_check_value n e v : keeps_codec (check_value n e v).
Proof.
  intros s. unfold check_value. destruct (e =? v)%Z; [apply same_codec_refl|].
  destruct (relaxed s); simpl; [|split; [|exact I]]; apply (same_codec_refl s).
Qed.

Ltac keeps_codec_step :=
  match goal with
  | |- respects _ _ (bind _ _) => apply keeps_codec_bind; [|intro]
  | |- respects _ _ (if ?b then _ else _) => destruct b
  | |- respects _ _ (match ?x with _ => _ end) => destruct x
  | |- respects _ _ (log_debug _ _) => apply keeps_codec_emit
  | |- respects _ _ (log_error _ _) => apply keeps_codec_emit
  | |- respects _ _ read_H => unfold read_H
  | |- respects _ _ read_L => unfold read_L
  | |- respects _ _ (ret _) => apply keeps_codec_ret
  | |- respects _ _ (setattr _ _) => apply keeps_codec_setattr; reflexivity
  | |- respects _ _ (stream_read _) => apply keeps_codec_stream_read
  | |- respects _ _ (struct_H _) => apply keeps_codec_struct_H
  | |- respects _ _ (struct_L _) => apply keeps_codec_struct_L
  | |- respects _ _ (check_value _ _ _) => apply keeps_codec_check_value
  end.

Lemma keeps_codec_to_line_144 :
  keeps_codec projectsyskind_record /\ keeps_codec compat_version_fix.
Proof.
  unfold projectsyskind_record, compat_version_fix.
  split; repeat keeps_codec_step.
Qed.

(** *** The records of the reference array *)

(** Each record reads as far as its first name or library id and stops at
    the [log.debug] that follows it. *)
Lemma referencename_record_raises s size :
  peek_L 0 s = Some size ->
  referencename_record s =
  Raise (NameError "unicode2str")
        (advance (4 + length (take (Z.to_nat size) (ahead 4 s))) s).
Proof.
  intros Hsize. unfold referencename_record.
  rewrite (bind_read_L _ _ _ Hsize), bind_stream_read, bind_debug_decoded.
  by rewrite ahead_advance, Nat.add_0_r, advance_advance.
Qed.

Lemma referenceoriginal_record_raises s size :
  peek_L 0 s = Some size ->
  referenceoriginal_record s =
  Raise (NameError "unicode2str")
        (advance (4 + length (take (Z.to_nat size) (ahead 4 s))) s).
Proof.
  intros Hsize. unfold referenceoriginal_record.
  rewrite (bind_read_L _ _ _ Hsize), bind_stream_read.
  unfold debug_decoded, raise.
  by rewrite ahead_advance, Nat.add_0_r, advance_advance.
Qed.

Lemma sized_record_raises {A} (k : unit -> M A) f s record_size size :
  peek_L 0 s = Some record_size ->
  peek_L 4 s = Some size ->
  (let* _ := read_L in
   let* sizeof_libid := read_L in
   let* libid := stream_read sizeof_libid in
   bind (debug_decoded f libid) k) s =
  Raise (NameError "unicode2str")
        (advance (8 + length (take (Z.to_nat size) (ahead 8 s))) s).
Proof.
  intros H1 H2.
  rewrite (bind_read_L _ _ _ H1).
  rewrite (bind_read_L _ _ size) by (by rewrite peek_L_advance).
  rewrite bind_stream_read, bind_debug_decoded.
  by rewrite !advance_advance, ahead_advance, Nat.add_0_r.
Qed.

Lemma referencecontrol_record_raises s record_size size :
  peek_L 0 s = Some record_size ->
  peek_L 4 s = Some size ->
  referencecontrol_record s =
  Raise (NameError "unicode2str")
        (advance (8 + length (take (Z.to_nat size) (ahead 8 s))) s).
Proof. apply sized_record_raises. Qed.

Lemma referenceregistered_record_raises s record_size size :
  peek_L 0 s = Some record_size ->
  peek_L 4 s = Some size ->
  referenceregistered_record s =
  Raise (NameError "unicode2str")
        (advance (8 + length (take (Z.to_nat size) (ahead 8 s))) s).
Proof. apply sized_record_raises. Qed.

Lemma referenceproject_record_raises s record_size size :
  peek_L 0 s = Some record_size ->
  peek_L 4 s = Some size ->
  referenceproject_record s =
  Raise (NameError "unicode2str")
        (advance (8 + length (take (Z.to_nat size) (ahead 8 s))) s).
Proof. apply sized_record_raises. Qed.

(** The pass of the loop up to the test of the tag. *)
Lemma reference_array_at_tag s check :
  peek_H 0 s = Some check ->
  reference_array s =
  match (if (check =? 0x000F)%Z then ret Break
         else if (check =? 0x0016)%Z then
           let* next := referencename_record in
           match next with
           | None => ret Continue
           | Some check => reference_dispatch check
           end
         else reference_dispatch check)
          (logged [mkRecord DEBUG "reference type = {0:04X}" [VInt check]]
                  (advance 2 s)) with
  | Ok Break s' => Ok tt s'
  | Ok Continue s' => reference_array s'
  | Raise e s' => Raise e s'
  | OutOfFuel => OutOfFuel
  end.
Proof.
  intros H. rewrite reference_array_unfold. unfold reference_pass.
  by rewrite (bind_read_H _ _ _ H), bind_log_debug.
Qed.

(** *** The claims about the parser *)

(** C1 (as the code has it).  The minimal well-formed stream (platform 1,
    both locale ids 0x409, any code page, empty name, doc string and
    constants, a reference array holding only the terminator 0x000F) does
    not parse, in relaxed or in strict mode.  The constructor itself stops
    at line 110, whatever the compressed stream holds, with [NameError]
    for [decompress_stream].  Lines 116-417, given the decompressed bytes
    of the minimal stream, raise [NameError] for [id_tmp] at line 144,
    twelve bytes into the stream, with no diagnostic logged and no project
    object returned. *)
Theorem minimal_stream_raises_NameError {cp : Codepages}
    (vba_root project_path dirpath : string) (is_relaxed : bool)
    (codepage : Z) (log0 : list record) :
  (forall dir_compressed, exists s0,
     vba_project_init vba_root project_path dirpath is_relaxed
       dir_compressed log0 =
     Raise (NameError "decompress_stream") s0 /\
     log s0 = log0 ++
       [mkRecord DEBUG "Parsing the dir stream from %r" [VStr dirpath]]) /\
  exists s',
    parse_dir_stream
      (entry vba_root project_path dirpath is_relaxed
             (dir_stream_bytes codepage 0 (pack_H 0x000F)) log0) =
    Raise (NameError "id_tmp") s' /\
    pos s' = 12 /\
    log s' = log0 ++
      [mkRecord DEBUG "Parsing the dir stream from %r" [VStr dirpath];
       mkRecord DEBUG "PROJECTSYSKIND_SysKind: %d - %s"
                [VInt 1; VStr "32-bit Windows"]].
Proof.
  split.
  - intros dir_compressed. eexists. split;
      [apply vba_project_init_stops_at_line_110|reflexivity].
  - eexists. split; [|split].
    + by apply (parse_dir_stream_stops_at_lcid _ 1%Z "32-bit Windows" 0x0002%Z).
    + reflexivity.
    + unfold logged, bound, advance, entry. cbn [log]. by rewrite <- app_assoc.
Qed.

(** Beyond line 144.  With the tag it has in [id_temp] handed to the rest of
    the PROJECTLCID block, the minimal stream parses to its end in strict
    mode, and its empty project name is logged as out of range: the one
    error-level record of the run. *)
Example minimal_stream_beyond_line_144 :
  exists s',
    (projectlcid_fields 0x0002 ;; @records_after_lcid sample_codepages)
      (advance 12 (entry "VBA" "PROJECT" "VBA/dir" false
                         (dir_stream_bytes 1252 0 (pack_H 0x000F)) [])) =
    Ok tt s' /\
    pos s' = length (dir_stream_bytes 1252 0 (pack_H 0x000F)) /\
    diagnostics s' =
      [mkRecord ERROR
         "PROJECTNAME_SizeOfProjectName value not in range [1-128]: {0}"
         [VInt 0]].
Proof. eexists. vm_compute. repeat split. Qed.

(** C2 (as the code has it).  A REFERENCENAME record never gets to its
    trailing field.  Once the name has been read, as much of it as the
    buffer holds, line 287 looks up [unicode2str], which the module does
    not bind, and [NameError] is raised, in relaxed and in strict mode
    alike, with the cursor at the end of the name: the trailing field is
    not read, so it is neither compared with 0x003E nor used as a tag, and
    the loop does not end normally, whatever follows the name. *)
Theorem name_record_raises_NameError (s : state) (size : Z) :
  peek_H 0 s = Some 0x0016%Z ->
  peek_L 2 s = Some size ->
  reference_array s =
  Raise (NameError "unicode2str")
        (logged [mkRecord DEBUG "reference type = {0:04X}" [VInt 0x0016]]
                (advance (6 + length (take (Z.to_nat size) (ahead 6 s))) s)).
Proof.
  intros Htag Hsize. rewrite (reference_array_at_tag _ _ Htag).
  change (0x0016 =? 15)%Z with false. change (0x0016 =? 22)%Z with true.
  cbv iota. unfold bind at 1.
  rewrite (referencename_record_raises _ size)
    by (change (peek_L 0 (advance 2 s) = Some size); by rewrite peek_L_advance).
  by rewrite ahead_logged, ahead_advance, advance_logged, advance_advance.
Qed.

(** C2 on the name "VBA" followed by the terminator: the exception is
    raised with the cursor at the trailing field, offset 9. *)
Lemma name_record_raises_NameError_witness :
  peek_H 9 (mid_parse true "cp1252" name_then_terminator 0) = Some 0x000F%Z /\
  reference_array (mid_parse true "cp1252" name_then_terminator 0) =
  Raise (NameError "unicode2str")
        (logged [mkRecord DEBUG "reference type = {0:04X}" [VInt 0x0016]]
                (mid_parse true "cp1252" name_then_terminator 9)).
Proof.
  split; [reflexivity|].
  exact (name_record_raises_NameError
           (mid_parse true "cp1252" name_then_terminator 0) 3%Z
           eq_refl eq_refl).
Defined.

(** C3 (as the code has it).  A PROJECTNAME record whose declared size is in
    [1,128] is left unread: after the record the cursor stands 6 bytes on,
    at the first byte of the name, whatever the size; nothing is decoded
    and no [projectname] is bound. *)
Theorem projectname_in_range_not_consumed (s : state) (size : Z) :
  peek_H 0 s = Some 0x0004%Z ->
  peek_L 2 s = Some size ->
  (1 <= size <= 128)%Z ->
  projectname_record s =
  Ok tt (logged [mkRecord DEBUG "Project name size: %d bytes" [VInt size]]
                (advance 6 s)).
Proof.
  intros Hid Hsize Hrange. unfold projectname_record.
  rewrite (bind_read_H _ _ _ Hid), bind_check_value_eq.
  rewrite (bind_read_L _ _ size) by (by rewrite peek_L_advance).
  rewrite bind_log_debug.
  replace (size <? 1)%Z with false by (symmetry; apply Z.ltb_ge; lia).
  replace (128 <? size)%Z with false by (symmetry; apply Z.ltb_ge; lia).
  simpl. unfold ret. by rewrite advance_advance.
Qed.

(** C3 on the one-byte name "A". *)
Lemma projectname_in_range_not_consumed_witness :
  peek_L 2 (mid_parse true "cp1252" name_A_then_docstring 0) = Some 1%Z /\
  projectname_record (mid_parse true "cp1252" name_A_then_docstring 0) =
  Ok tt (logged [mkRecord DEBUG "Project name size: %d bytes" [VInt 1]]
                (mid_parse true "cp1252" name_A_then_docstring 6)).
Proof.
  split; [reflexivity|].
  apply (projectname_in_range_not_consumed
           (mid_parse true "cp1252" name_A_then_docstring 0)
           1%Z eq_refl eq_refl).
  lia.
Defined.

(** C4 (as the code has it).  Wherever the loop reads a tag that is none of
    0x000F, 0x0016, 0x0033, 0x002F, 0x000D, 0x000E, the tag is logged as
    invalid and line 417 then looks up [UnexpectedDataError], which the
    module does not bind: what is raised is [NameError], which does not
    identify the tag.  Mode makes no difference to the exception or to the
    log. *)
Theorem unknown_reference_tag_raises_NameError (s : state) (tag : Z) (b : bool) :
  peek_H 0 s = Some tag ->
  ~ In tag reference_types ->
  reference_array (with_relaxed b s) =
  Raise (NameError "UnexpectedDataError")
        (with_relaxed b
           (logged [mkRecord DEBUG "reference type = {0:04X}" [VInt tag];
                    mkRecord ERROR "invalid or unknown check Id {0:04X}" [VInt tag]]
                   (advance 2 s))).
Proof.
  intros Hpeek Hin.
  destruct (not_in_reference_types _ Hin) as (H0 & H1 & H2 & H3 & H4 & H5).
  rewrite reference_array_unfold. unfold reference_pass.
  rewrite (bind_read_H _ _ tag) by exact Hpeek.
  rewrite bind_log_debug, H0, H1.
  rewrite reference_dispatch_unknown by assumption.
  unfold logged, advance, with_relaxed; simpl. by rewrite <- app_assoc.
Qed.

(** C4 on the tag 0xFFFF, in strict mode. *)
Lemma unknown_reference_tag_raises_NameError_witness :
  peek_H 0 (mid_parse true "cp1252" (pack_H 0xFFFF) 0) = Some 0xFFFF%Z /\
  reference_array (with_relaxed false (mid_parse true "cp1252" (pack_H 0xFFFF) 0)) =
  Raise (NameError "UnexpectedDataError")
        (with_relaxed false
           (logged [mkRecord DEBUG "reference type = {0:04X}" [VInt 0xFFFF];
                    mkRecord ERROR "invalid or unknown check Id {0:04X}" [VInt 0xFFFF]]
                   (advance 2 (mid_parse true "cp1252" (pack_H 0xFFFF) 0)))).
Proof.
  split; [reflexivity|].
  apply (unknown_reference_tag_raises_NameError
           (mid_parse true "cp1252" (pack_H 0xFFFF) 0) 0xFFFF%Z false eq_refl).
  unfold reference_types. simpl. intros H.
  repeat (destruct H as [H|H]; [discriminate H|]). exact H.
Defined.

(** C5, counterexample.  A payload read that asks for more bytes than remain
    returns the bytes that are there and raises nothing: with 2 bytes left,
    [read(5)] yields those 2.  The REFERENCEORIGINAL record that declared 5
    takes them as its library id; what stops it next is the unbound
    [unicode2str] of line 318, with the cursor at the end of the buffer,
    and not the missing bytes. *)
Lemma payload_short_read_returns :
  remaining (dir_stream (mid_parse true "cp1252" original_cut_short 6)) = 2 /\
  stream_read 5 (mid_parse true "cp1252" original_cut_short 6) =
    Ok [x41; x42] (mid_parse true "cp1252" original_cut_short 8) /\
  peek_L 0 (mid_parse true "cp1252" original_cut_short 2) = Some 5%Z /\
  referenceoriginal_record (mid_parse true "cp1252" original_cut_short 2) =
    Raise (NameError "unicode2str")
          (mid_parse true "cp1252" original_cut_short 8).
Proof. repeat split. Qed.

(** C5, amended.  A fixed-width integer read fails with [struct.error] when
    fewer than 2 (resp. 4) bytes remain.  A payload read of [n] bytes never
    fails: it returns the [min n left] bytes that are there and leaves the
    cursor behind them; when that is fewer than [n] the cursor is at the end
    of the buffer and it is the next integer read that fails. *)
Theorem truncated_reads (s : state) (n : Z) :
  (0 <= n)%Z ->
  let left := remaining (dir_stream s) in
  (left < 2 ->
   read_H s = Raise (StructError 2 left) (advance left s)) /\
  (left < 4 ->
   read_L s = Raise (StructError 4 left) (advance left s)) /\
  stream_read n s =
    Ok (take (Z.to_nat n) (ahead 0 s)) (advance (Z.to_nat n `min` left) s) /\
  length (take (Z.to_nat n) (ahead 0 s)) = Z.to_nat n `min` left /\
  (left < Z.to_nat n ->
   (stream_read n ;; read_H) s =
     Raise (StructError 2 0) (advance left s) /\
   (stream_read n ;; read_L) s =
     Raise (StructError 4 0) (advance left s)).
Proof.
  intros Hn left.
  assert (Hlen : forall k, length (take k (ahead 0 s)) = k `min` left).
  { intros k. rewrite length_take, length_ahead. subst left. lia. }
  assert (Hend : forall k, left <= k ->
            peek_H 0 (advance k s) = None
            /\ peek_L 0 (advance k s) = None
            /\ length (take 2 (ahead 0 (advance k s))) = 0
            /\ length (take 4 (ahead 0 (advance k s))) = 0).
  { intros k Hk.
    assert (E : ahead 0 (advance k s) = []).
    { apply nil_length_inv. rewrite ahead_advance, length_ahead. subst left. lia. }
    unfold peek_H, peek_L. rewrite E. repeat split. }
  repeat split.
  - intros Hshort. rewrite read_H_fail.
    + rewrite Hlen. by replace (2 `min` left) with left by lia.
    + unfold peek_H. apply unpack_H_short. rewrite Hlen. lia.
  - intros Hshort. rewrite read_L_fail.
    + rewrite Hlen. by replace (4 `min` left) with left by lia.
    + unfold peek_L. apply unpack_L_short. rewrite Hlen. lia.
  - by rewrite stream_read_spec, Hlen.
  - apply Hlen.
  - rewrite bind_stream_read, Hlen.
    replace (Z.to_nat n `min` left) with left by lia.
    destruct (Hend left (le_n _)) as (E1 & _ & E2 & _).
    by rewrite (read_H_fail _ E1), E2, advance_advance, Nat.add_0_r.
  - rewrite bind_stream_read, Hlen.
    replace (Z.to_nat n `min` left) with left by lia.
    destruct (Hend left (le_n _)) as (_ & E1 & _ & E2).
    by rewrite (read_L_fail _ E1), E2, advance_advance, Nat.add_0_r.
Qed.

(** C5, amended, with one byte left. *)
Lemma truncated_reads_witness :
  (0 <= 5)%Z /\
  read_H (mid_parse true "cp1252" original_cut_short 7) =
    Raise (StructError 2 1) (mid_parse true "cp1252" original_cut_short 8) /\
  stream_read 5 (mid_parse true "cp1252" original_cut_short 7) =
    Ok [x42] (mid_parse true "cp1252" original_cut_short 8).
Proof.
  split; [lia|].
  pose proof (truncated_reads
                (mid_parse true "cp1252" original_cut_short 7) 5%Z
                ltac:(lia)) as H.
  destruct H as (H1 & _ & H3 & _).
  split; [apply H1; vm_compute; lia | exact H3].
Defined.

(** C6 (as the code has it).  On a stream that follows the grammar and
    carries any [lib_flags], zero or not, no project object is returned and
    no diagnostic is recorded, in relaxed and in strict mode alike: the
    PROJECTLIBFLAGS record is never reached.  The constructor itself stops
    at line 110 with [NameError] for [decompress_stream]; lines 116-417,
    given the decompressed bytes, raise [NameError] for [id_tmp] at line
    144. *)
Theorem libflags_stream_raises_NameError {cp : Codepages}
    (vba_root project_path dirpath : string) (is_relaxed : bool)
    (codepage libflags : Z) (references : bytes) (log0 : list record) :
  (forall dir_compressed, exists s0,
     vba_project_init vba_root project_path dirpath is_relaxed
       dir_compressed log0 =
     Raise (NameError "decompress_stream") s0 /\
     diagnostics s0 = List.filter is_error log0) /\
  exists s',
    parse_dir_stream
      (entry vba_root project_path dirpath is_relaxed
             (dir_stream_bytes codepage libflags references) log0) =
    Raise (NameError "id_tmp") s' /\
    diagnostics s' = List.filter is_error log0.
Proof.
  split.
  - intros dir_compressed. eexists.
    split; [apply vba_project_init_stops_at_line_110|].
    unfold diagnostics, logged, fresh_object. cbn [log].
    rewrite List.filter_app. cbn [List.filter is_error lvl].
    by rewrite app_nil_r.
  - eexists. split.
    + by apply (parse_dir_stream_stops_at_lcid _ 1%Z "32-bit Windows" 0x0002%Z).
    + unfold diagnostics, logged, bound, advance, entry. cbn [log].
      rewrite !List.filter_app. cbn [List.filter is_error lvl].
      by rewrite !app_nil_r.
Qed.

(** C7, counterexample.  The extra field 0x004A with a declared size of 2:
    the two payload bytes are there and a tag follows them, but the payload
    is handed to [struct.unpack("<L", ...)], which raises. *)
Lemma compat_payload_of_2_raises :
  peek_H 0 (mid_parse true "cp1252" compat_field_of_2 0) = Some 0x004A%Z /\
  peek_L 2 (mid_parse true "cp1252" compat_field_of_2 0) = Some 2%Z /\
  peek_H 8 (mid_parse true "cp1252" compat_field_of_2 0) = Some 0x0002%Z /\
  compat_version_fix (mid_parse true "cp1252" compat_field_of_2 0) =
    Raise (StructError 4 2) (mid_parse true "cp1252" compat_field_of_2 8).
Proof. repeat split. Qed.

(** C7, amended.  The 2-byte tag after the platform record is read into
    [id_temp].  If it is not 0x004A nothing more is consumed.  If it is, the
    4-byte declared size is read, then up to that many bytes, which are
    unpacked as one 4-byte integer: when exactly 4 bytes were obtained the
    next 2-byte tag is read fresh into [id_temp], otherwise [struct.error]
    is raised. *)
Theorem compat_version_fix_spec (s : state) (t : Z) :
  peek_H 0 s = Some t ->
  (t <> 0x004A%Z -> compat_version_fix s = Ok t (advance 2 s)) /\
  (t = 0x004A%Z ->
   forall size, peek_L 2 s = Some size ->
     let got := length (take (Z.to_nat size) (ahead 6 s)) in
     (got = 4 -> compat_version_fix s = read_H (advance 10 s)) /\
     (got <> 4 ->
      compat_version_fix s = Raise (StructError 4 got) (advance (6 + got) s))).
Proof.
  intros Ht. unfold compat_version_fix. rewrite (bind_read_H _ _ _ Ht).
  split.
  - intros Hne. apply Z.eqb_neq in Hne. by rewrite Hne.
  - intros -> size Hsize. set (got := length (take (Z.to_nat size) (ahead 6 s))).
    change (0x004A =? 0x004A)%Z with true. cbv iota.
    rewrite (bind_read_L _ _ size) by (by rewrite peek_L_advance).
    rewrite advance_advance, bind_stream_read, ahead_advance, advance_advance.
    simpl Nat.add. fold got.
    split; intros Hgot.
    + destruct (unpack_L (take (Z.to_nat size) (ahead 6 s))) as [v|] eqn:E.
      * unfold bind at 1, struct_L. rewrite E. unfold ret at 1.
        rewrite Hgot. apply bind_ret_r.
      * exfalso. subst got.
        destruct (take (Z.to_nat size) (ahead 6 s)) as [|? [|? [|? [|? [|? ?]]]]];
          simpl in *; congruence.
    + unfold bind at 1, struct_L.
      destruct (unpack_L (take (Z.to_nat size) (ahead 6 s))) as [v|] eqn:E.
      * apply unpack_L_length in E. subst got. congruence.
      * reflexivity.
Qed.

(** C7, amended, on the extra field with a 4-byte payload. *)
Lemma compat_version_fix_spec_witness :
  peek_H 0 (mid_parse true "cp1252" compat_field_of_4 0) = Some 0x004A%Z /\
  compat_version_fix (mid_parse true "cp1252" compat_field_of_4 0) =
  read_H (mid_parse true "cp1252" compat_field_of_4 10).
Proof.
  split; [reflexivity|].
  apply (proj2 (compat_version_fix_spec
                  (mid_parse true "cp1252" compat_field_of_4 0)
                  0x004A%Z eq_refl) eq_refl 4%Z eq_refl).
  reflexivity.
Defined.


End OlevbaFacts.

(* ===================================================================== *)
(** ** Properties of the driver *)
(* ===================================================================== *)

Module DriverFacts.
Import Driver.
Local Open Scope string_scope.
Local Open Scope list_scope.

(** *** Strings *)

Lemma length_append (a b : string) :
  String.length (a ++ b) = String.length a + String.length b.
Proof. induction a as [|c a IH]; simpl; [done|by rewrite IH]. Qed.

Lemma append_inj_r (a b e : string) : (a ++ e = b ++ e)%string -> a = b.
Proof.
  revert b. induction a as [|c a IH]; intros [|d b] H; simpl in H.
  - done.
  - apply (f_equal String.length) in H. simpl in H. rewrite !length_append in H.
    simpl in H. lia.
  - apply (f_equal String.length) in H. simpl in H. rewrite !length_append in H.
    simpl in H. lia.
  - injection H as -> H. f_equal. by apply IH.
Qed.

Lemma substring_all (s : string) : substring 0 (String.length s) s = s.
Proof. induction s as [|c s IH]; simpl; [reflexivity|by rewrite IH]. Qed.

Lemma substring_split (s : string) (i : nat) :
  i <= String.length s ->
  (substring 0 i s ++ substring i (String.length s - i) s)%string = s.
Proof.
  revert i. induction s as [|c s IH]; intros i Hi.
  - destruct i; reflexivity.
  - destruct i as [|i].
    + rewrite Nat.sub_0_r, substring_all. reflexivity.
    + change (String c (substring 0 i s ++ substring i (String.length s - i) s) = String c s).
      f_equal. apply IH. simpl in Hi. lia.
Qed.

Lemma rfind_dot_from_bound i s j :
  rfind_dot_from i s = Some j -> i <= j < i + String.length s.
Proof.
  revert i j. induction s as [|c s IH]; intros i j; simpl; [discriminate|].
  destruct (rfind_dot_from (S i) s) as [k|] eqn:E.
  - intros [= <-]. apply IH in E. lia.
  - destruct (Ascii.eqb c "."); [|discriminate]. intros [= <-]. lia.
Qed.

Lemma append_empty_r (s : string) : (s ++ "")%string = s.
Proof.
  induction s as [|c s IH]; [done|].
  change (String c (s ++ "") = String c s). by f_equal.
Qed.

Lemma stem_suffix (n : string) : (stem n ++ suffix n)%string = n.
Proof.
  unfold stem, suffix, rfind_dot.
  destruct (rfind_dot_from 0 n) as [i|] eqn:E.
  - apply rfind_dot_from_bound in E.
    destruct ((0 <? i)%nat && (i + 1 <? String.length n)%nat) eqn:T.
    + apply substring_split. lia.
    + apply append_empty_r.
  - apply append_empty_r.
Qed.

Lemma suffix_stem_nonempty (n : string) : suffix n <> "" -> stem n <> "".
Proof.
  unfold stem, suffix. destruct (rfind_dot n) as [i|]; [|done].
  destruct ((0 <? i)%nat && (i + 1 <? String.length n)%nat) eqn:T; [|done].
  apply andb_true_iff in T as [T1 T2]. apply Nat.ltb_lt in T1, T2.
  intros _. destruct n as [|c n]; [simpl in T2; lia|].
  destruct i as [|i]; [lia|]. done.
Qed.

Lemma rfind_dot_from_none i (s : string) :
  has_char "." s = false -> rfind_dot_from i s = None.
Proof.
  revert i. induction s as [|c s IH]; intros i H; [done|].
  change (has_char "." (String c s))
    with (Ascii.eqb "." c || has_char "." s) in H.
  apply orb_false_iff in H as [H1 H2].
  change (rfind_dot_from i (String c s))
    with (match rfind_dot_from (S i) s with
          | Some j => Some j
          | None => if Ascii.eqb c "." then Some i else None
          end).
  by rewrite (IH _ H2), Ascii.eqb_sym, H1.
Qed.

Lemma rfind_dot_from_app i (p e : string) :
  has_char "." e = false ->
  rfind_dot_from i (p ++ String "." e) = Some (i + String.length p).
Proof.
  intros He. revert i. induction p as [|c p IH]; intros i.
  - change (match rfind_dot_from (S i) e with
            | Some j => Some j
            | None => if Ascii.eqb "." "." then Some i else None
            end = Some (i + 0)).
    rewrite (rfind_dot_from_none _ _ He). simpl. f_equal. lia.
  - change (match rfind_dot_from (S i) (p ++ String "." e) with
            | Some j => Some j
            | None => if Ascii.eqb c "." then Some i else None
            end = Some (i + S (String.length p))).
    rewrite IH. f_equal. lia.
Qed.

Lemma substring_after (p s : string) n :
  substring (String.length p) n (p ++ s) = substring 0 n s.
Proof.
  induction p as [|c p IH]; [done|].
  change (substring (S (String.length p)) n (String c (p ++ s)) = substring 0 n s).
  simpl. exact IH.
Qed.

Lemma rfind_dot_from_none_inv i (s : string) :
  rfind_dot_from i s = None -> has_char "." s = false.
Proof.
  revert i. induction s as [|c s IH]; intros i; [done|].
  change (rfind_dot_from i (String c s))
    with (match rfind_dot_from (S i) s with
          | Some j => Some j
          | None => if Ascii.eqb c "." then Some i else None
          end).
  change (has_char "." (String c s)) with (Ascii.eqb "." c || has_char "." s).
  destruct (rfind_dot_from (S i) s) eqn:E; [done|].
  rewrite (IH _ E), Ascii.eqb_sym. by destruct (Ascii.eqb "." c).
Qed.

(** [s.rfind('.')] splits [s] at its last dot. *)
Lemma rfind_dot_from_split i (s : string) j :
  rfind_dot_from i s = Some j ->
  exists b e, s = (b ++ String "." e)%string /\ j = i + String.length b /\
              has_char "." e = false.
Proof.
  revert i j. induction s as [|c s IH]; intros i j; [done|].
  change (rfind_dot_from i (String c s))
    with (match rfind_dot_from (S i) s with
          | Some j => Some j
          | None => if Ascii.eqb c "." then Some i else None
          end).
  destruct (rfind_dot_from (S i) s) as [k|] eqn:E.
  - intros [= <-]. destruct (IH _ _ E) as (b & e & -> & -> & He).
    exists (String c b), e. split; [done|]. split; [simpl; lia|done].
  - destruct (Ascii.eqb_spec c ".") as [->|]; [|done]. intros [= <-].
    exists "", s. split; [done|]. split; [simpl; lia|].
    by apply rfind_dot_from_none_inv in E.
Qed.

Lemma substring_prefix (b s : string) :
  substring 0 (String.length b) (b ++ s) = b.
Proof.
  induction b as [|c b IH]; [by destruct s|].
  change (String c (substring 0 (String.length b) (b ++ s)) = String c b).
  by f_equal.
Qed.

Lemma length_0_empty (s : string) : String.length s = 0 -> s = "".
Proof. by destruct s. Qed.

(** [PurePath.stem] and [PurePath.suffix]: the name is split at its last
    dot if that dot is neither its first nor its last character, and not
    split otherwise. *)
Lemma stem_cases (n : string) :
  (exists e, n = (stem n ++ String "." e)%string /\ suffix n = String "." e /\
             stem n <> "" /\ e <> "" /\ has_char "." e = false) \/
  (stem n = n /\ suffix n = "" /\
   forall b e, n = (b ++ String "." e)%string -> has_char "." e = false ->
               b = "" \/ e = "").
Proof.
  unfold stem, suffix, rfind_dot.
  destruct (rfind_dot_from 0 n) as [i|] eqn:E.
  - destruct (rfind_dot_from_split _ _ _ E) as (b & e & -> & -> & He).
    simpl Nat.add. rewrite length_append. simpl String.length.
    destruct ((0 <? String.length b)%nat &&
              (String.length b + 1 <? String.length b + S (String.length e))%nat)
      eqn:T.
    + left. apply andb_true_iff in T as [T1 T2]. apply Nat.ltb_lt in T1, T2.
      exists e. rewrite substring_prefix, substring_after.
      replace (String.length b + S (String.length e) - String.length b)
        with (String.length (String "." e)) by (simpl; lia).
      rewrite substring_all. split; [done|]. split; [done|].
      split; [by destruct b; [simpl in T1; lia|]|].
      split; [by destruct e; [simpl in T2; lia|]|done].
    + right. split; [done|]. split; [done|]. intros b' e' Hn He'.
      pose proof (rfind_dot_from_app 0 b' e' He') as E'.
      rewrite <- Hn, (rfind_dot_from_app 0 b e He) in E'. injection E' as E'.
      apply (f_equal String.length) in Hn. rewrite !length_append in Hn.
      simpl in Hn, E'.
      apply andb_false_iff in T as [T|T];
        [apply Nat.ltb_ge in T|apply Nat.ltb_ge in T].
      * left. apply length_0_empty. lia.
      * right. apply length_0_empty. lia.
  - right. split; [done|]. split; [done|]. intros b e -> He.
    by rewrite (rfind_dot_from_app 0 b e He) in E.
Qed.

(** *** Source paths *)

Lemma accepted_spec f :
  accepted f = true <->
  String.prefix "~$" (name f) = false /\
  In (lower (suffix (name f))) OFFICE_FILE_EXTENSIONS.
Proof.
  unfold accepted. rewrite andb_true_iff, negb_true_iff, existsb_exists.
  split; intros [H1 H2]; split; try exact H1.
  - destruct H2 as (x & Hx & E). apply String.eqb_eq in E. by subst x.
  - exists (lower (suffix (name f))). split; [exact H2|apply String.eqb_refl].
Qed.

Lemma glob_spec fs p recursive q :
  In q (glob fs p recursive) <->
  p `prefix_of` q /\ is_Some (fs !! q) /\
  (if recursive then length p < length q else length q = S (length p)).
Proof.
  unfold glob. rewrite filter_In, in_map_iff, andb_true_iff, bool_decide_eq_true.
  split.
  - intros ([[k v] [<- Hkv]] & Hpre & Hlen). simpl in *.
    apply list_elem_of_In, elem_of_map_to_list in Hkv.
    split; [exact Hpre|]. split; [by exists v|].
    destruct recursive; [by apply Nat.ltb_lt|by apply Nat.eqb_eq].
  - intros (Hpre & [v Hv] & Hlen). split; [|split; [exact Hpre|]].
    + exists (q, v). split; [done|].
      by apply list_elem_of_In, elem_of_map_to_list.
    + destruct recursive; [by apply Nat.ltb_lt|by apply Nat.eqb_eq].
Qed.

(** C9, counterexample.  A source argument that is not a directory is
    yielded as it is: a text file and a lock file named on the command line
    are both processed. *)
Lemma named_files_are_not_filtered :
  get_source_paths sample_fs ["w"]
    [mkPath false ["n.txt"]; mkPath true ["w"; "~$B.XLS"]] false =
    [["w"; "n.txt"]; ["w"; "~$B.XLS"]] /\
  ~ In (lower (suffix (name ["w"; "n.txt"]))) OFFICE_FILE_EXTENSIONS /\
  String.prefix "~$" (name ["w"; "~$B.XLS"]) = true.
Proof.
  split; [vm_compute; reflexivity|]. split; [|reflexivity].
  vm_compute. intros H. repeat (destruct H as [H|H]; [discriminate H|]). exact H.
Qed.

(** C9, amended.  The paths the driver processes are exactly these: every
    source argument that is not a directory, taken as given without any
    test of its name; and, for a source argument that is a directory, every
    entry in it (with [--recursive]: below it) whose name does not start
    with ["~$"] and whose lower-cased suffix is in the allow-list. *)
Theorem source_paths_filtered (fs : gmap (list string) node) (cwd : Path)
    (sources : list PurePath) (recursive : bool) (y : Path) :
  In y (get_source_paths fs cwd sources recursive) <->
  exists src,
    In src sources /\
    ((is_dir fs (absolute cwd src) = false /\ y = absolute cwd src) \/
     (is_dir fs (absolute cwd src) = true /\
      absolute cwd src `prefix_of` y /\ is_Some (fs !! y) /\
      (if recursive then length (absolute cwd src) < length y
       else length y = S (length (absolute cwd src))) /\
      String.prefix "~$" (name y) = false /\
      In (lower (suffix (name y))) OFFICE_FILE_EXTENSIONS)).
Proof.
  unfold get_source_paths. rewrite in_flat_map.
  split; intros (src & Hsrc & Hy); exists src; (split; [exact Hsrc|]).
  - destruct (is_dir fs (absolute cwd src)) eqn:E.
    + right. split; [reflexivity|].
      apply filter_In in Hy as [Hglob Hacc].
      apply glob_spec in Hglob as (Hpre & Hsome & Hlen).
      apply accepted_spec in Hacc as [H1 H2]. by repeat split.
    + left. split; [reflexivity|]. simpl in Hy. by destruct Hy as [<-|[]].
  - destruct Hy as [[E ->]|(E & Hpre & Hsome & Hlen & H1 & H2)]; rewrite E.
    + by left.
    + apply filter_In. split; [by apply glob_spec|by apply accepted_spec].
Qed.

(** C9, amended, on the working directory given as the source: the
    workbook in it is processed, its lock file and the text file are not. *)
Lemma source_paths_filtered_witness :
  In ["w"; "B.XLS"]
     (get_source_paths sample_fs ["w"] [mkPath false []] true) /\
  ~ In ["w"; "~$B.XLS"]
       (get_source_paths sample_fs ["w"] [mkPath false []] true) /\
  ~ In ["w"; "n.txt"]
       (get_source_paths sample_fs ["w"] [mkPath false []] true).
Proof.
  split; [|split].
  - apply (source_paths_filtered sample_fs ["w"] [mkPath false []] true
             ["w"; "B.XLS"]).
    exists (mkPath false []). split; [by left|]. right.
    repeat split; [by exists ["B.XLS"]|by exists (File "")|simpl; lia|].
    simpl. tauto.
  - intros H.
    destruct (proj1 (source_paths_filtered sample_fs ["w"] [mkPath false []]
                       true ["w"; "~$B.XLS"]) H)
      as (src & [<-|[]] & [[H1 _]|H1]); [discriminate H1|].
    clear H. rename H1 into H.
    by destruct H as (_ & _ & _ & _ & H & _).
  - intros H.
    destruct (proj1 (source_paths_filtered sample_fs ["w"] [mkPath false []]
                       true ["w"; "n.txt"]) H)
      as (src & [<-|[]] & [[H1 _]|H1]); [discriminate H1|].
    clear H. rename H1 into H.
    destruct H as (_ & _ & _ & _ & _ & H). simpl in H.
    repeat (destruct H as [H|H]; [discriminate H|]). exact H.
Defined.

(** *** Directories *)

Lemma paths_down_snoc from_ p x :
  paths_down from_ (p ++ [x]) = paths_down from_ p ++ [from_ ++ p ++ [x]].
Proof.
  revert from_. induction p as [|y p IH]; intros from_; simpl.
  - reflexivity.
  - rewrite IH. by rewrite <- !app_assoc.
Qed.

Lemma in_paths_down from_ p q :
  In q (paths_down from_ p) -> from_ `prefix_of` q /\ q <> from_ /\ q `prefix_of` from_ ++ p.
Proof.
  revert from_. induction p as [|x p IH]; intros from_; simpl; [done|].
  intros [<-|H].
  - repeat split.
    + by apply prefix_app_r.
    + intros E. apply (f_equal length) in E. rewrite length_app in E. simpl in E. lia.
    + apply prefix_app. by apply prefix_cons, prefix_nil.
  - apply IH in H as (H1 & H2 & H3). repeat split.
    + by apply (prefix_app_l _ _ [x]).
    + intros ->. apply (prefix_snoc_not _ _ H1).
    + by rewrite <- app_assoc in H3.
Qed.

Lemma ancestors_and_self_snoc p x :
  ancestors_and_self (p ++ [x]) = ancestors_and_self p ++ [p ++ [x]].
Proof. unfold ancestors_and_self. by rewrite paths_down_snoc. Qed.

Lemma in_ancestors_and_self p q :
  In q (ancestors_and_self p) -> q <> [] /\ q `prefix_of` p.
Proof. intros H. apply in_paths_down in H as (_ & H1 & H2). done. Qed.

Lemma mkdirs_keeps_dir (ps : list Path) (fs fs' : gmap (list string) node) q :
  mkdirs ps fs = inr fs' -> fs !! q = Some Dir -> fs' !! q = Some Dir.
Proof.
  revert fs. induction ps as [|p ps IH]; intros fs; simpl.
  - by intros [= <-].
  - destruct (fs !! p) as [[|t]|] eqn:E; [apply IH|done|].
    intros H Hq. apply (IH _ H).
    destruct (decide (p = q)) as [->|Hne]; [by rewrite lookup_insert_eq|].
    by rewrite lookup_insert_ne.
Qed.

Lemma mkdirs_made (ps : list Path) (fs fs' : gmap (list string) node) q :
  mkdirs ps fs = inr fs' -> In q ps ->
  fs' !! q = Some Dir /\ (fs !! q = None \/ fs !! q = Some Dir).
Proof.
  revert fs. induction ps as [|p ps IH]; intros fs; simpl; [done|].
  destruct (fs !! p) as [[|t]|] eqn:E; [| done |].
  - intros H [<-|Hin].
    + split; [by apply (mkdirs_keeps_dir _ _ _ _ H)|by right].
    + by apply IH.
  - intros H [<-|Hin].
    + split; [|by left].
      apply (mkdirs_keeps_dir _ _ _ _ H). by rewrite lookup_insert_eq.
    + destruct (IH _ H Hin) as [H1 H2]. split; [exact H1|].
      destruct (decide (p = q)) as [->|Hne]; [by left|].
      by rewrite lookup_insert_ne in H2.
Qed.

Lemma mkdirs_frame (ps : list Path) (fs fs' : gmap (list string) node) q :
  mkdirs ps fs = inr fs' -> ~ In q ps -> fs' !! q = fs !! q.
Proof.
  revert fs. induction ps as [|p ps IH]; intros fs; simpl.
  - by intros [= <-].
  - intros H Hq. destruct (fs !! p) as [[|t]|] eqn:E; [| done |].
    + apply IH; tauto.
    + rewrite (IH _ H) by tauto. apply lookup_insert_ne. tauto.
Qed.

Lemma mkdirs_app (ps qs : list Path) (fs fs' : gmap (list string) node) :
  mkdirs ps fs = inr fs' -> mkdirs (ps ++ qs) fs = mkdirs qs fs'.
Proof.
  revert fs. induction ps as [|p ps IH]; intros fs; simpl.
  - by intros [= <-].
  - destruct (fs !! p) as [[|t]|] eqn:E; [apply IH|done|apply IH].
Qed.

Lemma mkdirs_all_there (ps : list Path) (fs : gmap (list string) node) :
  (forall q, In q ps -> fs !! q = Some Dir) -> mkdirs ps fs = inr fs.
Proof.
  induction ps as [|p ps IH]; simpl; [done|]. intros H.
  rewrite (H p) by (by left). apply IH. intros q Hq. apply H. by right.
Qed.

(** [mkdir(parents=True, exist_ok=True)] succeeds unless a file is in the
    way. *)
Lemma mkdirs_succeeds (ps : list Path) (fs : gmap (list string) node) :
  (forall q t, In q ps -> fs !! q <> Some (File t)) ->
  exists fs', mkdirs ps fs = inr fs'.
Proof.
  revert fs. induction ps as [|p ps IH]; intros fs H; simpl; [by eexists|].
  destruct (fs !! p) as [[|t]|] eqn:E.
  - apply IH. intros q t Hq. apply H. by right.
  - exfalso. apply (H p t); [by left|exact E].
  - apply IH. intros q t Hq.
    destruct (decide (p = q)) as [->|Hne]; [by rewrite lookup_insert_eq|].
    rewrite lookup_insert_ne by done. apply H. by right.
Qed.

Lemma stat_nonempty (fs : gmap (list string) node) p : p <> [] -> stat fs p = fs !! p.
Proof. by destruct p. Qed.

Lemma lookup_filter_keep (fs : gmap (list string) node) (p q : Path) :
  ~ p `prefix_of` q ->
  filter (fun kv : list string * node => ~ p `prefix_of` kv.1) fs !! q = fs !! q.
Proof.
  intros Hq. destruct (fs !! q) as [x|] eqn:E.
  - by apply map_lookup_filter_Some_2.
  - apply map_lookup_filter_None_2. by left.
Qed.

Lemma lookup_filter_drop (fs : gmap (list string) node) (p q : Path) :
  p `prefix_of` q ->
  filter (fun kv : list string * node => ~ p `prefix_of` kv.1) fs !! q = None.
Proof.
  intros Hq. apply map_lookup_filter_None_2. right. intros x _ H. by apply H.
Qed.

Lemma in_ancestors_self (p : Path) x : In (p ++ [x]) (ancestors_and_self (p ++ [x])).
Proof. rewrite ancestors_and_self_snoc, in_app_iff. right. by left. Qed.

Lemma mkdirs_grows (ps : list Path) (fs fs' : gmap (list string) node) q :
  mkdirs ps fs = inr fs' ->
  fs' !! q = fs !! q \/ (fs !! q = None /\ fs' !! q = Some Dir /\ In q ps).
Proof.
  intros H. destruct (decide (q ∈ ps)) as [Hin|Hout]; rewrite list_elem_of_In in *.
  - destruct (mkdirs_made _ _ _ q H Hin) as [H1 [H2|H2]].
    + by right.
    + left. congruence.
  - left. by apply (mkdirs_frame _ _ _ _ H).
Qed.

Lemma mkdirs_fails (ps : list Path) (fs : gmap (list string) node) e :
  mkdirs ps fs = inl e -> exists q t, In q ps /\ fs !! q = Some (File t).
Proof.
  revert fs. induction ps as [|p ps IH]; intros fs; simpl; [done|].
  destruct (fs !! p) as [[|t]|] eqn:E.
  - intros H. destruct (IH _ H) as (q & t & Hq & Ht). exists q, t. split; [by right|done].
  - intros _. exists p, t. split; [by left|done].
  - intros H. destruct (IH _ H) as (q & t & Hq & Ht). exists q, t. split; [by right|].
    destruct (decide (p = q)) as [->|Hne]; [by rewrite lookup_insert_eq in Ht|].
    by rewrite lookup_insert_ne in Ht.
Qed.

Lemma mkdirs_blocked (ps : list Path) (fs : gmap (list string) node) q t :
  In q ps -> fs !! q = Some (File t) -> exists e, mkdirs ps fs = inl e.
Proof.
  intros Hq Ht. destruct (mkdirs ps fs) as [e|fs'] eqn:E; [by exists e|].
  destruct (mkdirs_made _ _ _ q E Hq) as [_ [H|H]]; congruence.
Qed.

Lemma in_ancestors_iff (p q : Path) :
  In q (ancestors_and_self p) <-> q <> [] /\ q `prefix_of` p.
Proof.
  split; [apply in_ancestors_and_self|].
  intros [Hne [k ->]]. revert k. induction q as [|x q IH] using rev_ind; [done|].
  intros k. clear Hne IH. induction k as [|y k IHk] using rev_ind.
  - rewrite app_nil_r. apply in_ancestors_self.
  - rewrite app_assoc, ancestors_and_self_snoc, in_app_iff. by left.
Qed.

Lemma prefix_longer (p q : Path) : p `prefix_of` q -> length q < length p -> False.
Proof. intros H. apply prefix_length in H. lia. Qed.

(** *** Lines 449-453 *)

Implicit Types (root source dest p q : Path).

Lemma joinpath_component (p : Path) (s : string) :
  component s = true -> joinpath p s = p ++ [s].
Proof.
  unfold component, joinpath. intros H.
  repeat (apply andb_true_iff in H as [H ?]).
  apply negb_true_iff in H. rewrite H.
  by match goal with H : negb (String.eqb s ".") = true |- _ =>
       apply negb_true_iff in H; rewrite H end.
Qed.

Lemma dest_of_dot (root source : Path) :
  stem (name source) = "." -> dest_of root source = root.
Proof. unfold dest_of. by intros ->. Qed.

Lemma prepare_dest_inr root source (fs fs1 : gmap (list string) node) :
  prepare_dest root source fs = inr fs1 ->
  stem (name source) <> ".." /\ dest_of root source <> [] /\
  exists fs0,
    mkdirs (ancestors_and_self (dest_of root source)) fs = inr fs0 /\
    fs1 = filter (fun kv : list string * node =>
                    ~ dest_of root source `prefix_of` kv.1) fs0.
Proof.
  unfold prepare_dest, mkdir_parents_exist_ok.
  destruct (String.eqb_spec (stem (name source)) "..") as [E|E].
  - by destruct (mkdirs _ fs).
  - destruct (mkdirs _ fs) as [e|fs0]; [done|].
    unfold rmtree. destruct (dest_of root source) as [|x d] eqn:D; [done|].
    destruct (stat fs0 _) as [[|t]|]; [|done|done].
    intros [= <-]. split; [done|]. split; [done|]. by exists fs0.
Qed.

Lemma prepare_dest_inl root source (fs : gmap (list string) node) e :
  prepare_dest root source fs = inl e ->
  stem (name source) = ".." \/ dest_of root source = [] \/
  exists q t, q <> [] /\ q `prefix_of` dest_of root source /\
              fs !! q = Some (File t).
Proof.
  unfold prepare_dest, mkdir_parents_exist_ok.
  destruct (String.eqb_spec (stem (name source)) "..") as [E|E]; [by left|].
  right. destruct (dest_of root source) as [|x d] eqn:D; [by left|right].
  destruct (mkdirs _ fs) as [e'|fs0] eqn:M.
  - apply mkdirs_fails in M as (q & t & Hq & Ht).
    apply in_ancestors_and_self in Hq. exists q, t. tauto.
  - exfalso. unfold rmtree in H. rewrite stat_nonempty in H by done.
    destruct (mkdirs_made _ _ _ (x :: d) M) as [E1 _].
    + apply in_ancestors_iff. by split.
    + by rewrite E1 in H.
Qed.

Lemma prepare_dest_returns root source (fs : gmap (list string) node) :
  stem (name source) <> ".." -> dest_of root source <> [] ->
  (forall q t, q <> [] -> q `prefix_of` dest_of root source ->
               fs !! q <> Some (File t)) ->
  exists fs1, prepare_dest root source fs = inr fs1.
Proof.
  intros E D Hfree.
  destruct (prepare_dest root source fs) as [e|fs1] eqn:P; [|by exists fs1].
  apply prepare_dest_inl in P as [P|[P|(q & t & H1 & H2 & H3)]]; [done|done|].
  by destruct (Hfree q t H1 H2).
Qed.

(** What lines 452-453 leave: the ancestors of [dest] are directories,
    nothing is at or below [dest], and the rest is as it was, but for
    ancestors that were missing. *)
Lemma prepared root source (fs fs1 : gmap (list string) node) :
  prepare_dest root source fs = inr fs1 ->
  (forall q, q <> [] -> q `prefix_of` dest_of root source ->
             q <> dest_of root source -> fs1 !! q = Some Dir) /\
  nothing_below (dest_of root source) fs1 /\
  (forall q, ~ dest_of root source `prefix_of` q ->
     fs1 !! q = fs !! q \/
     (fs !! q = None /\ fs1 !! q = Some Dir /\ q `prefix_of` dest_of root source)).
Proof.
  intros H. apply prepare_dest_inr in H as (_ & _ & fs0 & M & ->).
  split; [|split].
  - intros q Hne Hq Hd. rewrite lookup_filter_keep.
    + apply (mkdirs_made _ _ _ q M). by apply in_ancestors_iff.
    + intros Hp. apply Hd. by apply (anti_symm prefix).
  - intros q Hq. by apply lookup_filter_drop.
  - intros q Hq. rewrite lookup_filter_keep by done.
    destruct (mkdirs_grows _ _ _ q M) as [E|(E1 & E2 & E3)]; [by left|right].
    apply in_ancestors_and_self in E3. tauto.
Qed.

(** The first [get_outputpath] below a directory that is not there makes it
    and the sub directory. *)
Lemma get_outputpath_below_absent (dest : Path) (filename : string)
    (use_orig_extension : bool) (fs : gmap (list string) node) :
  dest <> [] ->
  (forall q, q <> [] -> q `prefix_of` dest -> q <> dest -> fs !! q = Some Dir) ->
  nothing_below dest fs ->
  get_outputpath dest filename use_orig_extension fs =
  inr (dest ++ [kind_of filename;
                (filename ++ (if use_orig_extension then "" else ".vb"))%string],
       <[dest ++ [kind_of filename] := Dir]> (<[dest := Dir]> fs)).
Proof.
  intros Hne Hup Hnb.
  set (subdir := dest ++ [kind_of filename]).
  assert (Hsub : dest <> subdir).
  { unfold subdir. intros E. apply (f_equal length) in E.
    rewrite length_app in E. simpl in E. lia. }
  unfold get_outputpath. fold subdir.
  unfold exists_. rewrite stat_nonempty by (unfold subdir; by destruct dest).
  rewrite Hnb by (unfold subdir; by apply prefix_app_r).
  unfold mkdir_parents_exist_ok, subdir.
  rewrite ancestors_and_self_snoc.
  destruct dest as [|x d _] using rev_ind; [done|].
  rewrite ancestors_and_self_snoc, <- app_assoc.
  rewrite (mkdirs_app _ _ fs fs).
  - simpl. rewrite Hnb by done.
    rewrite lookup_insert_ne by done.
    rewrite Hnb by (by apply prefix_app_r).
    by rewrite <- !app_assoc.
  - apply mkdirs_all_there. intros q Hq. apply in_ancestors_iff in Hq as [H1 H2].
    apply Hup; [done|by apply prefix_app_r|].
    intros ->. apply prefix_length in H2. rewrite length_app in H2. simpl in H2. lia.
Qed.

(** C10.  For every source that is processed, the two statements that open
    the loop body leave nothing at or below its directory.

    The directory is [root.joinpath(basename)], where [basename] is the
    name of the source up to its last dot, if that dot is neither the first
    nor the last character of the name, and the whole name otherwise: a
    child of the output root named [basename], except that it is the root
    itself for the base name ["."] (a workbook named ["..xls"]).

    Lines 452-453 get through unless the base name is [".."] (a workbook
    named ["...xls"], for which [rmtree] fails), the directory is the root
    directory, or a regular file is where the directory or one of its
    ancestors has to be.  The directory is created if it was absent and
    then removed with all it holds, so whatever an earlier run left there
    is gone; entries outside it are kept, but for missing ancestors, which
    stay created.  The directory stays absent if no module is written, and
    is there again, together with the output sub directory, after the
    first [get_outputpath]. *)
Theorem dest_removed_until_first_write (fs : gmap (list string) node)
    (root source : Path) :
  let basename := stem (name source) in
  let dest := dest_of root source in
  (((exists e, name source = (basename ++ String "." e)%string /\
               basename <> "" /\ e <> "" /\ has_char "." e = false) \/
    (basename = name source /\
     forall b e, name source = (b ++ String "." e)%string ->
                 has_char "." e = false -> b = "" \/ e = "")) /\
   (component basename = true -> dest = root ++ [basename]) /\
   (basename = "." -> dest = root)) /\
  ((exists fs1, prepare_dest root source fs = inr fs1) <->
   basename <> ".." /\ dest <> [] /\
   forall q t, q <> [] -> q `prefix_of` dest -> fs !! q <> Some (File t)) /\
  (forall fs1, prepare_dest root source fs = inr fs1 ->
     (forall q, dest `prefix_of` q -> fs1 !! q = None) /\
     (forall q, ~ dest `prefix_of` q ->
        fs1 !! q = fs !! q \/
        (fs !! q = None /\ fs1 !! q = Some Dir /\ q `prefix_of` dest)) /\
     (forall use_orig_extension,
        process_source root source use_orig_extension [] fs = inr fs1) /\
     (forall (filename : string) (use_orig_extension : bool),
        component (filename ++ (if use_orig_extension then "" else ".vb"))%string
          = true ->
        exists fs2,
          get_outputpath dest filename use_orig_extension fs1 =
            inr (dest ++ [kind_of filename;
                          (filename ++ (if use_orig_extension then "" else ".vb"))%string],
                 fs2) /\
          fs2 !! dest = Some Dir /\
          fs2 !! (dest ++ [kind_of filename]) = Some Dir /\
          (forall q, q <> dest -> q <> dest ++ [kind_of filename] ->
                     fs2 !! q = fs1 !! q))).
Proof.
  intros basename dest. subst basename dest. split; [|split].
  - split; [|split].
    + destruct (stem_cases (name source)) as [(e & H1 & _ & H2)|(H1 & _ & H2)].
      * left. by exists e.
      * by right.
    + apply joinpath_component.
    + apply dest_of_dot.
  - split.
    + intros [fs1 P]. apply prepare_dest_inr in P as (H1 & H2 & fs0 & M & _).
      split; [done|]. split; [done|]. intros q t Hne Hq Hf.
      destruct (mkdirs_blocked _ _ q t (proj2 (in_ancestors_iff _ _) (conj Hne Hq)) Hf)
        as [e He].
      congruence.
    + intros (H1 & H2 & H3). by apply prepare_dest_returns.
  - intros fs1 P.
    pose proof (prepare_dest_inr _ _ _ _ P) as (_ & Hne & _).
    pose proof (prepared _ _ _ _ P) as (Hup & Hnb & Hout).
    split; [exact Hnb|]. split; [exact Hout|]. split.
    + intros use_orig_extension. unfold process_source. by rewrite P.
    + intros filename use_orig_extension _.
      eexists. split; [by apply get_outputpath_below_absent|].
      assert (Hsub : dest_of root source <> dest_of root source ++ [kind_of filename]).
      { intros E. apply (f_equal length) in E.
        rewrite length_app in E. simpl in E. lia. }
      split; [|split].
      * rewrite lookup_insert_ne by (by intros E; apply Hsub).
        by rewrite lookup_insert_eq.
      * by rewrite lookup_insert_eq.
      * intros q H1 H2. by rewrite !lookup_insert_ne.
Qed.

(** C10 on the output tree an earlier run left for the workbook. *)
Lemma dest_removed_until_first_write_witness :
  dest_of ["w"; "out"] ["w"; "B.XLS"] = ["w"; "out"; "B"] /\
  dest_of ["w"; "out"] ["w"; "..xls"] = ["w"; "out"] /\
  prepare_dest ["w"; "out"] ["w"; "B.XLS"] sample_fs = inr sample_fs_cleared /\
  (forall q, ["w"; "out"; "B"] `prefix_of` q -> sample_fs_cleared !! q = None) /\
  sample_fs !! ["w"; "out"; "B"; "old"] = Some (File "Sub Old()").
Proof.
  assert (E : prepare_dest ["w"; "out"] ["w"; "B.XLS"] sample_fs =
              inr sample_fs_cleared)
    by (vm_cast_no_check (@eq_refl _ (@inr OSError _ sample_fs_cleared))).
  split; [reflexivity|]. split; [reflexivity|].
  split; [exact E|]. split; [|reflexivity].
  exact (proj1 (proj2 (proj2 (dest_removed_until_first_write sample_fs
                                ["w"; "out"] ["w"; "B.XLS"]))
                      sample_fs_cleared E)).
Defined.

End DriverFacts.

(* ===================================================================== *)
(** ** More about the parser *)
(* ===================================================================== *)

Module OlevbaMore.
Import Stream Olevba OlevbaFacts.
Local Open Scope py_scope.
Local Open Scope string_scope.
Local Open Scope list_scope.

(** *** The cursor *)


Lemma cursor_step_refl s : cursor_step s s.
Proof. unfold cursor_step. auto. Qed.

Lemma cursor_step_trans s1 s2 s3 :
  cursor_step s1 s2 -> cursor_step s2 s3 -> cursor_step s1 s3.
Proof.
  unfold cursor_step. intros (B1 & M1 & D1 & L1 & I1) (B2 & M2 & D2 & L2 & I2).
  rewrite B1 in *. repeat split; try congruence; try lia.
Qed.

Lemma cursor_step_advance_read n s :
  cursor_step s (advance (length (take n (ahead 0 s))) s).
Proof.
  unfold cursor_step, advance, ahead, pos, buf. simpl.
  rewrite length_take, length_drop. repeat split; lia.
Qed.

Abbreviation safe := (respects cursor_step any_exn).

Lemma safe_ret {A} (a : A) : safe (ret a).
Proof. apply respects_ret, cursor_step_refl. Qed.

Lemma safe_bind {A B} (m : M A) (k : A -> M B) :
  safe m -> (forall a, safe (k a)) -> safe (bind m k).
Proof.
  apply respects_bind; [apply cursor_step_trans|done].
Qed.

Lemma safe_raise {A} e : safe (@raise A e).
Proof. intros s. split; [apply cursor_step_refl|exact I]. Qed.

Lemma safe_raise_at {A} (f : state -> exn) : safe (fun s => @Raise A (f s) s).
Proof. intros s. split; [apply cursor_step_refl|exact I]. Qed.

Lemma safe_setattr n v : safe (setattr n v).
Proof. intros s. simpl. apply (cursor_step_refl s). Qed.

Lemma safe_getattr n : safe (getattr n).
Proof.
  intros s. unfold getattr. destruct (assoc n (attrs s)); simpl;
    [|split; [|exact I]]; apply cursor_step_refl.
Qed.

Lemma safe_emit r : safe (emit r).
Proof. intros s. simpl. apply (cursor_step_refl s). Qed.

Lemma safe_stream_read n : safe (stream_read n).
Proof. intros s. rewrite stream_read_spec. apply cursor_step_advance_read. Qed.

Lemma safe_struct_H data : safe (struct_H data).
Proof.
  intros s. unfold struct_H. destruct (unpack_H data); simpl;
    [|split; [|exact I]]; apply cursor_step_refl.
Qed.

Lemma safe_struct_L data : safe (struct_L data).
Proof.
  intros s. unfold struct_L. destruct (unpack_L data); simpl;
    [|split; [|exact I]]; apply cursor_step_refl.
Qed.

Lemma safe_check_value n e v : safe (check_value n e v).
Proof.
  intros s. unfold check_value.
  destruct (e =? v)%Z; [apply cursor_step_refl|].
  destruct (relaxed s); simpl; [|split; [|exact I]]; apply (cursor_step_refl s).
Qed.

Create HintDb safe discriminated.
#[local] Hint Resolve @safe_ret @safe_raise @safe_raise_at @safe_setattr
  @safe_getattr @safe_emit @safe_stream_read @safe_struct_H @safe_struct_L
  @safe_check_value : safe.

Ltac safe_step :=
  match goal with
  | |- respects _ _ (bind _ _) => apply safe_bind; [|intro]
  | |- respects _ _ (if ?b then _ else _) => destruct b
  | |- respects _ _ (match ?x with _ => _ end) => destruct x
  | |- respects _ _ (log_debug _ _) => apply safe_emit
  | |- respects _ _ (log_error _ _) => apply safe_emit
  | |- respects _ _ read_H => unfold read_H
  | |- respects _ _ read_L => unfold read_L
  | |- respects _ _ (decode_bytes _) => unfold decode_bytes
  | |- respects _ _ (debug_decoded _ _) => unfold debug_decoded
  | |- respects _ _ _ => solve [auto with safe]
  end.
Ltac safe_tac := repeat safe_step.

Lemma safe_reference_pass : safe reference_pass.
Proof.
  unfold reference_pass, referencename_record, reference_dispatch,
    referenceoriginal_record, referencecontrol_record,
    referenceregistered_record, referenceproject_record.
  safe_tac.
Qed.


Section HeaderSafe.
Context {cp : Codepages}.

Lemma safe_projectlcid_fields id : safe (projectlcid_fields id).
Proof. unfold projectlcid_fields. safe_tac. Qed.

Lemma safe_header_records :
  safe projectsyskind_record /\ safe compat_version_fix /\
  safe projectlcidinvoke_record /\ safe projectcodepage_record /\
  safe projectname_record /\ safe projectdocstring_record /\
  safe projecthelpfilepath_record /\ safe projecthelpcontext_record /\
  safe projectlibflags_record /\ safe projectversion_record /\
  safe projectconstants_record.
Proof.
  unfold projectsyskind_record, compat_version_fix,
    projectlcidinvoke_record, projectcodepage_record, projectname_record,
    projectdocstring_record, projecthelpfilepath_record,
    projecthelpcontext_record, projectlibflags_record, projectversion_record,
    projectconstants_record.
  repeat apply conj; safe_tac.
Qed.

End HeaderSafe.

Lemma remaining_decreases s s' :
  buf s' = buf s -> pos s + 2 <= pos s' -> pos s + 2 <= length (buf s) ->
  remaining (dir_stream s') < remaining (dir_stream s).
Proof.
  unfold remaining. fold (buf s) (pos s) (buf s') (pos s'). intros ->. lia.
Qed.

Lemma safe_reference_array : safe reference_array.
Proof.
  intros s. remember (remaining (dir_stream s)) as n eqn:Hn.
  revert s Hn. induction n as [n IH] using lt_wf_ind. intros s ->.
  rewrite reference_array_unfold.
  pose proof (safe_reference_pass s) as Hs.
  pose proof (reference_pass_progress s) as Hp.
  destruct (reference_pass s) as [[|] s'|e s'|]; try done.
  destruct Hp as (Hb & Hp & Hl).
  specialize (IH _ (remaining_decreases _ _ Hb Hp Hl) s' eq_refl).
  destruct (reference_array s') as [[] s2|e s2|]; [|destruct IH as [IH _]; split; [|done]|done];
    by apply (cursor_step_trans _ _ _ Hs).
Qed.


Section AfterLcid.
Context {cp : Codepages}.

Lemma safe_records_after_lcid : safe records_after_lcid.
Proof.
  destruct safe_header_records as (_ & _ & H1 & H2 & H3 & H4 & H5 & H6 & H7 & H8 & H9).
  pose proof safe_reference_array.
  unfold records_after_lcid. safe_tac.
Qed.

Lemma safe_parse_dir_stream : safe parse_dir_stream.
Proof.
  destruct safe_header_records as (H1 & H2 & _).
  pose proof safe_records_after_lcid. pose proof safe_projectlcid_fields.
  unfold parse_dir_stream, projectlcid_record. safe_tac.
Qed.

(** X1.  Whatever the stream and the mode, the parse ends; it leaves the
    buffer and the mode as they were, never moves the cursor back, and a
    cursor that starts inside the buffer is inside it at the end, normal or
    exceptional.  The same holds of the records after PROJECTLCID and of the
    reference loop on their own. *)
Theorem cursor_stays_in_buffer (m : M unit) (s : state) :
  m = parse_dir_stream \/ m = records_after_lcid \/ m = reference_array ->
  pos s <= length (buf s) ->
  match m s with
  | Ok _ s' | Raise _ s' =>
      buf s' = buf s /\ relaxed s' = relaxed s /\
      pos s <= pos s' <= length (buf s)
  | OutOfFuel => False
  end.
Proof.
  intros Hm Hpos.
  assert (Hs : safe m).
  { destruct Hm as [->|[->| ->]];
      [apply safe_parse_dir_stream|apply safe_records_after_lcid
      |apply safe_reference_array]. }
  specialize (Hs s).
  destruct (m s) as [[] s'|e s'|]; [|destruct Hs as [Hs _]|done];
    destruct Hs as (B & R & _ & L & I); repeat split; auto.
Qed.

End AfterLcid.

(** *** Integers *)

Lemma byte_to_Z_range b : (0 <= byte_to_Z b < 256)%Z.
Proof.
  unfold byte_to_Z. pose proof (Byte.to_N_bounded b) as H.
  split; [apply N2Z.is_nonneg|].
  change 256%Z with (Z.of_N 256). apply N2Z.inj_lt. lia.
Qed.

Lemma lor_range a b n :
  (0 <= n -> 0 <= a < 2 ^ n -> 0 <= b < 2 ^ n -> 0 <= Z.lor a b < 2 ^ n)%Z.
Proof.
  intros Hn Ha Hb. split; [apply Z.lor_nonneg; lia|].
  destruct (Z.eq_dec (Z.lor a b) 0%Z) as [->|Hne]; [lia|].
  destruct (Z.eq_dec n 0%Z) as [->|Hn0].
  { change (2 ^ 0)%Z with 1%Z in *. replace a with 0%Z in Hne by lia.
    replace b with 0%Z in Hne by lia. done. }
  apply Z.log2_lt_pow2; [pose proof (Z.lor_nonneg a b); lia|].
  rewrite Z.log2_lor by lia.
  apply Z.max_lub_lt.
  - destruct (Z.eq_dec a 0%Z) as [->|?]; [simpl; lia|apply Z.log2_lt_pow2; lia].
  - destruct (Z.eq_dec b 0%Z) as [->|?]; [simpl; lia|apply Z.log2_lt_pow2; lia].
Qed.

(** X3.  [struct.unpack] accepts exactly 2 bytes for "<H" and exactly 4 for
    "<L", and what it returns is in [0, 2^16), resp. [0, 2^32): every tag
    and every declared size the parser reads is a non-negative number below
    that bound. *)
Theorem unpack_range (data : bytes) (v : Z) :
  (unpack_H data = Some v -> length data = 2 /\ (0 <= v < 2 ^ 16)%Z) /\
  (unpack_L data = Some v -> length data = 4 /\ (0 <= v < 2 ^ 32)%Z).
Proof.
  split; intros H.
  - split; [by apply unpack_H_length in H|].
    destruct data as [|b0 [|b1 [|? ?]]]; try discriminate. injection H as <-.
    pose proof (byte_to_Z_range b0). pose proof (byte_to_Z_range b1).
    rewrite Z.shiftl_mul_pow2 by lia.
    apply lor_range; lia.
  - split; [by apply unpack_L_length in H|].
    destruct data as [|b0 [|b1 [|b2 [|b3 [|? ?]]]]]; try discriminate.
    injection H as <-.
    pose proof (byte_to_Z_range b0). pose proof (byte_to_Z_range b1).
    pose proof (byte_to_Z_range b2). pose proof (byte_to_Z_range b3).
    rewrite !Z.shiftl_mul_pow2 by lia.
    repeat apply lor_range; lia.
Qed.


(** *** How the loop ends *)

Lemma reference_dispatch_continues check s c s' :
  reference_dispatch check s = Ok c s' -> c = Continue.
Proof.
  unfold reference_dispatch.
  repeat (match goal with |- context [if ?b then _ else _] => destruct b end);
    intros H; apply bind_inv in H as (a & s1 & _ & H);
    first [by injection H as <- _ | discriminate H].
Qed.

Lemma reference_pass_break s s' :
  reference_pass s = Ok Break s' ->
  peek_H 0 s = Some 0x000F%Z /\
  s' = logged [mkRecord DEBUG "reference type = {0:04X}" [VInt 0x000F]]
              (advance 2 s).
Proof.
  unfold reference_pass. intros H.
  apply bind_inv in H as (check & s1 & Hr & H).
  apply read_H_inv in Hr as [Hpeek ->].
  rewrite bind_log_debug in H.
  destruct (check =? 15)%Z eqn:E.
  - apply Z.eqb_eq in E as ->. injection H as <-. by split.
  - exfalso. destruct (check =? 22)%Z.
    + apply bind_inv in H as ([t|] & s2 & _ & H); [|discriminate].
      by apply reference_dispatch_continues in H.
    + by apply reference_dispatch_continues in H.
Qed.

(** X4.  The reference loop returns only through the terminator: when it
    ends normally, the last two bytes it consumed are the tag 0x000F, and
    the last record on the log is the one of that tag. *)
Theorem reference_array_ends_at_terminator (s s' : state) :
  reference_array s = Ok tt s' ->
  pos s + 2 <= pos s' /\
  unpack_H (take 2 (drop (pos s' - 2) (buf s))) = Some 0x000F%Z /\
  exists earlier,
    log s' = earlier ++ [mkRecord DEBUG "reference type = {0:04X}" [VInt 0x000F]].
Proof.
  remember (remaining (dir_stream s)) as n eqn:Hn.
  revert s Hn. induction n as [n IH] using lt_wf_ind. intros s ->.
  rewrite reference_array_unfold.
  pose proof (reference_pass_progress s) as Hp.
  destruct (reference_pass s) as [[|] s1|e s1|] eqn:E; try done.
  - intros [= <-]. apply reference_pass_break in E as [Hpeek ->].
    split; [unfold advance, logged, pos; simpl; lia|]. split.
    + unfold peek_H, ahead in Hpeek. unfold advance, logged, pos, buf in *. simpl.
      by replace (tell (dir_stream s) + 2 - 2) with (tell (dir_stream s) + 0) by lia.
    + by exists (log s).
  - destruct Hp as (Hb & Hp & Hl). intros H.
    destruct (IH _ (remaining_decreases _ _ Hb Hp Hl) s1 eq_refl H) as (H1 & H2 & H3).
    split; [lia|]. split; [by rewrite <- Hb|exact H3].
Qed.

(** *** Reads that come back short *)

Abbreviation stops_when_short := (respects same_mode truncated).

Lemma same_mode_refl s : same_mode s s.
Proof. reflexivity. Qed.

Lemma same_mode_trans s1 s2 s3 : same_mode s1 s2 -> same_mode s2 s3 -> same_mode s1 s3.
Proof. unfold same_mode. congruence. Qed.

Lemma truncated_back s1 s2 e : same_mode s1 s2 -> truncated s2 e -> truncated s1 e.
Proof. unfold same_mode, truncated. intros A H Hr. apply H. congruence. Qed.

Lemma stops_when_short_bind {A B} (m : M A) (k : A -> M B) :
  stops_when_short m -> (forall a, stops_when_short (k a)) -> stops_when_short (bind m k).
Proof. apply respects_bind; [apply same_mode_trans|apply truncated_back]. Qed.

Lemma stops_when_short_ret {A} (a : A) : stops_when_short (ret a).
Proof. apply respects_ret, same_mode_refl. Qed.

Lemma stops_when_short_emit r : stops_when_short (emit r).
Proof. intros s. reflexivity. Qed.

Lemma stops_when_short_setattr n v : stops_when_short (setattr n v).
Proof. intros s. reflexivity. Qed.

Lemma stops_when_short_stream_read n : stops_when_short (stream_read n).
Proof. intros s. rewrite stream_read_spec. reflexivity. Qed.

Lemma stops_when_short_struct_H data : stops_when_short (struct_H data).
Proof.
  intros s. unfold struct_H. destruct (unpack_H data); simpl; [reflexivity|].
  split; [reflexivity|]. intros _. eauto.
Qed.

Lemma stops_when_short_struct_L data : stops_when_short (struct_L data).
Proof.
  intros s. unfold struct_L. destruct (unpack_L data); simpl; [reflexivity|].
  split; [reflexivity|]. intros _. eauto.
Qed.

Lemma stops_when_short_check_value n e v : stops_when_short (check_value n e v).
Proof.
  intros s. unfold check_value. destruct (e =? v)%Z; [reflexivity|].
  destruct (relaxed s) eqn:E; simpl; [reflexivity|].
  split; [reflexivity|]. intros Hr. congruence.
Qed.

#[local] Hint Resolve @stops_when_short_ret @stops_when_short_emit @stops_when_short_setattr
  @stops_when_short_stream_read @stops_when_short_struct_H @stops_when_short_struct_L
  @stops_when_short_check_value : safe.

Ltac stops_when_short_step :=
  match goal with
  | |- respects _ _ (bind _ _) => apply stops_when_short_bind; [|intro]
  | |- respects _ _ (if ?b then _ else _) => destruct b
  | |- respects _ _ (match ?x with _ => _ end) => destruct x
  | |- respects _ _ (log_debug _ _) => apply stops_when_short_emit
  | |- respects _ _ (log_error _ _) => apply stops_when_short_emit
  | |- respects _ _ read_H => unfold read_H
  | |- respects _ _ read_L => unfold read_L
  | |- respects _ _ _ => solve [auto with safe]
  end.

Lemma stops_when_short_to_line_144 :
  stops_when_short projectsyskind_record /\ stops_when_short compat_version_fix.
Proof.
  unfold projectsyskind_record, compat_version_fix.
  split; repeat stops_when_short_step.
Qed.

(** *** Records of fixed width *)

Lemma consumes_ret {A} (a : A) : consumes 0 (ret a).
Proof. intros s a' s' [= _ <-]. split; [done|lia]. Qed.

Lemma consumes_bind {A B} n t (m : M A) (k : A -> M B) :
  consumes n m -> (forall a, consumes (t - n) (k a)) -> n <= t ->
  consumes t (bind m k).
Proof.
  intros Hm Hk Hle s b s' H. apply bind_inv in H as (a & s1 & H1 & H2).
  apply Hm in H1 as [B1 P1]. apply Hk in H2 as [B2 P2].
  split; [congruence|lia].
Qed.

Lemma consumes_read_H : consumes 2 read_H.
Proof. intros s v s' H. apply read_H_inv in H as [_ ->]. by split. Qed.

Lemma consumes_read_L : consumes 4 read_L.
Proof. intros s v s' H. apply read_L_inv in H as [_ ->]. by split. Qed.

Lemma consumes_check_value n e v : consumes 0 (check_value n e v).
Proof.
  intros s [] s' H. apply check_value_inv in H as [rs ->].
  split; [done|]. unfold logged, pos. simpl. lia.
Qed.

Lemma consumes_setattr n v : consumes 0 (setattr n v).
Proof. intros s [] s' [= <-]. split; [done|]. unfold pos. simpl. lia. Qed.

Lemma consumes_emit r : consumes 0 (emit r).
Proof. intros s [] s' [= <-]. split; [done|]. unfold pos. simpl. lia. Qed.

Ltac consumes_step :=
  match goal with
  | |- consumes _ (bind read_H _) =>
      apply (consumes_bind 2); [apply consumes_read_H|intro; simpl Nat.sub|lia]
  | |- consumes _ (bind read_L _) =>
      apply (consumes_bind 4); [apply consumes_read_L|intro; simpl Nat.sub|lia]
  | |- consumes _ (bind (check_value _ _ _) _) =>
      apply (consumes_bind 0); [apply consumes_check_value|intro; simpl Nat.sub|lia]
  | |- consumes _ (bind (setattr _ _) _) =>
      apply (consumes_bind 0); [apply consumes_setattr|intro; simpl Nat.sub|lia]
  | |- consumes _ (bind (log_debug _ _) _) =>
      apply (consumes_bind 0); [apply consumes_emit|intro; simpl Nat.sub|lia]
  | |- consumes _ (match ?x with _ => _ end) => destruct x
  | |- consumes 0 (ret _) => apply consumes_ret
  | |- consumes 0 (check_value _ _ _) => apply consumes_check_value
  | |- consumes 0 (log_debug _ _) => apply consumes_emit
  | |- consumes 0 (log_error _ _) => apply consumes_emit
  end.

(** X6.  The records of fixed width move the cursor by their width and by
    nothing else whenever they return: the declared size of such a record is
    compared with the expected one and never used as a length. *)
Theorem fixed_records_advance_by_their_width {cp : Codepages} :
  consumes 10 projectsyskind_record /\
  consumes 10 projectlcidinvoke_record /\
  consumes 8 projectcodepage_record /\
  consumes 10 projecthelpcontext_record /\
  consumes 10 projectlibflags_record /\
  consumes 12 projectversion_record.
Proof.
  unfold projectsyskind_record, projectlcidinvoke_record,
    projectcodepage_record, projecthelpcontext_record, projectlibflags_record,
    projectversion_record.
  repeat apply conj; repeat consumes_step.
Qed.


(** *** Stepping through a record *)

Lemma peek_H_logged off rs s : peek_H off (logged rs s) = peek_H off s.
Proof. reflexivity. Qed.
Lemma peek_L_logged off rs s : peek_L off (logged rs s) = peek_L off s.
Proof. reflexivity. Qed.
Lemma peek_H_bound off n v s : peek_H off (bound n v s) = peek_H off s.
Proof. reflexivity. Qed.
Lemma peek_L_bound off n v s : peek_L off (bound n v s) = peek_L off s.
Proof. reflexivity. Qed.
Lemma ahead_bound off n v s : ahead off (bound n v s) = ahead off s.
Proof. reflexivity. Qed.
Lemma advance_bound k n v s : advance k (bound n v s) = bound n v (advance k s).
Proof. reflexivity. Qed.
Lemma bound_logged n v rs s : bound n v (logged rs s) = logged rs (bound n v s).
Proof. reflexivity. Qed.

Lemma peek_H_exists off s :
  pos s + off + 2 <= length (buf s) -> exists v, peek_H off s = Some v.
Proof.
  intros H. unfold peek_H.
  assert (L : length (take 2 (ahead off s)) = 2)
    by (unfold ahead; rewrite length_take, length_drop; lia).
  destruct (take 2 (ahead off s)) as [|b0 [|b1 [|? ?]]]; try discriminate L.
  eexists. reflexivity.
Qed.

Lemma peek_L_exists off s :
  pos s + off + 4 <= length (buf s) -> exists v, peek_L off s = Some v.
Proof.
  intros H. unfold peek_L.
  assert (L : length (take 4 (ahead off s)) = 4)
    by (unfold ahead; rewrite length_take, length_drop; lia).
  destruct (take 4 (ahead off s)) as [|b0 [|b1 [|b2 [|b3 [|? ?]]]]];
    try discriminate L.
  eexists. reflexivity.
Qed.

Ltac tidy :=
  cbv beta;
  rewrite ?bind_bind, ?bound_logged, ?advance_logged, ?advance_bound,
    ?advance_advance, ?logged_logged.

Ltac peek_hyp :=
  rewrite ?peek_H_logged, ?peek_L_logged, ?peek_H_bound, ?peek_L_bound,
    ?peek_H_advance, ?peek_L_advance;
  match goal with
  | H : peek_H ?b ?s = Some _ |- peek_H ?a ?s = Some _ =>
      replace a with b by lia; exact H
  | H : peek_L ?b ?s = Some _ |- peek_L ?a ?s = Some _ =>
      replace a with b by lia; exact H
  end.

(** Read a 2-byte / 4-byte field whose value [v] a hypothesis gives. *)
Ltac take_H v := rewrite (bind_read_H _ _ v) by peek_hyp; tidy.
Ltac take_L v := rewrite (bind_read_L _ _ v) by peek_hyp; tidy.

(** Read a field of which only the presence is known. *)
Ltac skip_H s off :=
  let v := fresh "v" in let Hv := fresh "Hv" in
  destruct (peek_H_exists off s) as [v Hv]; [lia|]; take_H v.
Ltac skip_L s off :=
  let v := fresh "v" in let Hv := fresh "Hv" in
  destruct (peek_L_exists off s) as [v Hv]; [lia|]; take_L v.

(** Read a payload that is wholly there. *)
Ltac take_payload :=
  rewrite bind_stream_read;
  rewrite ?ahead_logged, ?ahead_bound, ?ahead_advance;
  rewrite length_take_ahead by lia; tidy.

(** Two descriptions of the same state. *)
Ltac same_state :=
  unfold ret; cbn [app]; repeat first [reflexivity | lia | progress f_equal].

(** *** How the reference loop can end *)

Lemma bind_read_H_short {A} (k : Z -> M A) s :
  peek_H 0 s = None ->
  exists need got s', bind read_H k s = Raise (StructError need got) s'.
Proof. intros H. unfold bind at 1. rewrite (read_H_fail _ H). eauto. Qed.

Lemma bind_read_L_short {A} (k : Z -> M A) s :
  peek_L 0 s = None ->
  exists need got s', bind read_L k s = Raise (StructError need got) s'.
Proof. intros H. unfold bind at 1. rewrite (read_L_fail _ H). eauto. Qed.

Lemma sized_record_short {A} (k : unit -> M A) f s :
  peek_L 4 s = None ->
  exists need got s',
    (let* _ := read_L in
     let* sizeof_libid := read_L in
     let* libid := stream_read sizeof_libid in
     bind (debug_decoded f libid) k) s = Raise (StructError need got) s'.
Proof.
  intros E. destruct (peek_L 0 s) as [record_size|] eqn:E1.
  - rewrite (bind_read_L _ _ _ E1). apply bind_read_L_short.
    by rewrite peek_L_advance.
  - by apply bind_read_L_short.
Qed.

Lemma peek_L_before off off' s v :
  off' <= off -> peek_L off s = Some v -> is_Some (peek_L off' s).
Proof.
  intros Hle H. apply peek_L_room in H.
  destruct (peek_L_exists off' s) as [w ->]; [lia|by eexists].
Qed.

(** One pass of the loop: how it ends, by what is at the cursor. *)
Lemma reference_pass_outcomes (s : state) :
  (peek_H 0 s = Some 0x000F%Z /\
   reference_pass s =
   Ok Break (logged [mkRecord DEBUG "reference type = {0:04X}" [VInt 0x000F]]
                 (advance 2 s))) \/
  ((peek_H 0 s = None \/
    (exists tag, peek_H 0 s = Some tag /\ In tag [0x0016; 0x0033]%Z /\
                 peek_L 2 s = None) \/
    (exists tag, peek_H 0 s = Some tag /\ In tag [0x002F; 0x000D; 0x000E]%Z /\
                 peek_L 6 s = None)) /\
   exists need got s', reference_pass s = Raise (StructError need got) s') \/
  (exists tag s',
     peek_H 0 s = Some tag /\
     (In tag [0x0016; 0x0033]%Z /\ is_Some (peek_L 2 s) \/
      In tag [0x002F; 0x000D; 0x000E]%Z /\ is_Some (peek_L 6 s)) /\
     reference_pass s = Raise (NameError "unicode2str") s') \/
  (exists tag s',
     peek_H 0 s = Some tag /\ ~ In tag reference_types /\
     reference_pass s = Raise (NameError "UnexpectedDataError") s').
Proof.
  unfold reference_pass.
  destruct (peek_H 0 s) as [tag|] eqn:E.
  2:{ right. left. split; [by left|]. by apply bind_read_H_short. }
  rewrite (bind_read_H _ _ _ E), bind_log_debug.
  set (s1 := logged [mkRecord DEBUG "reference type = {0:04X}" [VInt tag]]
                    (advance 2 s)).
  assert (P0 : peek_L 0 s1 = peek_L 2 s)
    by (unfold s1; by rewrite peek_L_logged, peek_L_advance).
  assert (P4 : peek_L 4 s1 = peek_L 6 s)
    by (unfold s1; by rewrite peek_L_logged, peek_L_advance).
  destruct (tag =? 15)%Z eqn:T0.
  { apply Z.eqb_eq in T0 as ->. left. by split. }
  right.
  destruct (tag =? 22)%Z eqn:T1.
  { apply Z.eqb_eq in T1 as ->.
    destruct (peek_L 2 s) as [size|] eqn:E2.
    - right. left. exists 0x0016%Z. eexists. split; [done|].
      split; [left; split; [simpl; tauto|by eexists]|].
      by rewrite (bind_raises _ _ _ _ _ (referencename_record_raises _ _ P0)).
    - left. split; [right; left; exists 0x0016%Z; simpl; tauto|].
      destruct (bind_read_L_short
                  (fun reference_sizeof_name =>
                     let* reference_name := stream_read reference_sizeof_name in
                     debug_decoded "REFERENCE name: %s" reference_name ;;
                     let* reference_reserved := read_H in
                     if (reference_reserved =? 0x003E)%Z then
                       let* reference_sizeof_name_unicode := read_L in
                       let* reference_name_unicode :=
                         stream_read reference_sizeof_name_unicode in
                       ret None
                     else
                       log_debug "reference type = {0:04X}" [VInt reference_reserved] ;;
                       ret (Some reference_reserved)) s1 P0)
        as (need & got & s' & H).
      change (referencename_record s1 = Raise (StructError need got) s') in H.
      rewrite (bind_raises _ _ _ _ _ H). eauto. }
  unfold reference_dispatch.
  destruct (tag =? 51)%Z eqn:T2.
  { apply Z.eqb_eq in T2 as ->.
    destruct (peek_L 2 s) as [size|] eqn:E2.
    - right. left. exists 0x0033%Z. eexists. split; [done|].
      split; [left; split; [simpl; tauto|by eexists]|].
      by rewrite (bind_raises _ _ _ _ _ (referenceoriginal_record_raises _ _ P0)).
    - left. split; [right; left; exists 0x0033%Z; simpl; tauto|].
      destruct (bind_read_L_short
                  (fun referenceoriginal_sizeof_libidoriginal =>
                     let* referenceoriginal_libidoriginal :=
                       stream_read referenceoriginal_sizeof_libidoriginal in
                     debug_decoded "REFERENCE original lib id: %s"
                                   referenceoriginal_libidoriginal) s1 P0)
        as (need & got & s' & H).
      change (referenceoriginal_record s1 = Raise (StructError need got) s') in H.
      rewrite (bind_raises _ _ _ _ _ H). eauto. }
  assert (Sized : forall (m : M unit) t,
            tag = t -> In t [0x002F; 0x000D; 0x000E]%Z ->
            (forall record_size size,
               peek_L 0 s1 = Some record_size -> peek_L 4 s1 = Some size ->
               exists s', m s1 = Raise (NameError "unicode2str") s') ->
            (peek_L 4 s1 = None ->
             exists need got s', m s1 = Raise (StructError need got) s') ->
            ((Some tag = None \/
              (exists tag0, Some tag = Some tag0 /\ In tag0 [0x0016; 0x0033]%Z /\
                            peek_L 2 s = None) \/
              (exists tag0, Some tag = Some tag0 /\
                            In tag0 [0x002F; 0x000D; 0x000E]%Z /\
                            peek_L 6 s = None)) /\
             exists need got s',
               (m ;; ret Continue) s1 = Raise (StructError need got) s') \/
            (exists tag0 s',
               Some tag = Some tag0 /\
               (In tag0 [0x0016; 0x0033]%Z /\ is_Some (peek_L 2 s) \/
                In tag0 [0x002F; 0x000D; 0x000E]%Z /\ is_Some (peek_L 6 s)) /\
               (m ;; ret Continue) s1 = Raise (NameError "unicode2str") s') \/
            (exists tag0 s',
               Some tag = Some tag0 /\ ~ In tag0 reference_types /\
               (m ;; ret Continue) s1 = Raise (NameError "UnexpectedDataError") s')).
  { intros m t -> Ht Hraise Hshort.
    destruct (peek_L 6 s) as [size|] eqn:E6.
    - right. left.
      destruct (peek_L_before 6 2 s size ltac:(lia) E6) as [record_size E2].
      destruct (Hraise record_size size) as [s' H]; [congruence|congruence|].
      exists t, s'. split; [done|]. split; [right; split; [done|by eexists]|].
      by rewrite (bind_raises _ _ _ _ _ H).
    - left. split; [right; right; by exists t|].
      destruct (Hshort P4) as (need & got & s' & H).
      exists need, got, s'. by rewrite (bind_raises _ _ _ _ _ H). }
  destruct (tag =? 47)%Z eqn:T3.
  { apply Z.eqb_eq in T3. apply (Sized _ 0x002F%Z T3); [simpl; tauto| |].
    - intros r z H1 H2. rewrite (referencecontrol_record_raises _ _ _ H1 H2). eauto.
    - apply sized_record_short. }
  destruct (tag =? 13)%Z eqn:T4.
  { apply Z.eqb_eq in T4. apply (Sized _ 0x000D%Z T4); [simpl; tauto| |].
    - intros r z H1 H2. rewrite (referenceregistered_record_raises _ _ _ H1 H2). eauto.
    - apply sized_record_short. }
  destruct (tag =? 14)%Z eqn:T5.
  { apply Z.eqb_eq in T5. apply (Sized _ 0x000E%Z T5); [simpl; tauto| |].
    - intros r z H1 H2. rewrite (referenceproject_record_raises _ _ _ H1 H2). eauto.
    - apply sized_record_short. }
  right. right. exists tag. eexists. split; [done|]. split.
  - apply Z.eqb_neq in T0, T1, T2, T3, T4, T5.
    unfold reference_types. simpl. intuition congruence.
  - reflexivity.
Qed.

(** X2.  The reference loop gets through no record at all.  In either mode
    it ends in one of four ways, decided by what is at the cursor.
    Normally, two bytes on, when the first tag is the terminator 0x000F.
    With [struct.error], when the stream ends before the fields that are
    read first: the tag; for the tags 0x0016 and 0x0033 the 4-byte size
    after it; for the tags 0x002F, 0x000D and 0x000E the two 4-byte sizes
    after it.  With [NameError] for [unicode2str], when the first tag is
    one of these five and those fields are there.  With [NameError] for
    [UnexpectedDataError], when the first tag is any other value. *)
Theorem reference_array_outcomes (s : state) :
  (peek_H 0 s = Some 0x000F%Z /\
   reference_array s =
   Ok tt (logged [mkRecord DEBUG "reference type = {0:04X}" [VInt 0x000F]]
                 (advance 2 s))) \/
  ((peek_H 0 s = None \/
    (exists tag, peek_H 0 s = Some tag /\ In tag [0x0016; 0x0033]%Z /\
                 peek_L 2 s = None) \/
    (exists tag, peek_H 0 s = Some tag /\ In tag [0x002F; 0x000D; 0x000E]%Z /\
                 peek_L 6 s = None)) /\
   exists need got s', reference_array s = Raise (StructError need got) s') \/
  (exists tag s',
     peek_H 0 s = Some tag /\
     (In tag [0x0016; 0x0033]%Z /\ is_Some (peek_L 2 s) \/
      In tag [0x002F; 0x000D; 0x000E]%Z /\ is_Some (peek_L 6 s)) /\
     reference_array s = Raise (NameError "unicode2str") s') \/
  (exists tag s',
     peek_H 0 s = Some tag /\ ~ In tag reference_types /\
     reference_array s = Raise (NameError "UnexpectedDataError") s').
Proof.
  rewrite reference_array_unfold.
  destruct (reference_pass_outcomes s)
    as [[H1 H2]|[(H1 & need & got & s' & H2)|[(tag & s' & H1 & H2 & H3)
       |(tag & s' & H1 & H2 & H3)]]].
  - left. split; [exact H1|]. by rewrite H2.
  - right. left. split; [exact H1|]. exists need, got, s'. by rewrite H2.
  - right. right. left. exists tag, s'. split; [exact H1|]. split; [exact H2|].
    by rewrite H3.
  - right. right. right. exists tag, s'. split; [exact H1|]. split; [exact H2|].
    by rewrite H3.
Qed.

(** *** The records of the reference array *)

(** X7.  A record of the reference array is read as far as its first name
    or library id and no further.  For REFERENCENAME and REFERENCEORIGINAL
    that is the 4-byte size after the tag and the payload; for
    REFERENCECONTROL, REFERENCEREGISTERED and REFERENCEPROJECT a 4-byte
    record size, the 4-byte size and the payload.  The [log.debug] that
    follows looks up [unicode2str]: the loop ends there with [NameError],
    in either mode, the cursor behind the payload (as much of it as the
    buffer holds) and nothing logged but the tag. *)
Theorem reference_record_raises_NameError (s : state) (tag size : Z) :
  peek_H 0 s = Some tag ->
  (tag = 0x0016%Z \/ tag = 0x0033%Z ->
   peek_L 2 s = Some size ->
   reference_array s =
   Raise (NameError "unicode2str")
         (logged [mkRecord DEBUG "reference type = {0:04X}" [VInt tag]]
                 (advance (6 + length (take (Z.to_nat size) (ahead 6 s))) s))) /\
  (tag = 0x002F%Z \/ tag = 0x000D%Z \/ tag = 0x000E%Z ->
   peek_L 6 s = Some size ->
   reference_array s =
   Raise (NameError "unicode2str")
         (logged [mkRecord DEBUG "reference type = {0:04X}" [VInt tag]]
                 (advance (10 + length (take (Z.to_nat size) (ahead 10 s))) s))).
Proof.
  intros Htag. rewrite (reference_array_at_tag _ _ Htag).
  set (s1 := logged [mkRecord DEBUG "reference type = {0:04X}" [VInt tag]]
                    (advance 2 s)).
  split.
  - intros Ht Hsize.
    assert (H1 : peek_L 0 s1 = Some size)
      by (unfold s1; by rewrite peek_L_logged, peek_L_advance).
    assert (Hs : advance (4 + length (take (Z.to_nat size) (ahead 4 s1))) s1 =
                 logged [mkRecord DEBUG "reference type = {0:04X}" [VInt tag]]
                   (advance (6 + length (take (Z.to_nat size) (ahead 6 s))) s)).
    { unfold s1. by rewrite ahead_logged, ahead_advance, advance_logged,
                            advance_advance. }
    destruct Ht as [-> | ->].
    + change (0x0016 =? 15)%Z with false. change (0x0016 =? 22)%Z with true.
      cbv iota.
      by rewrite (bind_raises _ _ _ _ _ (referencename_record_raises _ _ H1)), Hs.
    + change (0x0033 =? 15)%Z with false. change (0x0033 =? 22)%Z with false.
      cbv iota. unfold reference_dispatch.
      change (0x0033 =? 0x0033)%Z with true. cbv iota.
      by rewrite (bind_raises _ _ _ _ _ (referenceoriginal_record_raises _ _ H1)), Hs.
  - intros Ht Hsize.
    destruct (peek_L_exists 2 s) as [record_size Hrs];
      [apply peek_L_room in Hsize; lia|].
    assert (H1 : peek_L 0 s1 = Some record_size)
      by (unfold s1; by rewrite peek_L_logged, peek_L_advance).
    assert (H2 : peek_L 4 s1 = Some size)
      by (unfold s1; by rewrite peek_L_logged, peek_L_advance).
    assert (Hs : advance (8 + length (take (Z.to_nat size) (ahead 8 s1))) s1 =
                 logged [mkRecord DEBUG "reference type = {0:04X}" [VInt tag]]
                   (advance (10 + length (take (Z.to_nat size) (ahead 10 s))) s)).
    { unfold s1. by rewrite ahead_logged, ahead_advance, advance_logged,
                            advance_advance. }
    destruct Ht as [-> | [-> | ->]].
    + change (0x002F =? 15)%Z with false. change (0x002F =? 22)%Z with false.
      cbv iota. unfold reference_dispatch.
      change (0x002F =? 0x0033)%Z with false. change (0x002F =? 0x002F)%Z with true.
      cbv iota.
      by rewrite (bind_raises _ _ _ _ _
                    (referencecontrol_record_raises _ _ _ H1 H2)), Hs.
    + change (0x000D =? 15)%Z with false. change (0x000D =? 22)%Z with false.
      cbv iota. unfold reference_dispatch.
      change (0x000D =? 0x0033)%Z with false. change (0x000D =? 0x002F)%Z with false.
      change (0x000D =? 0x000D)%Z with true. cbv iota.
      by rewrite (bind_raises _ _ _ _ _
                    (referenceregistered_record_raises _ _ _ H1 H2)), Hs.
    + change (0x000E =? 15)%Z with false. change (0x000E =? 22)%Z with false.
      cbv iota. unfold reference_dispatch.
      change (0x000E =? 0x0033)%Z with false. change (0x000E =? 0x002F)%Z with false.
      change (0x000E =? 0x000D)%Z with false. change (0x000E =? 0x000E)%Z with true.
      cbv iota.
      by rewrite (bind_raises _ _ _ _ _
                    (referenceproject_record_raises _ _ _ H1 H2)), Hs.
Qed.

(** *** Lines 116-144 in relaxed mode *)

Lemma peek_H_none off s : length (buf s) < pos s + off + 2 -> peek_H off s = None.
Proof.
  intros H. unfold peek_H. apply unpack_H_short.
  unfold ahead. rewrite length_take, length_drop. lia.
Qed.

Lemma peek_L_none off s : length (buf s) < pos s + off + 4 -> peek_L off s = None.
Proof.
  intros H. unfold peek_L. apply unpack_L_short.
  unfold ahead. rewrite length_take, length_drop. lia.
Qed.

Lemma reads_through_ret {A} (a : A) : reads_through 0 (ret a).
Proof. intros s Hr _. exists a, s. repeat split; [done|lia]. Qed.

Lemma reads_through_bind {A B} n t (m : M A) (k : A -> M B) :
  reads_through n m -> (forall a, reads_through (t - n) (k a)) -> n <= t ->
  reads_through t (bind m k).
Proof.
  intros Hm Hk Hle s Hr Hlen.
  destruct (Hm s Hr ltac:(lia)) as (a & s1 & E & Hr1 & Hb1 & Hp1).
  destruct (Hk a s1 Hr1 ltac:(rewrite Hb1; lia)) as (b & s2 & E2 & Hr2 & Hb2 & Hp2).
  exists b, s2. unfold bind. rewrite E. repeat split; [done|done|congruence|lia].
Qed.

Lemma reads_through_read_H : reads_through 2 read_H.
Proof.
  intros s Hr Hlen. destruct (peek_H_exists 0 s) as [v Hv]; [lia|].
  exists v, (advance 2 s). by rewrite (read_H_ok _ _ Hv).
Qed.

Lemma reads_through_read_L : reads_through 4 read_L.
Proof.
  intros s Hr Hlen. destruct (peek_L_exists 0 s) as [v Hv]; [lia|].
  exists v, (advance 4 s). by rewrite (read_L_ok _ _ Hv).
Qed.

Lemma reads_through_check_value n e v : reads_through 0 (check_value n e v).
Proof.
  intros s Hr _. unfold check_value. destruct (e =? v)%Z.
  - exists tt, s. repeat split; [done|lia].
  - rewrite Hr. eexists tt, _. split; [reflexivity|].
    repeat split; [done|unfold pos; simpl; lia].
Qed.

Lemma reads_through_setattr n v : reads_through 0 (setattr n v).
Proof.
  intros s Hr _. eexists tt, _. split; [reflexivity|].
  repeat split; [done|unfold pos; simpl; lia].
Qed.

Lemma reads_through_emit r : reads_through 0 (emit r).
Proof.
  intros s Hr _. eexists tt, _. split; [reflexivity|].
  repeat split; [done|unfold pos; simpl; lia].
Qed.

Ltac reads_through_step :=
  match goal with
  | |- reads_through _ (bind read_H _) =>
      apply (reads_through_bind 2); [apply reads_through_read_H|intro; simpl Nat.sub|lia]
  | |- reads_through _ (bind read_L _) =>
      apply (reads_through_bind 4); [apply reads_through_read_L|intro; simpl Nat.sub|lia]
  | |- reads_through _ (bind (check_value _ _ _) _) =>
      apply (reads_through_bind 0); [apply reads_through_check_value|intro; simpl Nat.sub|lia]
  | |- reads_through _ (bind (setattr _ _) _) =>
      apply (reads_through_bind 0); [apply reads_through_setattr|intro; simpl Nat.sub|lia]
  | |- reads_through _ (bind (log_debug _ _) _) =>
      apply (reads_through_bind 0); [apply reads_through_emit|intro; simpl Nat.sub|lia]
  | |- reads_through _ (match ?x with _ => _ end) => destruct x
  | |- reads_through 0 (ret _) => apply reads_through_ret
  | |- reads_through 0 (log_error _ _) => apply reads_through_emit
  end.

Lemma reads_through_projectsyskind_record : reads_through 10 projectsyskind_record.
Proof. unfold projectsyskind_record. repeat reads_through_step. Qed.

Lemma consumes_projectsyskind_record : consumes 10 projectsyskind_record.
Proof. unfold projectsyskind_record. repeat consumes_step. Qed.

Section RelaxedParse.
Context {cp : Codepages}.

(** The platform record in relaxed mode: it returns if ten bytes are ahead
    and stops with [struct.error] if not. *)
Lemma projectsyskind_record_relaxed s :
  relaxed s = true -> pos s <= length (buf s) ->
  (pos s + 10 <= length (buf s) /\
   exists s1, projectsyskind_record s = Ok tt s1 /\ relaxed s1 = true /\
              buf s1 = buf s /\ pos s1 = pos s + 10) \/
  (length (buf s) < pos s + 10 /\
   exists need got s1, projectsyskind_record s = Raise (StructError need got) s1).
Proof.
  intros Hr Hin. destruct (le_lt_dec (pos s + 10) (length (buf s))) as [Hlen|Hlen].
  - left. split; [done|].
    destruct (reads_through_projectsyskind_record s Hr Hlen) as ([] & s1 & H).
    by exists s1.
  - right. split; [done|].
    pose proof (proj1 stops_when_short_to_line_144 s) as H1.
    pose proof (proj1 safe_header_records s) as H2.
    pose proof (consumes_projectsyskind_record s) as H3.
    destruct (projectsyskind_record s) as [[] s1|e s1|]; [| |done].
    + exfalso. destruct (H3 tt s1 eq_refl) as [Hb Hp].
      destruct H2 as (_ & _ & _ & _ & H2). specialize (H2 Hin). lia.
    + destruct H1 as [_ H1]. destruct (H1 Hr) as (need & got & ->). eauto.
Qed.

Lemma compat_version_fix_relaxed s :
  pos s = 10 ->
  (reaches_line_144 (buf s) = true /\ exists t s2, compat_version_fix s = Ok t s2) \/
  (reaches_line_144 (buf s) = false /\
   exists need got s2, compat_version_fix s = Raise (StructError need got) s2).
Proof.
  intros Hp. unfold reaches_line_144, compat_version_fix.
  assert (EH : unpack_H (take 2 (drop 10 (buf s))) = peek_H 0 s)
    by (unfold peek_H, ahead; by rewrite Hp).
  assert (EL : unpack_L (take 4 (drop 12 (buf s))) = peek_L 2 s)
    by (unfold peek_L, ahead; by rewrite Hp).
  rewrite EH, EL.
  destruct (peek_H 0 s) as [t|] eqn:Ht.
  - rewrite (bind_read_H _ _ _ Ht).
    destruct (t =? 0x004A)%Z eqn:E; [|left; split; [done|]; by eexists _, _].
    destruct (peek_L 2 s) as [size|] eqn:Hsize.
    + rewrite (bind_read_L _ _ size) by (by rewrite peek_L_advance).
      rewrite advance_advance, bind_stream_read, ahead_advance, advance_advance.
      simpl Nat.add.
      set (payload := take (Z.to_nat size) (ahead 6 s)).
      unfold bind at 1, struct_L.
      destruct (unpack_L payload) as [v|] eqn:Ev.
      * apply unpack_L_length in Ev.
        unfold ret at 1. rewrite Ev.
        assert (Hsz : size = 4%Z \/ length (buf s) < 22).
        { unfold payload, ahead in Ev. rewrite length_take, length_drop in Ev.
          apply peek_L_room in Hsize. lia. }
        destruct (peek_H 10 s) as [t'|] eqn:Ht'.
        -- left. pose proof (peek_H_room _ _ _ Ht') as Hroom.
           assert (size = 4%Z) as -> by lia. split.
           ++ apply andb_true_intro. split; [done|]. apply Nat.leb_le. lia.
           ++ rewrite (bind_read_H _ _ t') by (by rewrite peek_H_advance).
              by eexists _, _.
        -- right. split.
           ++ apply andb_false_iff. right. apply Nat.leb_gt.
              destruct (le_lt_dec 22 (length (buf s))) as [Hl|Hl]; [|done].
              destruct (peek_H_exists 10 s) as [? ?]; [lia|congruence].
           ++ apply bind_read_H_short. by rewrite peek_H_advance.
      * right. split; [|by eexists _, _, _].
        apply andb_false_iff.
        destruct (Z.eqb_spec size 4) as [->|]; [right|by left].
        apply Nat.leb_gt.
        destruct (le_lt_dec 22 (length (buf s))) as [Hl|Hl]; [|done].
        exfalso.
        assert (L : length payload = 4)
          by (unfold payload, ahead; rewrite length_take, length_drop; lia).
        destruct payload as [|? [|? [|? [|? [|? ?]]]]]; done.
    + right. split; [done|]. apply bind_read_L_short. by rewrite peek_L_advance.
  - right. split; [done|]. by apply bind_read_H_short.
Qed.

(** X5.  Lines 116-417, given the decompressed bytes, never get past line
    144 in relaxed mode, and how they end is decided by the length of the
    stream alone.  If the stream holds the ten bytes of the platform record
    and the 2-byte tag after them and, when that tag is 0x004A, a declared
    size of 4 and 22 bytes in all, line 144 is reached and raises
    [NameError] for [id_tmp]; the values of the fields do not matter, a
    wrong one is only logged.  In every other case a read comes back short
    and [struct.unpack] raises [struct.error]. *)
Theorem relaxed_parse_outcome
    (vba_root project_path dirpath : string) (data : bytes) (log0 : list record) :
  (reaches_line_144 data = true /\
   exists s', parse_dir_stream (entry vba_root project_path dirpath true data log0) =
              Raise (NameError "id_tmp") s') \/
  (reaches_line_144 data = false /\
   exists need got s',
     parse_dir_stream (entry vba_root project_path dirpath true data log0) =
     Raise (StructError need got) s').
Proof.
  set (s0 := entry vba_root project_path dirpath true data log0).
  unfold parse_dir_stream.
  destruct (projectsyskind_record_relaxed s0 eq_refl) as
    [(Hlen & s1 & E1 & Hr1 & Hb1 & Hp1)|(Hlen & need & got & s1 & E1)];
    [unfold s0, pos; simpl; lia| |].
  - rewrite (bind_ok _ _ _ _ _ E1).
    destruct (compat_version_fix_relaxed s1 Hp1) as
      [(R & t & s2 & E2)|(R & need & got & s2 & E2)]; rewrite Hb1 in R.
    + left. split; [exact R|]. exists s2.
      rewrite (bind_ok _ _ _ _ _ E2).
      unfold projectlcid_record. by rewrite !bind_bind, bind_raise.
    + right. split; [exact R|]. exists need, got, s2.
      by rewrite (bind_raises _ _ _ _ _ E2).
  - right. split.
    + unfold reaches_line_144. rewrite unpack_H_short; [done|].
      rewrite length_take, length_drop. change (buf s0) with data in Hlen.
      change (pos s0) with 0 in Hlen. lia.
    + exists need, got, s1. by rewrite (bind_raises _ _ _ _ _ E1).
Qed.

End RelaxedParse.

(** *** The header records of variable length *)

Lemma bind_decode_bytes {A} (k : pyval -> M A) raw s codec :
  assoc "codec" (attrs s) = Some (VStr codec) ->
  bind (decode_bytes raw) k s = k (VDecoded codec raw) s.
Proof.
  intros H. unfold bind at 1, decode_bytes, bind, getattr. by rewrite H.
Qed.

Lemma bind_when_error {A} (k : unit -> M A) (b : bool) f a s :
  bind (if b then log_error f a else ret tt) k s =
  k tt (logged (if b then [mkRecord ERROR f a] else []) s).
Proof.
  destruct b; [reflexivity|]. rewrite bind_ret_l. f_equal.
  unfold logged. destruct s; simpl. by rewrite app_nil_r.
Qed.

(** X12.  A PROJECTDOCSTRING record that is wholly in the buffer is consumed
    to its last byte in either mode; [docstring] is bound to the narrow
    bytes under the project's codec and [docstring_unicode] to the wide
    bytes under utf16.  A narrow size above 2000 and an odd wide size are
    each logged as an error and change nothing else. *)
Theorem projectdocstring_consumed (s : state) (codec : string)
    (size size_unicode : Z) :
  assoc "codec" (attrs s) = Some (VStr codec) ->
  peek_H 0 s = Some 0x0005%Z ->
  peek_L 2 s = Some size ->
  peek_H (6 + Z.to_nat size) s = Some 0x0040%Z ->
  peek_L (8 + Z.to_nat size) s = Some size_unicode ->
  pos s + 12 + Z.to_nat size + Z.to_nat size_unicode <= length (buf s) ->
  projectdocstring_record s =
  Ok tt
    (logged
       ((if (2000 <? size)%Z
         then [mkRecord ERROR
                 "PROJECTDOCSTRING_SizeOfDocString value not in range: {0}"
                 [VInt size]]
         else []) ++
        (if negb (size_unicode mod 2 =? 0)%Z
         then [mkRecord ERROR
                 "PROJECTDOCSTRING_SizeOfDocStringUnicode is not even" []]
         else []))
       (bound "docstring_unicode"
          (VDecoded "utf16"
             (take (Z.to_nat size_unicode) (ahead (12 + Z.to_nat size) s)))
          (bound "docstring"
             (VDecoded codec (take (Z.to_nat size) (ahead 6 s)))
             (advance (12 + Z.to_nat size + Z.to_nat size_unicode) s)))).
Proof.
  intros Hc Htag Hsize Hres Hsizeu Hroom.
  unfold projectdocstring_record.
  take_H 0x0005%Z. rewrite bind_check_value_eq. tidy.
  take_L size. rewrite bind_when_error. tidy.
  take_payload. rewrite (bind_decode_bytes _ _ _ codec) by exact Hc. tidy.
  rewrite bind_setattr. tidy.
  take_H 0x0040%Z. rewrite bind_check_value_eq. tidy.
  take_L size_unicode. rewrite bind_when_error. tidy.
  take_payload. unfold setattr. unfold logged, bound, advance, pos, buf. simpl.
  same_state.
Qed.

(** X13.  A PROJECTHELPFILEPATH record that is wholly in the buffer is
    consumed to its last byte in either mode, each copy by its own declared
    size.  A first size above 260, two sizes that differ and two copies
    that differ are each logged as an error and change nothing else. *)
Theorem projecthelpfilepath_consumed (s : state) (size1 size2 : Z) :
  peek_H 0 s = Some 0x0006%Z ->
  peek_L 2 s = Some size1 ->
  peek_H (6 + Z.to_nat size1) s = Some 0x003D%Z ->
  peek_L (8 + Z.to_nat size1) s = Some size2 ->
  pos s + 12 + Z.to_nat size1 + Z.to_nat size2 <= length (buf s) ->
  projecthelpfilepath_record s =
  Ok tt
    (logged
       ((if (260 <? size1)%Z
         then [mkRecord ERROR
                 "PROJECTHELPFILEPATH_SizeOfHelpFile1 value not in range: {0}"
                 [VInt size1]]
         else []) ++
        (if negb (size2 =? size1)%Z
         then [mkRecord ERROR
                 "PROJECTHELPFILEPATH_SizeOfHelpFile1 does not equal PROJECTHELPFILEPATH_SizeOfHelpFile2" []]
         else []) ++
        (if negb (bytes_eqb (take (Z.to_nat size2) (ahead (12 + Z.to_nat size1) s))
                            (take (Z.to_nat size1) (ahead 6 s)))
         then [mkRecord ERROR
                 "PROJECTHELPFILEPATH_HelpFile1 does not equal PROJECTHELPFILEPATH_HelpFile2" []]
         else []))
       (advance (12 + Z.to_nat size1 + Z.to_nat size2) s)).
Proof.
  intros Htag Hs1 Hres Hs2 Hroom.
  unfold projecthelpfilepath_record.
  take_H 0x0006%Z. rewrite bind_check_value_eq. tidy.
  take_L size1. rewrite bind_when_error. tidy.
  take_payload.
  take_H 0x003D%Z. rewrite bind_check_value_eq. tidy.
  take_L size2. rewrite bind_when_error. tidy.
  take_payload.
  replace (2 + 4 + 0) with 6 by lia.
  replace (2 + 4 + Z.to_nat size1 + 2 + 4 + 0) with (12 + Z.to_nat size1) by lia.
  destruct (negb (bytes_eqb _ _)); unfold log_error, emit, ret, logged, advance, pos, buf;
    simpl; rewrite <- ?app_assoc, ?app_nil_r; same_state.
Qed.

(** X14.  A PROJECTCONSTANTS record that is wholly in the buffer is consumed
    to its last byte in either mode and binds nothing.  A size above 1015
    and an odd unicode size are each logged as an error and change nothing
    else. *)
Theorem projectconstants_consumed (s : state) (size size_unicode : Z) :
  peek_H 0 s = Some 0x000C%Z ->
  peek_L 2 s = Some size ->
  peek_H (6 + Z.to_nat size) s = Some 0x003C%Z ->
  peek_L (8 + Z.to_nat size) s = Some size_unicode ->
  pos s + 12 + Z.to_nat size + Z.to_nat size_unicode <= length (buf s) ->
  projectconstants_record s =
  Ok tt
    (logged
       ((if (1015 <? size)%Z
         then [mkRecord ERROR
                 "PROJECTCONSTANTS_SizeOfConstants value not in range: {0}"
                 [VInt size]]
         else []) ++
        (if negb (size_unicode mod 2 =? 0)%Z
         then [mkRecord ERROR
                 "PROJECTCONSTANTS_SizeOfConstantsUnicode is not even" []]
         else []))
       (advance (12 + Z.to_nat size + Z.to_nat size_unicode) s)).
Proof.
  intros Htag Hsize Hres Hsizeu Hroom.
  unfold projectconstants_record.
  take_H 0x000C%Z. rewrite bind_check_value_eq. tidy.
  take_L size. rewrite bind_when_error. tidy.
  take_payload.
  take_H 0x003C%Z. rewrite bind_check_value_eq. tidy.
  take_L size_unicode. rewrite bind_when_error. tidy.
  take_payload. rewrite ?bind_ret_l. same_state.
Qed.


(** *** The theorems above on the sample streams *)

Lemma cursor_stays_in_buffer_witness :
  pos (mid_parse true "cp1252" sample_references 0)
    <= length (buf (mid_parse true "cp1252" sample_references 0)) /\
  match reference_array (mid_parse true "cp1252" sample_references 0) with
  | Ok _ s' | Raise _ s' =>
      buf s' = buf (mid_parse true "cp1252" sample_references 0) /\
      relaxed s' = relaxed (mid_parse true "cp1252" sample_references 0) /\
      pos (mid_parse true "cp1252" sample_references 0) <= pos s'
        <= length (buf (mid_parse true "cp1252" sample_references 0))
  | OutOfFuel => False
  end.
Proof.
  assert (H : pos (mid_parse true "cp1252" sample_references 0)
              <= length (buf (mid_parse true "cp1252" sample_references 0)))
    by (vm_compute; lia).
  split; [exact H|].
  exact (@cursor_stays_in_buffer sample_codepages reference_array
           (mid_parse true "cp1252" sample_references 0)
           (or_intror (or_intror eq_refl)) H).
Defined.

Lemma unpack_range_witness :
  unpack_H [x4a; x00] = Some 0x004A%Z /\
  length [x4a; x00] = 2 /\ (0 <= 0x004A < 2 ^ 16)%Z.
Proof.
  split; [reflexivity|].
  exact (proj1 (unpack_range [x4a; x00] 0x004A%Z) eq_refl).
Defined.

Lemma reference_array_ends_at_terminator_witness :
  exists s',
    reference_array (mid_parse true "cp1252" sample_references 122) = Ok tt s' /\
    pos (mid_parse true "cp1252" sample_references 122) + 2 <= pos s' /\
    unpack_H (take 2 (drop (pos s' - 2)
                           (buf (mid_parse true "cp1252" sample_references 122))))
      = Some 0x000F%Z /\
    exists earlier,
      log s' = earlier ++
        [mkRecord DEBUG "reference type = {0:04X}" [VInt 0x000F]].
Proof.
  eexists. split; [vm_compute; reflexivity|].
  apply (reference_array_ends_at_terminator
           (mid_parse true "cp1252" sample_references 122)).
  vm_compute. reflexivity.
Defined.

Lemma fixed_records_advance_by_their_width_witness :
  exists s',
    projectlcidinvoke_record (mid_parse true "cp1252" sample_header_records 44)
      = Ok tt s' /\
    peek_L 2 (mid_parse true "cp1252" sample_header_records 44) = Some 8%Z /\
    buf s' = buf (mid_parse true "cp1252" sample_header_records 44) /\
    pos s' = pos (mid_parse true "cp1252" sample_header_records 44) + 10.
Proof.
  eexists. split; [vm_compute; reflexivity|]. split; [reflexivity|].
  apply (proj1 (proj2 (@fixed_records_advance_by_their_width sample_codepages))
               (mid_parse true "cp1252" sample_header_records 44) tt).
  vm_compute. reflexivity.
Defined.

Lemma reference_record_raises_NameError_witness :
  peek_H 21 (mid_parse true "cp1252" sample_references 0) = Some 0x0033%Z /\
  peek_L 23 (mid_parse true "cp1252" sample_references 0) = Some 2%Z /\
  reference_array (mid_parse true "cp1252" sample_references 21) =
  Raise (NameError "unicode2str")
        (logged [mkRecord DEBUG "reference type = {0:04X}" [VInt 0x0033]]
                (mid_parse true "cp1252" sample_references 29)).
Proof.
  split; [reflexivity|]. split; [reflexivity|].
  exact (proj1 (reference_record_raises_NameError
                  (mid_parse true "cp1252" sample_references 21)
                  0x0033%Z 2%Z eq_refl)
               (or_intror eq_refl) eq_refl).
Defined.

Lemma projectdocstring_consumed_witness :
  peek_L 10 (mid_parse false "cp1252" sample_header_records 0) = Some 3%Z /\
  projectdocstring_record (mid_parse false "cp1252" sample_header_records 0) =
  Ok tt
    (logged [mkRecord ERROR
               "PROJECTDOCSTRING_SizeOfDocStringUnicode is not even" []]
       (bound "docstring_unicode" (VDecoded "utf16" [x48; x00; x69])
          (bound "docstring" (VDecoded "cp1252" [x48; x69])
             (mid_parse false "cp1252" sample_header_records 17)))).
Proof.
  split; [reflexivity|].
  apply (projectdocstring_consumed
           (mid_parse false "cp1252" sample_header_records 0) "cp1252" 2%Z 3%Z
           eq_refl eq_refl eq_refl eq_refl eq_refl).
  vm_compute. lia.
Defined.

Lemma projecthelpfilepath_consumed_witness :
  peek_L 2 (mid_parse false "cp1252" sample_header_records 17) = Some 1%Z /\
  projecthelpfilepath_record (mid_parse false "cp1252" sample_header_records 17) =
  Ok tt
    (logged [mkRecord ERROR
               "PROJECTHELPFILEPATH_HelpFile1 does not equal PROJECTHELPFILEPATH_HelpFile2" []]
       (mid_parse false "cp1252" sample_header_records 31)).
Proof.
  split; [reflexivity|].
  apply (projecthelpfilepath_consumed
           (mid_parse false "cp1252" sample_header_records 17) 1%Z 1%Z
           eq_refl eq_refl eq_refl eq_refl).
  vm_compute. lia.
Defined.

Lemma projectconstants_consumed_witness :
  peek_L 2 (mid_parse false "cp1252" sample_header_records 31) = Some 1%Z /\
  projectconstants_record (mid_parse false "cp1252" sample_header_records 31) =
  Ok tt (mid_parse false "cp1252" sample_header_records 44).
Proof.
  split; [reflexivity|].
  rewrite (projectconstants_consumed
             (mid_parse false "cp1252" sample_header_records 31) 1%Z 0%Z
             eq_refl eq_refl eq_refl eq_refl ltac:(vm_compute; lia)).
  reflexivity.
Defined.


Lemma projectlibflags_record_spec_witness :
  peek_L 6 (mid_parse true "cp1252" (dir_stream_bytes 1252 1 []) 78) = Some 1%Z /\
  projectlibflags_record (mid_parse true "cp1252" (dir_stream_bytes 1252 1 []) 78) =
  Ok tt (logged [mkRecord ERROR
                   "invalid value for {0} expected {1:04X} got {2:04X}"
                   [VStr "PROJECTLIBFLAGS_ProjectLibFlags"; VInt 0; VInt 1]]
                (mid_parse true "cp1252" (dir_stream_bytes 1252 1 []) 88)).
Proof.
  split; [reflexivity|].
  exact (projectlibflags_record_spec
           (mid_parse true "cp1252" (dir_stream_bytes 1252 1 []) 78) 1%Z
           eq_refl eq_refl eq_refl ltac:(discriminate)).
Defined.

Lemma projectname_out_of_range_consumed_witness :
  peek_L 2 (mid_parse true "cp1252" (dir_stream_bytes 1252 0 []) 38) = Some 0%Z /\
  exists s',
    projectname_record (mid_parse true "cp1252" (dir_stream_bytes 1252 0 []) 38)
      = Ok tt s' /\
    pos s' = 44 /\
    assoc "projectname" (attrs s') = Some (VDecoded "cp1252" []).
Proof.
  split; [reflexivity|].
  destruct (projectname_out_of_range_consumed
              (mid_parse true "cp1252" (dir_stream_bytes 1252 0 []) 38) 0%Z
              "cp1252" eq_refl eq_refl eq_refl ltac:(left; lia))
    as (s' & H1 & H2 & H3 & _).
  exists s'. repeat split; assumption.
Defined.

(** *** [extract_macros] *)

Lemma VBA_Parser_induction (P : VBA_Parser -> Prop) :
  (forall vba_projects, P (OleFile vba_projects)) ->
  (forall ole_subfiles, Forall P ole_subfiles -> P (SubFiles ole_subfiles)) ->
  forall parser, P parser.
Proof.
  intros Hole Hsub. fix IH 1. intros [ps|subs].
  - apply Hole.
  - apply Hsub. induction subs as [|q rest IHrest]; constructor.
    + apply IH.
    + exact IHrest.
Qed.

Section Extract.
Context {cp : Codepages}.
Variable parse_modules : state -> exn + list (string * string).

Lemma extract_project_raises vba_encoding project log0 :
  extract_project parse_modules vba_encoding project log0 =
  ([], Raised (NameError "decompress_stream"),
   log0 ++ [mkRecord DEBUG "Parsing the dir stream from %r"
                     [VStr (snd (fst project))]]).
Proof. by destruct project as [[[vba_root project_path] dirpath] data]. Qed.

Lemma extract_projects_spec vba_encoding vba_projects log0 :
  extract_projects parse_modules vba_encoding vba_projects log0 =
  match vba_projects with
  | [] => ([], Exhausted, log0)
  | project :: _ =>
      ([], Raised (NameError "decompress_stream"),
       log0 ++ [mkRecord DEBUG "Parsing the dir stream from %r"
                         [VStr (snd (fst project))]])
  end.
Proof.
  destruct vba_projects as [|project rest]; [reflexivity|]. simpl.
  by rewrite extract_project_raises.
Qed.

Lemma extract_macros_cases (parser : VBA_Parser)
    (vba_encoding : string) (log0 : list record) :
  exists e log1,
    extract_macros parse_modules parser vba_encoding log0 = ([], e, log1) /\
    (count_projects parser = 0 -> e = Exhausted /\ log1 = log0) /\
    (0 < count_projects parser ->
     e = Raised (NameError "decompress_stream") /\
     exists dirpath,
       log1 = log0 ++ [mkRecord DEBUG "Parsing the dir stream from %r"
                                [VStr dirpath]]).
Proof.
  revert log0. induction parser as [ps|subs IH] using VBA_Parser_induction;
    intros log0.
  - simpl. rewrite extract_projects_spec. destruct ps as [|p ps].
    + exists Exhausted, log0. split; [done|]. split; [done|]. simpl. lia.
    + eexists _, _. split; [done|]. split; [simpl; lia|].
      intros _. split; [done|]. by eexists.
  - simpl. induction IH as [|q rest Hq _ IHrest].
    + exists Exhausted, log0. split; [done|]. split; [done|]. simpl. lia.
    + destruct (Hq log0) as (e & l & -> & H0 & H1).
      destruct (count_projects q) as [|n] eqn:E.
      * destruct (H0 eq_refl) as [-> ->].
        destruct IHrest as (e' & l' & -> & H0' & H1').
        exists e', l'. split; [done|]. split; simpl; auto.
      * destruct (H1 ltac:(lia)) as (-> & Hlog).
        exists (Raised (NameError "decompress_stream")), l.
        split; [done|]. split; [lia|]. intros _. by split.
Qed.

(** X15.  [extract_macros] yields no module at all.  For a parser without a
    VBA project the generator is exhausted at once and logs nothing.  With
    at least one project, in the file or in a sub file, it raises out of
    the constructor of the first one, [NameError] for [decompress_stream]
    at line 110, before anything is yielded and whatever oletools'
    [parse_modules] would return; line 106 has logged the one record of
    that project. *)
Theorem extract_macros_yields_nothing (parser : VBA_Parser)
    (vba_encoding : string) (log0 : list record) :
  exists e log1,
    extract_macros parse_modules parser vba_encoding log0 = ([], e, log1) /\
    (count_projects parser = 0 -> e = Exhausted /\ log1 = log0) /\
    (0 < count_projects parser ->
     e = Raised (NameError "decompress_stream") /\
     exists dirpath,
       log1 = log0 ++ [mkRecord DEBUG "Parsing the dir stream from %r"
                                [VStr dirpath]]).
Proof.
  revert log0. induction parser as [ps|subs IH] using VBA_Parser_induction;
    intros log0.
  - simpl. rewrite extract_projects_spec. destruct ps as [|p ps].
    + exists Exhausted, log0. split; [done|]. split; [done|]. simpl. lia.
    + eexists _, _. split; [done|]. split; [simpl; lia|].
      intros _. split; [done|]. by eexists.
  - simpl. induction IH as [|q rest Hq _ IHrest].
    + exists Exhausted, log0. split; [done|]. split; [done|]. simpl. lia.
    + destruct (Hq log0) as (e & l & -> & H0 & H1).
      destruct (count_projects q) as [|n] eqn:E.
      * destruct (H0 eq_refl) as [-> ->].
        destruct IHrest as (e' & l' & -> & H0' & H1').
        exists e', l'. split; [done|]. split; simpl; auto.
      * destruct (H1 ltac:(lia)) as (-> & Hlog).
        exists (Raised (NameError "decompress_stream")), l.
        split; [done|]. split; [lia|]. intros _. by split.
Qed.

End Extract.

End OlevbaMore.

(* ===================================================================== *)
(** ** More on the driver: names, passes, [get_outputpath] and [main] *)
(* ===================================================================== *)

Module DriverMore.
Import Driver DriverFacts.
Local Open Scope string_scope.
Local Open Scope list_scope.

Implicit Types (use_orig_extension : bool) (filename code x : string).
Implicit Types (dest root parent source p q : Path).
Implicit Types (modules written ms : list (string * string)).

(** *** One module *)

Lemma output_file_eq (dest : Path) filename use_orig_extension :
  output_file dest filename use_orig_extension =
  (dest ++ [kind_of filename]) ++
  [(filename ++ (if use_orig_extension then "" else ".vb"))%string].
Proof. unfold output_file. by rewrite <- app_assoc. Qed.

Lemma get_outputpath_inr (parent : Path) filename use_orig_extension
    (fs fs' : gmap (list string) node) p :
  get_outputpath parent filename use_orig_extension fs = inr (p, fs') ->
  p = output_file parent filename use_orig_extension /\
  is_Some (fs' !! (parent ++ [kind_of filename])) /\
  (forall q, fs' !! q = fs !! q \/
             (fs !! q = None /\ fs' !! q = Some Dir /\
              q <> [] /\ q `prefix_of` parent ++ [kind_of filename])).
Proof.
  unfold get_outputpath. rewrite <- output_file_eq.
  set (subdir := parent ++ [kind_of filename]).
  assert (Hne : subdir <> []) by (unfold subdir; by destruct parent).
  unfold exists_. rewrite stat_nonempty by exact Hne.
  destruct (fs !! subdir) as [v|] eqn:E.
  - intros [= <- <-]. split; [done|]. split; [by exists v|]. intros q. by left.
  - unfold mkdir_parents_exist_ok.
    destruct (mkdirs (ancestors_and_self subdir) fs) as [e|fs1] eqn:M; [done|].
    intros [= <- <-]. split; [done|]. split.
    + exists Dir. apply (mkdirs_made _ _ _ subdir M). apply in_ancestors_self.
    + intros q. destruct (mkdirs_grows _ _ _ q M) as [H|(H1 & H2 & H3)]; [by left|].
      right. apply in_ancestors_and_self in H3. tauto.
Qed.

Lemma extracted_only_mono dest use_orig_extension modules modules' fs :
  (forall m, In m modules -> In m modules') ->
  extracted_only dest use_orig_extension modules fs ->
  extracted_only dest use_orig_extension modules' fs.
Proof.
  intros Hsub H q Hq. specialize (H q Hq).
  destruct (fs !! q) as [[|t]|]; [| |done].
  - destruct H as [H|(f & Hf & ->)]; [by left|right]. exists f. split; [|done].
    apply in_map_iff in Hf as ([f' c] & <- & Hin). apply in_map_iff.
    exists (f', c). split; [done|by apply Hsub].
  - destruct H as (f & Hf & ->). exists f. split; [by apply Hsub|done].
Qed.

Lemma write_module_step (root : Path) x use_orig_extension written filename code
    (fs : gmap (list string) node) :
  (forall q, In q (ancestors_and_self root) -> fs !! q = Some Dir) ->
  extracted_only (root ++ [x]) use_orig_extension written fs ->
  exists fs1 fs2,
    get_outputpath (root ++ [x]) filename use_orig_extension fs =
      inr (output_file (root ++ [x]) filename use_orig_extension, fs1) /\
    write_text (output_file (root ++ [x]) filename use_orig_extension) code fs1 =
      inr fs2 /\
    extracted_only (root ++ [x]) use_orig_extension
                   (written ++ [(filename, code)]) fs2 /\
    (forall q, ~ (root ++ [x]) `prefix_of` q -> fs2 !! q = fs !! q) /\
    fs2 !! output_file (root ++ [x]) filename use_orig_extension = Some (File code).
Proof.
  intros Hroot Hinv.
  set (dest := root ++ [x]) in *.
  set (subdir := dest ++ [kind_of filename]).
  set (out := output_file dest filename use_orig_extension).
  assert (Hout : out = subdir ++
            [(filename ++ (if use_orig_extension then "" else ".vb"))%string])
    by apply output_file_eq.
  assert (Ldest : length dest = S (length root))
    by (unfold dest; rewrite length_app; simpl; lia).
  assert (Lsub : length subdir = S (length dest))
    by (unfold subdir; rewrite length_app; simpl; lia).
  assert (Lout : length out = S (length subdir))
    by (rewrite Hout, length_app; simpl; lia).
  assert (Lfile : forall f, length (output_file dest f use_orig_extension)
                            = S (S (length dest)))
    by (intros f; unfold output_file; rewrite length_app; simpl; lia).
  assert (Lkind : forall f, length (dest ++ [kind_of f]) = S (length dest))
    by (intros f; rewrite length_app; simpl; lia).
  assert (Pdest : dest `prefix_of` dest) by done.
  assert (Psub : dest `prefix_of` subdir) by (by apply prefix_app_r).
  assert (Pout : dest `prefix_of` out)
    by (rewrite Hout; by do 2 apply prefix_app_r).
  assert (Ndest : dest <> []) by (unfold dest; by destruct root).
  assert (Nsub : subdir <> []) by (unfold subdir; by destruct dest).
  assert (Nout : out <> []) by (rewrite Hout; by destruct subdir).
  assert (Dsub : fs !! subdir = None \/ fs !! subdir = Some Dir).
  { pose proof (Hinv subdir Psub) as H.
    destruct (fs !! subdir) as [[|t]|]; [by right| |by left].
    destruct H as (f & _ & E). apply (f_equal length) in E.
    rewrite Lfile in E. lia. }
  assert (Ddest : fs !! dest = None \/ fs !! dest = Some Dir).
  { pose proof (Hinv dest Pdest) as H.
    destruct (fs !! dest) as [[|t]|]; [by right| |by left].
    destruct H as (f & _ & E). apply (f_equal length) in E.
    rewrite Lfile in E. lia. }
  assert (Dout : fs !! out <> Some Dir).
  { pose proof (Hinv out Pout) as H. intros E. rewrite E in H.
    destruct H as [H|(f & _ & H)]; apply (f_equal length) in H.
    - lia.
    - rewrite Lkind in H. lia. }
  assert (exists fs1,
            get_outputpath dest filename use_orig_extension fs = inr (out, fs1) /\
            fs1 !! subdir = Some Dir /\
            (forall q, q <> dest -> q <> subdir -> fs1 !! q = fs !! q) /\
            (fs1 !! dest = fs !! dest \/ fs1 !! dest = Some Dir))
    as (fs1 & G & S1 & F1 & D1).
  { unfold get_outputpath. fold subdir. rewrite <- Hout.
    unfold exists_. rewrite stat_nonempty by exact Nsub.
    destruct Dsub as [E|E]; rewrite E.
    - unfold mkdir_parents_exist_ok, subdir.
      rewrite ancestors_and_self_snoc. unfold dest at 1.
      rewrite ancestors_and_self_snoc. fold dest. fold subdir.
      rewrite <- app_assoc.
      rewrite (mkdirs_app _ _ _ _ (mkdirs_all_there _ _ Hroot)).
      assert (Hds : dest <> subdir) by (intros H; rewrite <- H in Lsub; lia).
      simpl. destruct Ddest as [D|D]; rewrite D.
      + rewrite lookup_insert_ne by done. rewrite E.
        eexists. split; [reflexivity|]. split; [by rewrite lookup_insert_eq|].
        split.
        * intros q H1 H2. by rewrite !lookup_insert_ne.
        * right. rewrite lookup_insert_ne by done. by rewrite lookup_insert_eq.
      + rewrite E. eexists. split; [reflexivity|].
        split; [by rewrite lookup_insert_eq|]. split.
        * intros q H1 H2. by rewrite lookup_insert_ne.
        * left. by rewrite lookup_insert_ne.
    - exists fs. split; [done|]. split; [done|]. split; [done|by left]. }
  assert (Hos : out <> subdir) by (intros H; rewrite H in Lout; lia).
  assert (Hod : out <> dest) by (intros H; rewrite H in Lout; lia).
  exists fs1, (<[out := File code]> fs1).
  split; [exact G|]. split; [|split; [|split]].
  - unfold write_text. rewrite Hout at 1. rewrite removelast_last.
    rewrite !stat_nonempty by done. rewrite S1.
    rewrite F1 by done.
    by destruct (fs !! out) as [[|t]|].
  - intros q Hq. destruct (decide (q = out)) as [->|Hqo].
    + rewrite lookup_insert_eq. exists filename. split; [|done].
      rewrite in_app_iff. right. by left.
    + rewrite lookup_insert_ne by done.
      destruct (decide (q = subdir)) as [->|Hqs].
      * rewrite S1. right. exists filename. split; [|done].
        rewrite map_app, in_app_iff. right. by left.
      * assert (Hold : extracted_only dest use_orig_extension
                         (written ++ [(filename, code)]) fs).
        { apply (extracted_only_mono _ _ written); [|done].
          intros m Hm. rewrite in_app_iff. by left. }
        destruct (decide (q = dest)) as [->|Hqd].
        -- destruct D1 as [D1|D1]; rewrite D1; [by apply Hold|by left].
        -- rewrite F1 by done. by apply Hold.
  - intros q Hq. rewrite lookup_insert_ne by (by intros <-).
    apply F1; by intros ->.
  - by rewrite lookup_insert_eq.
Qed.

(** *** The modules of one pass *)

Lemma write_modules_app dest use_orig_extension ms1 ms2
    (fs : gmap (list string) node) :
  write_modules dest use_orig_extension (ms1 ++ ms2) fs =
  match write_modules dest use_orig_extension ms1 fs with
  | inl e => inl e
  | inr fs1 => write_modules dest use_orig_extension ms2 fs1
  end.
Proof.
  revert fs. induction ms1 as [|[f c] ms1 IH]; intros fs; simpl; [done|].
  destruct (get_outputpath dest f use_orig_extension fs) as [e|[p fs1]]; [done|].
  destruct (write_text p c fs1) as [e|fs2]; [done|]. apply IH.
Qed.

Lemma write_modules_inv (root : Path) x use_orig_extension written modules
    (fs : gmap (list string) node) :
  (forall q, In q (ancestors_and_self root) -> fs !! q = Some Dir) ->
  extracted_only (root ++ [x]) use_orig_extension written fs ->
  exists fs',
    write_modules (root ++ [x]) use_orig_extension modules fs = inr fs' /\
    extracted_only (root ++ [x]) use_orig_extension (written ++ modules) fs' /\
    (forall q, ~ (root ++ [x]) `prefix_of` q -> fs' !! q = fs !! q).
Proof.
  revert written fs. induction modules as [|[f c] modules IH]; intros written fs Hroot Hinv.
  - exists fs. rewrite app_nil_r. by repeat split.
  - destruct (write_module_step root x use_orig_extension written f c fs Hroot Hinv)
      as (fs1 & fs2 & G & W & I2 & F2 & _).
    destruct (IH (written ++ [(f, c)]) fs2) as (fs' & W' & I' & F'); [|exact I2|].
    { intros q Hq. rewrite F2; [by apply Hroot|].
      apply in_ancestors_and_self in Hq as [_ Hq]. intros Hp.
      apply prefix_length in Hq, Hp. rewrite length_app in Hp. simpl in Hp. lia. }
    exists fs'. simpl. rewrite G, W. split; [exact W'|].
    split; [by rewrite <- app_assoc in I'|].
    intros q Hq. rewrite F' by done. by apply F2.
Qed.


Lemma write_text_inr p code (fs fs' : gmap (list string) node) :
  write_text p code fs = inr fs' -> fs' = <[p := File code]> fs.
Proof.
  unfold write_text. destruct (stat fs (removelast p)) as [[|t]|]; [|done|done].
  destruct (stat fs p) as [[|t]|]; [done| |]; by intros [= <-].
Qed.

Lemma write_modules_keeps dest use_orig_extension modules
    (fs fs' : gmap (list string) node) p (v : node) :
  write_modules dest use_orig_extension modules fs = inr fs' ->
  fs !! p = Some v ->
  (forall g, In g (map fst modules) -> output_file dest g use_orig_extension <> p) ->
  fs' !! p = Some v.
Proof.
  revert fs. induction modules as [|[g c] modules IH]; intros fs; simpl.
  - by intros [= <-].
  - destruct (get_outputpath dest g use_orig_extension fs) as [e|[p1 fs1]] eqn:G;
      [done|].
    destruct (write_text p1 c fs1) as [e|fs2] eqn:W; [done|].
    intros H Hp Hne. apply (IH _ H); [|intros g' Hg'; apply Hne; by right].
    apply get_outputpath_inr in G as (-> & _ & G).
    apply write_text_inr in W as ->.
    rewrite lookup_insert_ne by (apply Hne; by left).
    destruct (G p) as [E|[E _]]; congruence.
Qed.

Lemma output_file_inj dest use_orig_extension (f g : string) :
  output_file dest f use_orig_extension = output_file dest g use_orig_extension ->
  f = g.
Proof.
  unfold output_file. intros H. apply app_inv_head in H.
  injection H as _ H. by apply append_inj_r in H.
Qed.

(** *** A pass *)

Lemma ancestors_are_directories (d : Path) x (fs : gmap (list string) node) :
  (forall q, q <> [] -> q `prefix_of` d ++ [x] -> q <> d ++ [x] ->
             fs !! q = Some Dir) ->
  forall q, In q (ancestors_and_self d) -> fs !! q = Some Dir.
Proof.
  intros Hup q Hq. apply in_ancestors_iff in Hq as [H1 H2].
  apply Hup; [done|by apply prefix_app_r|].
  intros ->. apply prefix_length in H2. rewrite length_app in H2. simpl in H2. lia.
Qed.

(** Writing the modules below a directory whose ancestors are there. *)
Lemma write_modules_below dest use_orig_extension written modules
    (fs : gmap (list string) node) :
  dest <> [] ->
  (forall q, q <> [] -> q `prefix_of` dest -> q <> dest -> fs !! q = Some Dir) ->
  extracted_only dest use_orig_extension written fs ->
  exists fs',
    write_modules dest use_orig_extension modules fs = inr fs' /\
    extracted_only dest use_orig_extension (written ++ modules) fs' /\
    (forall q, ~ dest `prefix_of` q -> fs' !! q = fs !! q).
Proof.
  intros Hne Hup. destruct dest as [|x d _] using rev_ind; [done|].
  apply write_modules_inv. by apply (ancestors_are_directories d x).
Qed.

Lemma nothing_below_extracted dest use_orig_extension
    (fs : gmap (list string) node) :
  nothing_below dest fs -> extracted_only dest use_orig_extension [] fs.
Proof. intros H q Hq. by rewrite (H q Hq). Qed.

Lemma process_source_inr root source use_orig_extension modules
    (fs fs' : gmap (list string) node) :
  process_source root source use_orig_extension modules fs = inr fs' ->
  exists fs1,
    prepare_dest root source fs = inr fs1 /\
    write_modules (dest_of root source) use_orig_extension modules fs1 = inr fs'.
Proof.
  unfold process_source. destruct (prepare_dest root source fs) as [e|fs1]; [done|].
  intros H. by exists fs1.
Qed.


(** *** Names *)

(** X18.  The directory of a workbook found below a directory argument is
    named after the workbook without its extension, with two exceptions.
    The file name is a base name, which is not empty, followed by a dot and
    an extension without a dot that, lower-cased and with the dot, is in
    the allow-list.  The directory is the child of the output root named
    by the base name, unless the base name is ["."] (a workbook named
    ["..xls"]), when it is the output root itself; for the base name
    [".."] (a workbook named ["...xls"]) the child so named is the parent
    of the output root. *)
Theorem dest_named_after_workbook root (f : Path) :
  accepted f = true ->
  exists basename e,
    name f = (basename ++ String "." e)%string /\
    has_char "." e = false /\
    In (lower (String "." e)) OFFICE_FILE_EXTENSIONS /\
    basename <> "" /\
    dest_of root f = (if String.eqb basename "." then root else root ++ [basename]).
Proof.
  intros H. apply accepted_spec in H as [_ H].
  destruct (stem_cases (name f)) as [(e & H1 & H2 & H3 & H4 & H5)|(_ & H2 & _)].
  - exists (stem (name f)), e. rewrite H2 in H.
    split; [exact H1|]. split; [exact H5|]. split; [exact H|].
    split; [exact H3|]. unfold dest_of, joinpath.
    destruct (String.eqb_spec (stem (name f)) ""); [done|]. simpl.
    by destruct (String.eqb (stem (name f)) ".").
  - rewrite H2 in H. simpl in H.
    repeat (destruct H as [H|H]; [discriminate H|]). destruct H.
Qed.

Lemma dest_named_after_workbook_witness :
  accepted ["w"; "..xls"] = true /\
  exists basename e,
    name ["w"; "..xls"] = (basename ++ String "." e)%string /\
    has_char "." e = false /\
    In (lower (String "." e)) OFFICE_FILE_EXTENSIONS /\
    basename <> "" /\
    dest_of ["w"; "out"] ["w"; "..xls"] =
      (if String.eqb basename "." then ["w"; "out"] else ["w"; "out"] ++ [basename]).
Proof.
  split; [reflexivity|].
  exact (dest_named_after_workbook ["w"; "out"] ["w"; "..xls"] eq_refl).
Defined.

(** *** Source paths *)

(** X19.  Whatever is processed without [--recursive] is processed with it
    too. *)
Theorem recursive_finds_more (fs : gmap (list string) node) (cwd : Path)
    (sources : list PurePath) (y : Path) :
  In y (get_source_paths fs cwd sources false) ->
  In y (get_source_paths fs cwd sources true).
Proof.
  unfold get_source_paths. rewrite !in_flat_map.
  intros (src & Hsrc & Hy). exists src. split; [exact Hsrc|].
  destruct (is_dir fs (absolute cwd src)); [|exact Hy].
  rewrite filter_In in *. destruct Hy as [Hy Ha]. split; [|exact Ha].
  unfold glob in *. rewrite filter_In in *. destruct Hy as [Hy Hc].
  split; [exact Hy|].
  apply andb_true_iff in Hc as [H1 H2]. apply andb_true_iff. split; [exact H1|].
  apply Nat.eqb_eq in H2. apply Nat.ltb_lt. lia.
Qed.

Lemma recursive_finds_more_witness :
  In ["w"; "B.XLS"] (get_source_paths sample_fs ["w"] [mkPath false []] false) /\
  In ["w"; "B.XLS"] (get_source_paths sample_fs ["w"] [mkPath false []] true).
Proof.
  assert (H : In ["w"; "B.XLS"]
                 (get_source_paths sample_fs ["w"] [mkPath false []] false))
    by (vm_compute; left; reflexivity).
  split; [exact H|].
  exact (recursive_finds_more sample_fs ["w"] [mkPath false []] ["w"; "B.XLS"] H).
Defined.

(** *** A pass of the loop *)

(** X20.  As far as the directory tree decides (permissions, disk space and
    the output encoding apart), the file operations of a pass fail exactly
    when the base name of the workbook is [".."], when the directory of
    the workbook is the root directory, or when a regular file is where
    that directory or one of its ancestors has to be; once the directory
    is cleared, writing the modules cannot fail. *)
Theorem pass_fails_iff_file_in_the_way (fs : gmap (list string) node)
    root source use_orig_extension modules :
  plain_names use_orig_extension modules ->
  ((exists e, process_source root source use_orig_extension modules fs = inl e) <->
   (stem (name source) = ".." \/ dest_of root source = [] \/
    exists q t, q <> [] /\ q `prefix_of` dest_of root source /\
                fs !! q = Some (File t))).
Proof.
  intros _. split.
  - intros [e H]. unfold process_source in H.
    destruct (prepare_dest root source fs) as [e'|fs1] eqn:P.
    + by apply prepare_dest_inl in P.
    + exfalso. pose proof (prepare_dest_inr _ _ _ _ P) as (_ & Hne & _).
      apply prepared in P as (Hup & Hnb & _).
      destruct (write_modules_below (dest_of root source) use_orig_extension
                  [] modules fs1 Hne Hup
                  (nothing_below_extracted _ _ _ Hnb)) as (fs' & W & _).
      congruence.
  - intros H. unfold process_source.
    destruct (prepare_dest root source fs) as [e|fs1] eqn:P; [by exists e|].
    exfalso. apply prepare_dest_inr in P as (H1 & H2 & fs0 & M & _).
    destruct H as [H|[H|(q & t & Hne & Hpre & Ht)]]; [done|done|].
    destruct (mkdirs_blocked (ancestors_and_self (dest_of root source)) fs q t)
      as [e M']; [by apply in_ancestors_iff|done|].
    congruence.
Qed.

Lemma pass_fails_iff_file_in_the_way_witness :
  plain_names false sample_modules /\
  stem (name ["w"; "...xls"]) = ".." /\
  exists e, process_source ["w"; "out"] ["w"; "...xls"] false sample_modules
              sample_fs = inl e.
Proof.
  assert (H : plain_names false sample_modules) by (repeat constructor).
  split; [exact H|]. split; [reflexivity|].
  apply (pass_fails_iff_file_in_the_way sample_fs ["w"; "out"] ["w"; "...xls"]
           false sample_modules H).
  by left.
Defined.

(** X21.  After a pass, everything at or below the directory of the workbook
    comes from the modules of this pass: the directory itself, a sub
    directory for the kind of one of them, or the file of one of them with
    its text.  Outside it nothing changed, but for missing ancestors, which
    stay created.  The directory is the one of lines 449-451: for a
    workbook named ["..xls"] it is the output root, and what other
    workbooks have there is inside it and gone. *)
Theorem pass_leaves_only_its_modules (fs fs' : gmap (list string) node)
    root source use_orig_extension modules :
  plain_names use_orig_extension modules ->
  process_source root source use_orig_extension modules fs = inr fs' ->
  extracted_only (dest_of root source) use_orig_extension modules fs' /\
  (forall q, ~ dest_of root source `prefix_of` q ->
     fs' !! q = fs !! q \/
     (fs !! q = None /\ fs' !! q = Some Dir /\
      q `prefix_of` dest_of root source)).
Proof.
  intros _ H. apply process_source_inr in H as (fs1 & P & W).
  pose proof (prepare_dest_inr _ _ _ _ P) as (_ & Hne & _).
  apply prepared in P as (Hup & Hnb & Hout).
  destruct (write_modules_below (dest_of root source) use_orig_extension
              [] modules fs1 Hne Hup
              (nothing_below_extracted _ _ _ Hnb)) as (fs2 & W2 & I2 & F2).
  rewrite W in W2. injection W2 as <-.
  split; [exact I2|]. intros q Hq. rewrite F2 by done. by apply Hout.
Qed.

Lemma pass_leaves_only_its_modules_witness :
  process_source ["w"; "out"] ["w"; "B.XLS"] false sample_modules sample_fs =
    inr sample_fs_written /\
  extracted_only (dest_of ["w"; "out"] ["w"; "B.XLS"]) false sample_modules
                 sample_fs_written.
Proof.
  assert (H : plain_names false sample_modules) by (repeat constructor).
  assert (E : process_source ["w"; "out"] ["w"; "B.XLS"] false sample_modules
                sample_fs = inr sample_fs_written)
    by (vm_cast_no_check (@eq_refl _ (@inr OSError _ sample_fs_written))).
  split; [exact E|].
  exact (proj1 (pass_leaves_only_its_modules sample_fs sample_fs_written
                  ["w"; "out"] ["w"; "B.XLS"] false sample_modules H E)).
Defined.

(** X22.  Every module of a pass has its file, and a file holds the text of
    the last module of that file name: modules of one name overwrite one
    another without notice. *)
Theorem last_module_of_a_name_wins (fs fs' : gmap (list string) node)
    root source use_orig_extension ms filename code modules :
  plain_names use_orig_extension (ms ++ (filename, code) :: modules) ->
  process_source root source use_orig_extension
                 (ms ++ (filename, code) :: modules) fs = inr fs' ->
  ~ In filename (map fst modules) ->
  fs' !! output_file (dest_of root source) filename use_orig_extension =
    Some (File code).
Proof.
  intros _ H Hlast. apply process_source_inr in H as (fs1 & P & W).
  pose proof (prepare_dest_inr _ _ _ _ P) as (_ & Hne & _).
  apply prepared in P as (Hup & Hnb & _).
  rewrite write_modules_app in W.
  destruct (dest_of root source) as [|x d _] using rev_ind; [done|].
  pose proof (ancestors_are_directories _ _ _ Hup) as Hroot.
  destruct (write_modules_inv d x use_orig_extension
              [] ms fs1 Hroot
              (nothing_below_extracted _ _ _ Hnb)) as (fsa & Wa & Ia & Fa).
  rewrite Wa in W. simpl in W, Ia.
  destruct (write_module_step d x use_orig_extension
              ms filename code fsa) as (fsb & fsc & G & T & _ & _ & L);
    [|exact Ia|].
  { intros q Hq. rewrite Fa; [by apply Hroot|].
    apply in_ancestors_and_self in Hq as [_ Hq]. intros Hp.
    apply prefix_length in Hq, Hp. rewrite length_app in Hp. simpl in Hp. lia. }
  rewrite G, T in W.
  apply (write_modules_keeps _ _ _ _ _ _ _ W L).
  intros g Hg E. apply output_file_inj in E as ->. by apply Hlast.
Qed.

Lemma last_module_of_a_name_wins_witness :
  process_source ["w"; "out"] ["w"; "B.XLS"] false sample_modules sample_fs =
    inr sample_fs_written /\
  sample_fs_written !! ["w"; "out"; "B"; "module"; "a.bas.vb"] =
    Some (File "3").
Proof.
  assert (H : plain_names false sample_modules) by (repeat constructor).
  assert (E : process_source ["w"; "out"] ["w"; "B.XLS"] false sample_modules
                sample_fs = inr sample_fs_written)
    by (vm_cast_no_check (@eq_refl _ (@inr OSError _ sample_fs_written))).
  split; [exact E|].
  refine (last_module_of_a_name_wins sample_fs sample_fs_written
            ["w"; "out"] ["w"; "B.XLS"] false
            [("a.bas", "1"); ("C.cls", "2")] "a.bas" "3" [] H E _).
  intros [].
Defined.


(** *** The kind of a module *)

Lemma last_dot_part_app (p e : string) :
  has_char "." e = false -> last_dot_part (p ++ String "." e) = e.
Proof.
  intros He. unfold last_dot_part, rfind_dot.
  rewrite (rfind_dot_from_app 0 p e He). simpl Nat.add.
  replace (p ++ String "." e)%string with ((p ++ ".") ++ e)%string.
  - replace (S (String.length p)) with (String.length (p ++ "."))
      by (rewrite length_append; simpl; lia).
    rewrite substring_after, !length_append. simpl.
    replace (String.length p + 1 + String.length e - (String.length p + 1))
      with (String.length e) by lia.
    apply substring_all.
  - clear. induction p as [|c p IH]; [done|].
    change (String c ((p ++ ".") ++ e) = String c (p ++ String "." e)).
    by f_equal.
Qed.

(** X23.  The sub directory of a module is chosen by what follows the last dot
    of its file name, compared as it is spelled: [class] for [cls], [form]
    for [frm], [module] for anything else; a file name without a dot is its
    own extension. *)
Theorem kind_by_last_extension (p e : string) :
  has_char "." e = false ->
  kind_of (p ++ String "." e) =
    (if String.eqb e "cls" then "class"
     else if String.eqb e "frm" then "form" else "module") /\
  kind_of e =
    (if String.eqb e "cls" then "class"
     else if String.eqb e "frm" then "form" else "module").
Proof.
  intros He. unfold kind_of. rewrite (last_dot_part_app p e He).
  split; [done|]. unfold last_dot_part, rfind_dot.
  by rewrite (rfind_dot_from_none 0 e He).
Qed.

Lemma kind_by_last_extension_witness :
  kind_of "a.cls.CLS" = "module" /\ kind_of "CLS" = "module".
Proof. exact (kind_by_last_extension "a.cls" "CLS" eq_refl). Defined.

(** *** [get_outputpath] *)

(** X24.  [get_outputpath] returns <parent>/<kind>/<file name> and makes
    directories only: the returned path itself is not created, no entry
    that is there changes, what appears is a directory on the way to the
    sub directory, and a second call changes nothing. *)
Theorem get_outputpath_only_makes_directories (fs fs' : gmap (list string) node)
    parent filename use_orig_extension p :
  component (filename ++ (if use_orig_extension then "" else ".vb")) = true ->
  get_outputpath parent filename use_orig_extension fs = inr (p, fs') ->
  p = output_file parent filename use_orig_extension /\
  fs' !! p = fs !! p /\
  (forall q v, fs !! q = Some v -> fs' !! q = Some v) /\
  (forall q, fs !! q = None ->
     fs' !! q = None \/
     (fs' !! q = Some Dir /\ q `prefix_of` parent ++ [kind_of filename])) /\
  get_outputpath parent filename use_orig_extension fs' = inr (p, fs').
Proof.
  intros _ H. apply get_outputpath_inr in H as (-> & [v Hv] & G).
  split; [done|]. split; [|split; [|split]].
  - destruct (G (output_file parent filename use_orig_extension))
      as [E|(_ & _ & _ & E)]; [done|].
    apply prefix_length in E. rewrite output_file_eq, !length_app in E.
    simpl in E. lia.
  - intros q v' Hq. destruct (G q) as [E|[E _]]; congruence.
  - intros q Hq. destruct (G q) as [E|(_ & E & _ & P)]; [left; congruence|by right].
  - unfold get_outputpath, exists_.
    rewrite stat_nonempty by (by destruct parent). rewrite Hv.
    by rewrite <- output_file_eq.
Qed.

Lemma get_outputpath_only_makes_directories_witness :
  get_outputpath ["w"; "out"; "B"] "C.cls" false sample_fs_cleared =
    inr (["w"; "out"; "B"; "class"; "C.cls.vb"],
         <[["w"; "out"; "B"; "class"] := Dir]>
           (<[["w"; "out"; "B"] := Dir]> sample_fs_cleared)) /\
  get_outputpath ["w"; "out"; "B"] "C.cls" false
    (<[["w"; "out"; "B"; "class"] := Dir]>
       (<[["w"; "out"; "B"] := Dir]> sample_fs_cleared)) =
    inr (["w"; "out"; "B"; "class"; "C.cls.vb"],
         <[["w"; "out"; "B"; "class"] := Dir]>
           (<[["w"; "out"; "B"] := Dir]> sample_fs_cleared)).
Proof.
  assert (E : get_outputpath ["w"; "out"; "B"] "C.cls" false sample_fs_cleared =
    inr (["w"; "out"; "B"; "class"; "C.cls.vb"],
         <[["w"; "out"; "B"; "class"] := Dir]>
           (<[["w"; "out"; "B"] := Dir]> sample_fs_cleared)))
    by (vm_cast_no_check
          (@eq_refl _ (@inr OSError _
             (["w"; "out"; "B"; "class"; "C.cls.vb"],
              <[["w"; "out"; "B"; "class"] := Dir]>
                (<[["w"; "out"; "B"] := Dir]> sample_fs_cleared))))).
  split; [exact E|].
  exact (proj2 (proj2 (proj2 (proj2
    (get_outputpath_only_makes_directories
       sample_fs_cleared _ ["w"; "out"; "B"] "C.cls" false _ eq_refl E))))).
Defined.

(** X25.  As far as the directory tree decides, [get_outputpath] fails
    exactly when the sub directory is not there and a regular file is where
    the parent directory or one of its ancestors has to be.  A sub directory
    that is there is taken as it is, also when it is a regular file. *)
Theorem get_outputpath_fails_iff (fs : gmap (list string) node)
    parent filename use_orig_extension :
  (exists e, get_outputpath parent filename use_orig_extension fs = inl e) <->
  fs !! (parent ++ [kind_of filename]) = None /\
  (exists q t, q <> [] /\ q `prefix_of` parent /\ fs !! q = Some (File t)).
Proof.
  unfold get_outputpath, exists_, mkdir_parents_exist_ok.
  rewrite stat_nonempty by (by destruct parent).
  rewrite ancestors_and_self_snoc.
  destruct (fs !! (parent ++ [kind_of filename])) as [v|] eqn:E.
  - split; [by intros [e H]|by intros [H _]].
  - split.
    + intros [e H]. split; [done|].
      destruct (mkdirs _ fs) as [e'|fs'] eqn:M; [|done].
      apply mkdirs_fails in M as (q & t & Hq & Ht).
      apply in_app_iff in Hq as [Hq|[<-|[]]]; [|congruence].
      apply in_ancestors_and_self in Hq. exists q, t. tauto.
    + intros (_ & q & t & Hne & Hpre & Ht).
      destruct (mkdirs_blocked
                  (ancestors_and_self parent ++ [parent ++ [kind_of filename]])
                  fs q t) as [e M]; [|done|].
      * apply in_app_iff. left. by apply in_ancestors_iff.
      * exists e. by rewrite M.
Qed.

(** *** The output root *)

(** X26.  Lines 441-445 either leave the output root a directory, having
    changed nothing if it was one and otherwise only created it and its
    missing ancestors, or fail because a regular file is at the root path
    or at one of its ancestors. *)
Theorem ensure_root_makes_a_directory (fs : gmap (list string) node) root :
  match ensure_root root fs with
  | inr fs' =>
      is_dir fs' root = true /\
      (is_dir fs root = true -> fs' = fs) /\
      (forall q, fs' !! q = fs !! q \/
                 (fs !! q = None /\ fs' !! q = Some Dir /\ q `prefix_of` root))
  | inl e =>
      exists q t, q <> [] /\ q `prefix_of` root /\ fs !! q = Some (File t)
  end.
Proof.
  unfold ensure_root, exists_, is_dir, mkdir_parents_exist_ok.
  destruct (decide (root = [])) as [->|Hne]; simpl.
  - split; [done|]. split; [done|]. intros q. by left.
  - rewrite !stat_nonempty by done.
    destruct (fs !! root) as [[|t]|] eqn:E.
    + rewrite stat_nonempty, E by done. split; [done|]. split; [done|].
      intros q. by left.
    + exists root, t. by repeat split.
    + destruct (mkdirs (ancestors_and_self root) fs) as [e|fs'] eqn:M.
      * apply mkdirs_fails in M as (q & t & Hq & Ht).
        apply in_ancestors_and_self in Hq. exists q, t. tauto.
      * rewrite stat_nonempty by done.
        destruct (mkdirs_made _ _ _ root M) as [-> _];
          [by apply in_ancestors_iff|].
        split; [done|]. split; [done|]. intros q.
        destruct (mkdirs_grows _ _ _ q M) as [H|(H1 & H2 & H3)]; [by left|right].
        apply in_ancestors_and_self in H3. tauto.
Qed.


(** *** [main] *)

Lemma no_file_written_refl (fs : gmap (list string) node) : no_file_written fs fs.
Proof. by intros q t H. Qed.

Lemma no_file_written_trans (fs1 fs2 fs3 : gmap (list string) node) :
  no_file_written fs1 fs2 -> no_file_written fs2 fs3 -> no_file_written fs1 fs3.
Proof. intros H1 H2 q t H. by apply H1, H2. Qed.

Lemma mkdirs_no_file (ps : list Path) (fs fs' : gmap (list string) node) :
  mkdirs ps fs = inr fs' -> no_file_written fs fs'.
Proof.
  intros M q t H. destruct (mkdirs_grows _ _ _ q M) as [E|(_ & E & _)]; congruence.
Qed.

Lemma prepare_no_file root source (fs fs' : gmap (list string) node) :
  prepare_dest root source fs = inr fs' -> no_file_written fs fs'.
Proof.
  intros P q t H. apply prepared in P as (_ & Hnb & Hout).
  destruct (decide (dest_of root source `prefix_of` q)) as [Hq|Hq].
  - rewrite (Hnb q Hq) in H. done.
  - destruct (Hout q Hq) as [E|(_ & E & _)]; congruence.
Qed.

Lemma dest_of_cases root source :
  dest_of root source = root \/ dest_of root source = root ++ [stem (name source)].
Proof.
  unfold dest_of, joinpath.
  destruct (String.eqb (stem (name source)) "" || String.eqb (stem (name source)) ".");
    [by left|by right].
Qed.

Lemma prepare_keeps_nothing_below root source x (fs fs' : gmap (list string) node) :
  prepare_dest root source fs = inr fs' ->
  nothing_below (root ++ [x]) fs -> nothing_below (root ++ [x]) fs'.
Proof.
  intros P H q Hq. apply prepared in P as (_ & Hnb & Hout).
  destruct (decide (dest_of root source `prefix_of` q)) as [Hd|Hd];
    [by apply Hnb|].
  destruct (Hout q Hd) as [E|(_ & _ & E)]; [rewrite E; by apply H|].
  exfalso. apply Hd. rewrite (prefix_length_eq _ _ E); [done|].
  apply prefix_length in Hq. rewrite length_app in Hq. simpl in Hq.
  destruct (dest_of_cases root source) as [->| ->]; [lia|].
  rewrite length_app. simpl. lia.
Qed.

Lemma ensure_root_cases (fs : gmap (list string) node) root :
  match ensure_root root fs with
  | inr fs' => no_file_written fs fs'
  | inl _ => True
  end.
Proof.
  unfold ensure_root, mkdir_parents_exist_ok.
  destruct (exists_ fs root).
  - destruct (is_dir fs root); [apply no_file_written_refl|done].
  - destruct (mkdirs _ fs) as [e|fs'] eqn:M; [done|]. by eapply mkdirs_no_file.
Qed.

Section MainFacts.
Context {cp : Olevba.Codepages}.
Variable parse_modules : Olevba.state -> Olevba.exn + list (string * string).
Variable filter_vba : string -> string.

Lemma main_loop_extract root use_orig_extension (src_encoding : string)
    (sources : list (Path * Olevba.VBA_Parser)) (log0 : list Olevba.record)
    (fs : gmap (list string) node) :
  match main_loop root use_orig_extension
          (extract_all parse_modules filter_vba src_encoding sources log0) fs with
  | Finished fs' =>
      no_file_written fs fs' /\
      Forall (fun sp => Olevba.count_projects (snd sp) = 0) sources /\
      (forall sp, In sp sources -> dest_of root (fst sp) <> root ->
                  nothing_below (dest_of root (fst sp)) fs') /\
      (forall x, nothing_below (root ++ [x]) fs -> nothing_below (root ++ [x]) fs')
  | ExtractFailed e fs' =>
      no_file_written fs fs' /\
      e = Olevba.NameError "decompress_stream" /\
      exists pre source vba_parser post,
        sources = pre ++ (source, vba_parser) :: post /\
        Forall (fun sp => Olevba.count_projects (snd sp) = 0) pre /\
        0 < Olevba.count_projects vba_parser /\
        nothing_below (dest_of root source) fs'
  | OSFailed e =>
      exists pre source vba_parser post fs1,
        sources = pre ++ (source, vba_parser) :: post /\
        Forall (fun sp => Olevba.count_projects (snd sp) = 0) pre /\
        no_file_written fs fs1 /\
        prepare_dest root source fs1 = inl e
  | Endless => False
  end.
Proof.
  revert log0 fs. induction sources as [|[source vba_parser] rest IH];
    intros log0 fs.
  - simpl. split; [apply no_file_written_refl|]. split; [constructor|].
    split; [by intros sp []|done].
  - simpl.
    destruct (OlevbaMore.extract_macros_cases parse_modules vba_parser
                src_encoding log0) as (e & log1 & -> & H0 & H1).
    simpl. unfold run_source, process_source. simpl.
    destruct (prepare_dest root source fs) as [err|fs1] eqn:P.
    { exists [], source, vba_parser, rest, fs.
      split; [done|]. split; [constructor|].
      split; [apply no_file_written_refl|exact P]. }
    pose proof (prepare_no_file _ _ _ _ P) as N1.
    pose proof (proj1 (proj2 (prepared _ _ _ _ P))) as B1.
    destruct (Olevba.count_projects vba_parser) as [|n] eqn:C.
    + destruct (H0 eq_refl) as [-> ->].
      specialize (IH log0 fs1).
      destruct (main_loop root use_orig_extension
                  (extract_all parse_modules filter_vba src_encoding rest log0)
                  fs1) as [fs'|exc fs'|err|].
      * destruct IH as (N & F & B & K). split; [by eapply no_file_written_trans|].
        split; [by constructor|]. split.
        -- intros sp [<-|Hsp] Hd; [|by apply B]. simpl in *.
           destruct (dest_of_cases root source) as [E|E]; [done|].
           rewrite E in *. by apply K.
        -- intros x Hx. apply K. by eapply prepare_keeps_nothing_below.
      * destruct IH as (N & He & pre & s & v & post & -> & F & Hv & B).
        split; [by eapply no_file_written_trans|]. split; [exact He|].
        exists ((source, vba_parser) :: pre), s, v, post.
        split; [done|]. split; [by constructor|]. done.
      * destruct IH as (pre & s & v & post & fs2 & -> & F & N & Q).
        exists ((source, vba_parser) :: pre), s, v, post, fs2.
        split; [done|]. split; [by constructor|].
        split; [by eapply no_file_written_trans|exact Q].
      * done.
    + destruct (H1 ltac:(lia)) as (-> & _).
      split; [exact N1|]. split; [done|].
      exists [], source, vba_parser, rest.
      split; [done|]. split; [constructor|]. split; [lia|exact B1].
Qed.

(** X27.  A run of [main] over sources that [VBA_Parser] opens writes no
    file, and ends in one of three ways.
    Having processed every source, none of which holds a VBA project:
    nothing is then at or below the directory of any source, unless that
    directory is the output root itself.  With [NameError] for
    [decompress_stream], which the constructor raises at line 110 for the
    first source with a VBA project: nothing is then at or below the
    directory of that source.  Or in a failing file operation, which is
    the making of the output root (lines 441-445) or lines 452-453 of a
    source no later than the first with a VBA project.  Up to where the
    run ends no regular file has appeared or changed: what an earlier run
    wrote below the directories that were reached is deleted and not
    replaced. *)
Theorem main_writes_no_file root use_orig_extension (src_encoding : string)
    (sources : list (Path * Olevba.VBA_Parser)) (fs : gmap (list string) node) :
  match main parse_modules filter_vba root use_orig_extension src_encoding
             sources fs with
  | Finished fs' =>
      no_file_written fs fs' /\
      Forall (fun sp => Olevba.count_projects (snd sp) = 0) sources /\
      (forall sp, In sp sources -> dest_of root (fst sp) <> root ->
                  nothing_below (dest_of root (fst sp)) fs')
  | ExtractFailed e fs' =>
      no_file_written fs fs' /\
      e = Olevba.NameError "decompress_stream" /\
      exists pre source vba_parser post,
        sources = pre ++ (source, vba_parser) :: post /\
        Forall (fun sp => Olevba.count_projects (snd sp) = 0) pre /\
        0 < Olevba.count_projects vba_parser /\
        nothing_below (dest_of root source) fs'
  | OSFailed e =>
      ensure_root root fs = inl e \/
      exists pre source vba_parser post fs1,
        sources = pre ++ (source, vba_parser) :: post /\
        Forall (fun sp => Olevba.count_projects (snd sp) = 0) pre /\
        no_file_written fs fs1 /\
        prepare_dest root source fs1 = inl e
  | Endless => False
  end.
Proof.
  unfold main.
  pose proof (ensure_root_cases fs root) as R.
  destruct (ensure_root root fs) as [e|fs0]; [by left|].
  pose proof (main_loop_extract root use_orig_extension src_encoding sources [] fs0)
    as L.
  destruct (main_loop _ _ _ fs0) as [fs'|exc fs'|err|].
  - destruct L as (N & F & B & _). split; [by eapply no_file_written_trans|done].
  - destruct L as (N & He & L). split; [by eapply no_file_written_trans|done].
  - right. destruct L as (pre & s & v & post & fs1 & -> & F & N & Q).
    exists pre, s, v, post, fs1. split; [done|]. split; [done|].
    split; [by eapply no_file_written_trans|exact Q].
  - done.
Qed.

End MainFacts.

End DriverMore.
